(** * gname: a libdns provider for the GNAME DNS API

    A shallow embedding of the Go package [gname] (provider.go, models.go,
    client.go) and the properties of its record mapper, request signer,
    transport and set/delete reconciliation loops.  The embedding follows
    the current revision of the package: the one built on [libdns.RR],
    with the [HTTPClient] field and [MakeApiRequestWithClient].

    Conventions.
    - Go [string] is [string] (a sequence of bytes, one [ascii] per byte).
    - Go [int] and [time.Duration] are 64-bit signed integers: [Z] with the
      wrap-around written out ([wrap64]).
    - A value of interface type [libdns.Record] is a value of the
      inductive [Record], one constructor per dynamic type that this
      package can tell apart.
    - Functions that return [(T, error)] return [T + error]; functions that
      return a partial list together with an error return
      [list RR * option error]. *)

From Stdlib Require Import List String Ascii ZArith Lia Bool Arith.
From Stdlib Require Import Sorting.Sorted Sorting.Permutation.
Import ListNotations.

Local Open Scope string_scope.
Local Open Scope Z_scope.

(* ================================================================= *)
(** ** Machine integers and durations *)

Definition int64_min : Z := - 2 ^ 63.
Definition int64_max : Z := 2 ^ 63 - 1.

Definition in_int64 (z : Z) : bool := (int64_min <=? z) && (z <=? int64_max).

(** Two's-complement wrap-around of Go's signed 64-bit arithmetic. *)
Definition wrap64 (z : Z) : Z := (z + 2 ^ 63) mod 2 ^ 64 - 2 ^ 63.

(** [time.Duration] counts nanoseconds in an [int64]. *)
Definition Duration := Z.
Definition Second : Duration := 1000000000.

(** [a * b] on [time.Duration]. *)
Definition dmul (a b : Duration) : Duration := wrap64 (a * b).

(* ================================================================= *)
(** ** Strings: the pieces of package [strings] and [strconv] in use *)

Definition byte_of (c : ascii) : Z := Z.of_nat (nat_of_ascii c).

(** [strings.HasSuffix]. *)
Definition HasSuffix (s suffix : string) : bool :=
  (String.length suffix <=? String.length s)%nat &&
  (substring (String.length s - String.length suffix) (String.length suffix) s
   =? suffix)%string.

(** [strings.TrimSuffix]: [s] without the given trailing [suffix]; [s]
    itself when it does not end in [suffix]. *)
Definition TrimSuffix (s suffix : string) : string :=
  if HasSuffix s suffix
  then substring 0 (String.length s - String.length suffix) s
  else s.


Definition digit_val (c : ascii) : option Z :=
  let n := byte_of c in
  if (48 <=? n) && (n <=? 57) then Some (n - 48) else None.

Fixpoint digits_val (s : string) (acc : Z) : option Z :=
  match s with
  | EmptyString => Some acc
  | String c r =>
      match digit_val c with
      | Some d => digits_val r (acc * 10 + d)
      | None => None
      end
  end.

(** [strconv.Atoi] on a 64-bit platform: an optional sign, then one or more
    decimal digits, and a value that fits [int]; [None] stands for the
    syntax and range errors. *)
Definition Atoi (s : string) : option Z :=
  match s with
  | EmptyString => None
  | String c r =>
      let neg := (c =? "-")%char in
      let body := if (c =? "-")%char || (c =? "+")%char then r else s in
      match body with
      | EmptyString => None
      | _ =>
          match digits_val body 0 with
          | Some n =>
              let v := if neg then - n else n in
              if in_int64 v then Some v else None
          | None => None
          end
      end
  end.

(* ================================================================= *)
(** ** client.go: zone normalisation *)

(** [libdnsZoneToDnslaDomain] strips the trailing dot from a zone. *)
Definition libdnsZoneToDnslaDomain (zone : string) : string :=
  TrimSuffix zone ".".

(* ================================================================= *)
(** ** The record types *)

Module libdns.

(** [libdns.RR]. *)
Record RR : Type := mkRR {
  Name : string;
  TTL : Duration;
  Type_ : string;
  Data : string
}.

End libdns.

(** models.go: a record as the vendor lists it. *)
Record DomainResolutionRecord : Type := mkDomainResolutionRecord {
  ID : string;
  Ym : string;
  Zjt : string;
  Lx : string;
  Jxz : string;
  Mx : string;
  Xlid : Z;
  Zt : string;
  TTL : string
}.

(** [toLibdnsRecord]: the vendor TTL is used when it parses to a positive
    integer, 600 seconds otherwise; the zone argument is unused. *)
Definition toLibdnsRecord (record : DomainResolutionRecord) (zone : string)
  : libdns.RR :=
  let ttl :=
    if (TTL record =? "")%string then dmul Second 600
    else match Atoi (TTL record) with
         | Some parsedTTL =>
             if 0 <? parsedTTL then dmul parsedTTL Second
             else dmul Second 600
         | None => dmul Second 600
         end in
  libdns.mkRR (Zjt record) ttl (Lx record) (Jxz record).

(** A value of the interface type [libdns.Record].  The package tells two
    dynamic types apart: its own [DomainResolutionRecord] (the target of
    the type assertions in SetRecords and DeleteRecords) and everything
    else, which it only ever reads through the method [RR()]; [OfRR rr]
    stands for any such value whose [RR()] is [rr] ([libdns.RR] itself
    among them). *)
Inductive Record : Type :=
| OfRR (rr : libdns.RR)
| OfVendor (d : DomainResolutionRecord).

(** The method [RR()] of the interface. *)
Definition RR (r : Record) : libdns.RR :=
  match r with
  | OfRR rr => rr
  | OfVendor d => toLibdnsRecord d ""
  end.

(* ================================================================= *)
(** ** Formatting: the verbs of [fmt.Sprintf] in use *)

Definition digit_char (d : Z) : ascii := ascii_of_nat (Z.to_nat (48 + d)).

Fixpoint decimal_digits (fuel : nat) (n : Z) (acc : string) : string :=
  match fuel with
  | O => acc
  | S fuel' =>
      if n <? 10 then String (digit_char n) acc
      else decimal_digits fuel' (n / 10) (String (digit_char (n mod 10)) acc)
  end.

(** The verb [%d] on an [int64]; twenty digits are enough for any of them. *)
Definition format_d (z : Z) : string :=
  if z <? 0 then String "-" (decimal_digits 20 (- z) "")
  else decimal_digits 20 z "".

Definition hex_char (upper : bool) (d : Z) : ascii :=
  if d <? 10 then ascii_of_nat (Z.to_nat (48 + d))
  else ascii_of_nat (Z.to_nat ((if upper then 55 else 87) + d)).

(** Two hexadecimal digits of one byte. *)
Definition hex_byte (upper : bool) (b : Z) (rest : string) : string :=
  String (hex_char upper (b / 16)) (String (hex_char upper (b mod 16)) rest).

(** The verb [%x] on a byte array: two lower-case digits per byte. *)
Definition format_x (bs : list Z) : string :=
  fold_right (hex_byte false) "" bs.

(** [strings.ToUpper] on ASCII text (it is applied to a hexadecimal
    digest only). *)
Definition upper_char (c : ascii) : ascii :=
  let n := byte_of c in
  if (97 <=? n) && (n <=? 122) then ascii_of_nat (Z.to_nat (n - 32)) else c.

Fixpoint ToUpper (s : string) : string :=
  match s with
  | EmptyString => EmptyString
  | String c r => String (upper_char c) (ToUpper r)
  end.

Fixpoint bytes_of (s : string) : list Z :=
  match s with
  | EmptyString => []
  | String c r => byte_of c :: bytes_of r
  end.

(* ================================================================= *)
(** ** crypto/md5 (RFC 1321), on 32-bit words held in [Z] *)

Module md5.

Definition w32 (z : Z) : Z := z mod 2 ^ 32.
Definition not32 (x : Z) : Z := 2 ^ 32 - 1 - x.
Definition rotl32 (x : Z) (c : Z) : Z :=
  w32 (Z.lor (Z.shiftl x c) (Z.shiftr x (32 - c))).

Definition shifts : list Z :=
  [ 7; 12; 17; 22; 7; 12; 17; 22; 7; 12; 17; 22; 7; 12; 17; 22;
    5; 9; 14; 20; 5; 9; 14; 20; 5; 9; 14; 20; 5; 9; 14; 20;
    4; 11; 16; 23; 4; 11; 16; 23; 4; 11; 16; 23; 4; 11; 16; 23;
    6; 10; 15; 21; 6; 10; 15; 21; 6; 10; 15; 21; 6; 10; 15; 21 ].

Definition table : list Z :=
  [ 3614090360; 3905402710; 606105819; 3250441966;
    4118548399; 1200080426; 2821735955; 4249261313;
    1770035416; 2336552879; 4294925233; 2304563134;
    1804603682; 4254626195; 2792965006; 1236535329;
    4129170786; 3225465664; 643717713; 3921069994;
    3593408605; 38016083; 3634488961; 3889429448;
    568446438; 3275163606; 4107603335; 1163531501;
    2850285829; 4243563512; 1735328473; 2368359562;
    4294588738; 2272392833; 1839030562; 4259657740;
    2763975236; 1272893353; 4139469664; 3200236656;
    681279174; 3936430074; 3572445317; 76029189;
    3654602809; 3873151461; 530742520; 3299628645;
    4096336452; 1126891415; 2878612391; 4237533241;
    1700485571; 2399980690; 4293915773; 2240044497;
    1873313359; 4264355552; 2734768916; 1309151649;
    4149444226; 3174756917; 718787259; 3951481745 ].

(** The message followed by the byte 0x80, zeros up to 56 modulo 64, and
    the bit length as eight little-endian bytes. *)
Definition le_bytes (n : nat) (z : Z) : list Z :=
  map (fun i => Z.shiftr z (8 * Z.of_nat i) mod 256) (seq 0 n).

Definition pad (msg : list Z) : list Z :=
  let len := Z.of_nat (List.length msg) in
  let zeros := Z.to_nat ((55 - len) mod 64) in
  msg ++ 128 :: repeat 0 zeros ++ le_bytes 8 ((8 * len) mod 2 ^ 64).

Definition word_le (bs : list Z) : Z :=
  fold_right (fun b acc => b + 256 * acc) 0 bs.

Fixpoint words (n : nat) (bs : list Z) : list Z :=
  match n with
  | O => []
  | S n' => word_le (firstn 4 bs) :: words n' (skipn 4 bs)
  end.

Definition state : Type := Z * Z * Z * Z.

Definition round (m : list Z) (st : state) (i : nat) : state :=
  let '(a, b, c, d) := st in
  let iz := Z.of_nat i in
  let '(f, g) :=
    if iz <? 16 then (Z.lor (Z.land b c) (Z.land (not32 b) d), iz)
    else if iz <? 32 then
      (Z.lor (Z.land d b) (Z.land (not32 d) c), (5 * iz + 1) mod 16)
    else if iz <? 48 then (Z.lxor (Z.lxor b c) d, (3 * iz + 5) mod 16)
    else (Z.lxor c (Z.lor b (not32 d)), (7 * iz) mod 16) in
  let f' := w32 (f + a + nth i table 0 + nth (Z.to_nat g) m 0) in
  (d, w32 (b + rotl32 f' (nth i shifts 0)), b, c).

Definition block (st : state) (chunk : list Z) : state :=
  let '(a0, b0, c0, d0) := st in
  let '(a, b, c, d) := fold_left (round (words 16 chunk)) (seq 0 64) st in
  (w32 (a0 + a), w32 (b0 + b), w32 (c0 + c), w32 (d0 + d)).

Fixpoint blocks (n : nat) (st : state) (bs : list Z) : state :=
  match n with
  | O => st
  | S n' => blocks n' (block st (firstn 64 bs)) (skipn 64 bs)
  end.

Definition init : state := (1732584193, 4023233417, 2562383102, 271733878).

(** [md5.Sum]: the sixteen bytes of the digest. *)
Definition Sum (msg : list Z) : list Z :=
  let p := pad msg in
  let '(a, b, c, d) := blocks (List.length p / 64) init p in
  le_bytes 4 a ++ le_bytes 4 b ++ le_bytes 4 c ++ le_bytes 4 d.

End md5.


(* ================================================================= *)
(** ** net/url: query escaping *)

Module url.

(** [shouldEscape c encodeQueryComponent]: only letters, digits and the
    four marks [-], [_], [.], [~] are left as they are. *)
Definition shouldEscape (c : ascii) : bool :=
  let n := byte_of c in
  negb (((97 <=? n) && (n <=? 122)) || ((65 <=? n) && (n <=? 90))
        || ((48 <=? n) && (n <=? 57))
        || (n =? 45) || (n =? 95) || (n =? 46) || (n =? 126)).

(** [url.QueryEscape]: a space becomes [+], every other escaped byte
    becomes [%XX] with upper-case digits. *)
Fixpoint QueryEscape (s : string) : string :=
  match s with
  | EmptyString => EmptyString
  | String c r =>
      if (c =? " ")%char then String "+" (QueryEscape r)
      else if shouldEscape c
      then String "%" (hex_byte true (byte_of c) (QueryEscape r))
      else String c (QueryEscape r)
  end.

End url.

(* ================================================================= *)
(** ** github.com/yuchenfw/go-join *)

Module gojoin.

Inductive order : Type := ASCII.
Inductive url_coding : Type := Encoding.

Record Options : Type := mkOptions {
  Sep : string;
  KVSep : string;
  Order : order;
  URLCoding : url_coding
}.

(** [cut sep s]: the text before and after the first [sep] in [s]; the
    whole of [s] and nothing when [sep] does not occur. *)
Fixpoint cut (sep : ascii) (s : string) : string * option string :=
  match s with
  | EmptyString => (EmptyString, None)
  | String c r =>
      if (c =? sep)%char then (EmptyString, Some r)
      else let '(a, b) := cut sep r in (String c a, b)
  end.

(** The fields of [s] between occurrences of [sep]. *)
Fixpoint fields (sep : ascii) (s : string) : list string :=
  match s with
  | EmptyString => [EmptyString]
  | String c r =>
      if (c =? sep)%char then EmptyString :: fields sep r
      else match fields sep r with
           | f :: fs => String c f :: fs
           | [] => [String c EmptyString]
           end
  end.

Definition pair_of (field : string) : string * string :=
  let '(k, v) := cut "=" field in
  (k, match v with Some v => v | None => EmptyString end).

(** The parameters of a URL: the non-empty [&]-separated fields of the
    text after its first [?], each split at its first [=]. *)
Definition params_of (src : string) : list (string * string) :=
  match snd (cut "?" src) with
  | None => []
  | Some q =>
      map pair_of (filter (fun f => negb (f =? "")%string) (fields "&" q))
  end.

(** Keys are compared byte by byte. *)
Definition key_leb (a b : string * string) : bool :=
  (fst a <=? fst b)%string.

Fixpoint insert (p : string * string) (l : list (string * string))
  : list (string * string) :=
  match l with
  | [] => [p]
  | q :: r => if key_leb p q then p :: q :: r else q :: insert p r
  end.

Definition sort (l : list (string * string)) : list (string * string) :=
  fold_right insert [] l.

Definition render (options : Options) (p : string * string) : string :=
  fst p ++ KVSep options ++ url.QueryEscape (snd p).

Fixpoint join_with (sep : string) (l : list string) : string :=
  match l with
  | [] => EmptyString
  | [x] => x
  | x :: r => x ++ sep ++ join_with sep r
  end.

(** Modelled from the spec: [gojoin.Join] belongs to a third-party
    library whose source is not part of this package.  Following the
    Signer contract (spec section 4.1), on a URL and the options
    [Order: ASCII, URLCoding: Encoding] it yields the parameters of the
    URL sorted by key in byte order and joined as key, [KVSep], the
    URL-encoded value, with [Sep] between them.  The inputs on which the
    library reports an error are left to the environment
    ([join_fails] below). *)
Definition Join (src : string) (options : Options) : string :=
  join_with (Sep options) (map (render options) (sort (params_of src))).

End gojoin.

(* ================================================================= *)
(** ** encoding/json, from the syntax tree on *)

(** A JSON document.  [JInt] is a number literal without fraction or
    exponent, [JNumber] any other number literal. *)
#[local] Unset Elimination Schemes.
Inductive json : Type :=
| JNull
| JBool (b : bool)
| JInt (z : Z)
| JNumber (literal : string)
| JString (s : string)
| JArray (elements : list json)
| JObject (members : list (string * json)).
#[local] Set Elimination Schemes.

(** What [io.ReadAll] hands over: bytes that are a JSON document, or
    bytes that are not. *)
Inductive body : Type :=
| NotJSON (raw : string)
| JSON (v : json).

(** Decoding into an [int] field. *)
Definition set_int (v : json) (old : Z) : option Z :=
  match v with
  | JNull => Some old
  | JInt z => if in_int64 z then Some z else None
  | _ => None
  end.

(** Decoding into a [string] field. *)
Definition set_string (v : json) (old : string) : option string :=
  match v with
  | JNull => Some old
  | JString s => Some s
  | _ => None
  end.

(** A member name selects the field with that tag, compared without
    regard to (ASCII) letter case. *)
Definition names (tag key : string) : bool :=
  (ToUpper key =? ToUpper tag)%string.

(** Decoding into a struct: [null] leaves it as it is, an object sets the
    fields its members name, one after the other, and any other value is
    a type error.  A member that does not fit its field is an error too,
    reported once the remaining members have been decoded. *)
Definition decode_struct {T : Type} (member : string -> json -> T -> option T)
  (v : json) (t : T) : option T :=
  match v with
  | JNull => Some t
  | JObject members =>
      let step (acc : T * bool) (kv : string * json) :=
        match member (fst kv) (snd kv) (fst acc) with
        | Some t' => (t', snd acc)
        | None => (fst acc, false)
        end in
      let '(t', ok) := fold_left step members (t, true) in
      if ok then Some t' else None
  | _ => None
  end.

(** The decoder of a Go type, as [json.Unmarshal(data, &t)] selects it by
    reflection. *)
Class Unmarshal (T : Type) : Type := unmarshal : json -> T -> option T.

(** [json.Unmarshal] on the bytes of a response. *)
Definition json_Unmarshal {T : Type} `{Unmarshal T} (b : body) (t : T)
  : option T :=
  match b with
  | NotJSON _ => None
  | JSON v => unmarshal v t
  end.

Definition opt_map {A B : Type} (f : A -> B) (o : option A) : option B :=
  match o with Some a => Some (f a) | None => None end.

(** Decoding a list of structs, each from its zero value. *)
Fixpoint decode_all {T : Type} (dec : json -> T -> option T) (zero : T)
  (l : list json) : option (list T) :=
  match l with
  | [] => Some []
  | v :: r =>
      match dec v zero, decode_all dec zero r with
      | Some t, Some ts => Some (t :: ts)
      | _, _ => None
      end
  end.

(* ================================================================= *)
(** ** models.go: the response types and their decoders *)

Record CommonResponse : Type := mkCommonResponse {
  Code : Z;
  Msg : string
}.

Record ResolutionList : Type := mkResolutionList {
  list_Code : Z;
  list_Msg : string;
  list_Data : list DomainResolutionRecord;
  Count : Z;
  Page : Z;
  PageSize : Z
}.

Record AddDomainRecord : Type := mkAddDomainRecord {
  add_Code : Z;
  add_Msg : string;
  add_Data : Z
}.

Record UpdateDomainRecord : Type := mkUpdateDomainRecord {
  upd_Code : Z;
  upd_Msg : string;
  upd_Data : string
}.

Record DeleteDomainRecord : Type := mkDeleteDomainRecord {
  del_Code : Z;
  del_Msg : string
}.

(** The zero values, written [T{}] in the source. *)
Definition zero_CommonResponse := mkCommonResponse 0 "".
Definition zero_DomainResolutionRecord :=
  mkDomainResolutionRecord "" "" "" "" "" "" 0 "" "".
Definition zero_ResolutionList := mkResolutionList 0 "" [] 0 0 0.
Definition zero_AddDomainRecord := mkAddDomainRecord 0 "" 0.
Definition zero_UpdateDomainRecord := mkUpdateDomainRecord 0 "" "".
Definition zero_DeleteDomainRecord := mkDeleteDomainRecord 0 "".

#[export] Instance Unmarshal_CommonResponse : Unmarshal CommonResponse :=
  decode_struct (fun k v t =>
    if names "code" k then opt_map (fun c => mkCommonResponse c (Msg t)) (set_int v (Code t))
    else if names "msg" k then opt_map (fun m => mkCommonResponse (Code t) m) (set_string v (Msg t))
    else Some t).

#[export] Instance Unmarshal_DomainResolutionRecord
  : Unmarshal DomainResolutionRecord :=
  decode_struct (fun k v t =>
    let '(mkDomainResolutionRecord id ym zjt lx jxz mx xlid zt ttl) := t in
    if names "id" k then
      opt_map (fun x => mkDomainResolutionRecord x ym zjt lx jxz mx xlid zt ttl) (set_string v id)
    else if names "ym" k then
      opt_map (fun x => mkDomainResolutionRecord id x zjt lx jxz mx xlid zt ttl) (set_string v ym)
    else if names "zjt" k then
      opt_map (fun x => mkDomainResolutionRecord id ym x lx jxz mx xlid zt ttl) (set_string v zjt)
    else if names "lx" k then
      opt_map (fun x => mkDomainResolutionRecord id ym zjt x jxz mx xlid zt ttl) (set_string v lx)
    else if names "jxz" k then
      opt_map (fun x => mkDomainResolutionRecord id ym zjt lx x mx xlid zt ttl) (set_string v jxz)
    else if names "mx" k then
      opt_map (fun x => mkDomainResolutionRecord id ym zjt lx jxz x xlid zt ttl) (set_string v mx)
    else if names "xlid" k then
      opt_map (fun x => mkDomainResolutionRecord id ym zjt lx jxz mx x zt ttl) (set_int v xlid)
    else if names "zt" k then
      opt_map (fun x => mkDomainResolutionRecord id ym zjt lx jxz mx xlid x ttl) (set_string v zt)
    else if names "ttl" k then
      opt_map (fun x => mkDomainResolutionRecord id ym zjt lx jxz mx xlid zt x) (set_string v ttl)
    else Some t).

(** Decoding into the slice field [Data]: [null] empties it, an array
    replaces it. *)
Definition set_records (v : json) : option (list DomainResolutionRecord) :=
  match v with
  | JNull => Some []
  | JArray l => decode_all unmarshal zero_DomainResolutionRecord l
  | _ => None
  end.

#[export] Instance Unmarshal_ResolutionList : Unmarshal ResolutionList :=
  decode_struct (fun k v t =>
    let '(mkResolutionList code msg data count page pagesize) := t in
    if names "code" k then
      opt_map (fun x => mkResolutionList x msg data count page pagesize) (set_int v code)
    else if names "msg" k then
      opt_map (fun x => mkResolutionList code x data count page pagesize) (set_string v msg)
    else if names "data" k then
      opt_map (fun x => mkResolutionList code msg x count page pagesize) (set_records v)
    else if names "count" k then
      opt_map (fun x => mkResolutionList code msg data x page pagesize) (set_int v count)
    else if names "page" k then
      opt_map (fun x => mkResolutionList code msg data count x pagesize) (set_int v page)
    else if names "pagesize" k then
      opt_map (fun x => mkResolutionList code msg data count page x) (set_int v pagesize)
    else Some t).

#[export] Instance Unmarshal_AddDomainRecord : Unmarshal AddDomainRecord :=
  decode_struct (fun k v t =>
    let '(mkAddDomainRecord code msg data) := t in
    if names "code" k then opt_map (fun x => mkAddDomainRecord x msg data) (set_int v code)
    else if names "msg" k then opt_map (fun x => mkAddDomainRecord code x data) (set_string v msg)
    else if names "data" k then opt_map (fun x => mkAddDomainRecord code msg x) (set_int v data)
    else Some t).

#[export] Instance Unmarshal_UpdateDomainRecord : Unmarshal UpdateDomainRecord :=
  decode_struct (fun k v t =>
    let '(mkUpdateDomainRecord code msg data) := t in
    if names "code" k then opt_map (fun x => mkUpdateDomainRecord x msg data) (set_int v code)
    else if names "msg" k then opt_map (fun x => mkUpdateDomainRecord code x data) (set_string v msg)
    else if names "data" k then opt_map (fun x => mkUpdateDomainRecord code msg x) (set_string v data)
    else Some t).

#[export] Instance Unmarshal_DeleteDomainRecord : Unmarshal DeleteDomainRecord :=
  decode_struct (fun k v t =>
    let '(mkDeleteDomainRecord code msg) := t in
    if names "code" k then opt_map (fun x => mkDeleteDomainRecord x msg) (set_int v code)
    else if names "msg" k then opt_map (fun x => mkDeleteDomainRecord code x) (set_string v msg)
    else Some t).

(* ================================================================= *)
(** ** Errors *)

(** One constructor per [fmt.Errorf] of the package; the wrapped error of
    a [%w] verb is the last argument. *)
Inductive error : Type :=
| ErrLoadTimezone                                (* failed to load timezone *)
| ErrJoinParameters                              (* failed to join parameters *)
| ErrParseURL                                    (* failed to parse URL *)
| ErrCreateRequest                               (* failed to create request *)
| ErrExecuteRequest                              (* failed to execute request *)
| ErrStatus (status : Z) (b : body)              (* API request failed with status %d: %s *)
| ErrReadBody                                    (* failed to read response body *)
| ErrParseCommon                                 (* failed to parse common response *)
| ErrAPI (msg : string) (code : Z)               (* API error: %s (code: %d) *)
| ErrParseResponse                               (* failed to parse response *)
| ErrGetRecords (zone : string) (e : error)      (* failed to get records for zone %s *)
| ErrAppendRecord (name zone : string) (e : error) (* failed to append record %s.%s *)
| ErrGetExisting (e : error)                     (* failed to get existing records *)
| ErrCreateNew (e : error)                       (* failed to create new record *)
| ErrUpdateRecord (name zone : string) (e : error) (* failed to update record %s.%s *)
| ErrDeleteRecord (name zone : string) (e : error). (* failed to delete record %s.%s *)

(* ================================================================= *)
(** ** net/http, the environment and the world *)

Record HttpRequest : Type := mkHttpRequest {
  Method : string;
  URL : string;
  ContentType : string;
  Body : string
}.

(** A response: its status, what [io.ReadAll] returns for its body, and
    whether [io.ReadAll] also returns an error. *)
Record HttpResponse : Type := mkHttpResponse {
  StatusCode : Z;
  RespBody : body;
  ReadError : bool
}.

(** [client.Do]: the answer to a request, given the requests sent before
    it; [None] is a transport failure. *)
Definition Client : Type := list HttpRequest -> HttpRequest -> option HttpResponse.

(** What the package takes from the Go runtime and from libraries that are
    not modelled further. *)
Record Env : Type := mkEnv {
  (** [time.LoadLocation "Asia/Shanghai"] succeeds *)
  LoadLocation : bool;
  (** [time.Now().Unix()] at the n-th reading of the clock *)
  Now : nat -> Z;
  (** [gojoin.Join] reports an error on this input *)
  join_fails : string -> bool;
  (** [url.Parse] followed by [u.String()] *)
  url_Parse : string -> option string;
  (** [http.NewRequest] accepts this method and URL *)
  NewRequest_ok : string -> string -> bool;
  (** the verb [%.0f] applied to [d.Seconds()], a [float64] *)
  format_seconds : Duration -> string;
  (** the client [&http.Client{Timeout: 30 * time.Second}] *)
  new_client : Client
}.

(** An invocation of [MakeApiRequestWithClient], by its method, endpoint
    and (unsigned) parameter string. *)
Record ApiCall : Type := mkApiCall {
  call_method : string;
  call_endpoint : string;
  call_params : string
}.

(** The world a call runs in: how often the clock has been read, the
    invocations of [MakeApiRequestWithClient] so far (a ghost record, kept
    for the statements about which calls an operation issues), and the
    requests handed to [client.Do] so far; both oldest first. *)
Record World : Type := mkWorld {
  clock : nat;
  calls : list ApiCall;
  wire : list HttpRequest
}.

Definition M (A : Type) : Type := World -> A * World.

Definition ret {A : Type} (a : A) : M A := fun w => (a, w).

Definition bind {A B : Type} (m : M A) (k : A -> M B) : M B :=
  fun w => let '(a, w') := m w in k a w'.

Notation "x <- m ;; k" := (bind m (fun x => k))
  (at level 61, m at next level, right associativity).

Definition http_StatusOK : Z := 200.

Definition form_urlencoded : string := "application/x-www-form-urlencoded".

Definition ApiBase : string := "https://api.gname.com".

Definition join_options : gojoin.Options :=
  gojoin.mkOptions "&" "=" gojoin.ASCII gojoin.Encoding.

Section Transport.

Variable env : Env.

Definition time_Now : M Z :=
  fun w => (Now env (clock w), mkWorld (S (clock w)) (calls w) (wire w)).

Definition log_call (c : ApiCall) : M unit :=
  fun w => (tt, mkWorld (clock w) (calls w ++ [c]) (wire w)).

Definition client_Do (client : Client) (req : HttpRequest)
  : M (option HttpResponse) :=
  fun w => (client (wire w) req, mkWorld (clock w) (calls w) (wire w ++ [req])).

(** The first half of [MakeApiRequestWithClient]: the signed form body
    for the given endpoint, parameters, timestamp and key. *)
Definition sorted_params (endpoint params : string) (unix : Z) : string :=
  let newEndpoint := endpoint ++ "?" ++ params ++ "&gntime=" ++ format_d unix in
  gojoin.Join (ApiBase ++ newEndpoint) join_options.

Definition gn_token (sortedParams appKey : string) : string :=
  let signParams := sortedParams ++ appKey in
  let token := md5.Sum (bytes_of signParams) in
  ToUpper (format_x token).

Definition body_str (endpoint params : string) (unix : Z) (appKey : string)
  : string :=
  let sortedParams := sorted_params endpoint params unix in
  sortedParams ++ "&gntoken=" ++ gn_token sortedParams appKey.

(** The second half of [MakeApiRequestWithClient]: what it makes of the
    response. *)
Definition read_response {T : Type} `{Unmarshal T} (resp : HttpResponse)
  (responseType : T) : T + error :=
  if negb (StatusCode resp =? http_StatusOK)
  then inr (ErrStatus (StatusCode resp) (RespBody resp))
  else if ReadError resp then inr ErrReadBody
  else
    let result := RespBody resp in
    match json_Unmarshal result zero_CommonResponse with
    | None => inr ErrParseCommon
    | Some commonResponse =>
        if negb (Code commonResponse =? 1)
        then inr (ErrAPI (Msg commonResponse) (Code commonResponse))
        else match json_Unmarshal result responseType with
             | None => inr ErrParseResponse
             | Some response => inl response
             end
    end.

(** [MakeApiRequestWithClient]. *)
Definition MakeApiRequestWithClient {T : Type} `{Unmarshal T}
  (client : Client) (method endpoint params appKey : string)
  (responseType : T) : M (T + error) :=
  _ <- log_call (mkApiCall method endpoint params) ;;
  if negb (LoadLocation env) then ret (inr ErrLoadTimezone)
  else
    unix <- time_Now ;;
    let newEndpoint := endpoint ++ "?" ++ params ++ "&gntime=" ++ format_d unix in
    if join_fails env (ApiBase ++ newEndpoint) then ret (inr ErrJoinParameters)
    else
      let bodyStr := body_str endpoint params unix appKey in
      let fullUrl := ApiBase ++ endpoint in
      match url_Parse env fullUrl with
      | None => ret (inr ErrParseURL)
      | Some u =>
          if negb (NewRequest_ok env method u) then ret (inr ErrCreateRequest)
          else
            let req := mkHttpRequest method u form_urlencoded bodyStr in
            resp <- client_Do client req ;;
            match resp with
            | None => ret (inr ErrExecuteRequest)
            | Some resp => ret (read_response resp responseType)
            end
      end.

(** [MakeApiRequest]: the same with [http.DefaultClient], which the
    environment provides like any other client. *)
Definition MakeApiRequest {T : Type} `{Unmarshal T} (defaultClient : Client)
  (method endpoint params appKey : string) (responseType : T) : M (T + error) :=
  MakeApiRequestWithClient defaultClient method endpoint params appKey responseType.

End Transport.

(* ================================================================= *)
(** ** provider.go *)

Record Provider : Type := mkProvider {
  APPID : string;
  APPKey : string;
  HTTPClient : option Client
}.

(** What a batch operation returns: the records it reports, and the error
    if there is one. *)
Definition Outcome : Type := list Record * option error.

Section Reconciler.

Variable env : Env.

(** [getHTTPClient]: the configured client, or a new one with a timeout
    of thirty seconds.  (The source also stores the new client in the
    provider, under a lock; the stored client is the one returned.) *)
Definition getHTTPClient (p : Provider) : Client :=
  match HTTPClient p with
  | Some c => c
  | None => new_client env
  end.

Definition list_params (p : Provider) (trimmedZone : string) : string :=
  "appid=" ++ APPID p ++ "&ym=" ++ trimmedZone.

Definition add_params (p : Provider) (trimmedZone : string) (rr : libdns.RR)
  : string :=
  "appid=" ++ APPID p ++ "&ym=" ++ trimmedZone ++ "&lx=" ++ libdns.Type_ rr
  ++ "&zj=" ++ libdns.Name rr ++ "&jlz=" ++ libdns.Data rr
  ++ "&ttl=" ++ format_seconds env (libdns.TTL rr).

Definition edit_params (p : Provider) (trimmedZone : string) (rr : libdns.RR)
  (recordId : string) : string :=
  "appid=" ++ APPID p ++ "&ym=" ++ trimmedZone ++ "&lx=" ++ libdns.Type_ rr
  ++ "&zj=" ++ libdns.Name rr ++ "&jlz=" ++ libdns.Data rr
  ++ "&ttl=" ++ format_seconds env (libdns.TTL rr) ++ "&jxid=" ++ recordId.

Definition delete_params (p : Provider) (trimmedZone recordId : string)
  : string :=
  "appid=" ++ APPID p ++ "&ym=" ++ trimmedZone ++ "&jxid=" ++ recordId.

(** [GetRecords] lists all the records in the zone. *)
Definition GetRecords (p : Provider) (zone : string)
  : M (list Record + error) :=
  let trimmedZone := libdnsZoneToDnslaDomain zone in
  let params := list_params p trimmedZone in
  r <- MakeApiRequestWithClient env (getHTTPClient p) "POST"
         "/api/resolution/list" params (APPKey p) zero_ResolutionList ;;
  match r with
  | inr err => ret (inr (ErrGetRecords zone err))
  | inl response =>
      ret (inl (map (fun rec => OfRR (toLibdnsRecord rec trimmedZone))
                    (list_Data response)))
  end.

(** The loop of [AppendRecords], from the records not yet processed and
    the records appended so far. *)
Fixpoint append_loop (p : Provider) (zone : string) (records : list Record)
  (successfullyAppendedRecords : list Record) : M Outcome :=
  match records with
  | [] => ret (successfullyAppendedRecords, None)
  | record :: rest =>
      let trimmedZone := libdnsZoneToDnslaDomain zone in
      let rr := RR record in
      let params := add_params p trimmedZone rr in
      r <- MakeApiRequestWithClient env (getHTTPClient p) "POST"
             "/api/resolution/add" params (APPKey p) zero_AddDomainRecord ;;
      match r with
      | inr err =>
          ret (successfullyAppendedRecords,
               Some (ErrAppendRecord (libdns.Name rr) zone err))
      | inl _ =>
          let appendedRecord :=
            libdns.mkRR (libdns.Name rr) (libdns.TTL rr) (libdns.Type_ rr)
                        (libdns.Data rr) in
          append_loop p zone rest
            (successfullyAppendedRecords ++ [OfRR appendedRecord])
      end
  end.

(** [AppendRecords] adds records to the zone and returns the records
    that were added. *)
Definition AppendRecords (p : Provider) (zone : string)
  (records : list Record) : M Outcome :=
  append_loop p zone records [].

(** The inner loop of [SetRecords]: whether some listed record has the
    name and type of [rr], and the vendor ID of the first such record
    when its dynamic type is [DomainResolutionRecord].  The inner loop of
    [DeleteRecords] is the same loop without the flag. *)
Fixpoint scan (recs : list Record) (rr : libdns.RR) : bool * string :=
  match recs with
  | [] => (false, "")
  | rec :: rest =>
      let recRR := RR rec in
      if (libdns.Name recRR =? libdns.Name rr)%string
         && (libdns.Type_ recRR =? libdns.Type_ rr)%string
      then (true, match rec with
                  | OfVendor dnslaRec => ID dnslaRec
                  | OfRR _ => ""
                  end)
      else scan rest rr
  end.

(** The outer loop of [SetRecords], over the listing [recs]. *)
Fixpoint set_loop (p : Provider) (zone : string) (recs : list Record)
  (records : list Record) (successfullyUpdatedRecords : list Record)
  : M Outcome :=
  match records with
  | [] => ret (successfullyUpdatedRecords, None)
  | record :: rest =>
      let trimmedZone := libdnsZoneToDnslaDomain zone in
      let rr := RR record in
      let '(hasRecord, recordId) := scan recs rr in
      if negb hasRecord then
        a <- AppendRecords p zone [record] ;;
        match snd a with
        | Some err => ret (successfullyUpdatedRecords, Some (ErrCreateNew err))
        | None =>
            set_loop p zone recs rest (successfullyUpdatedRecords ++ fst a)
        end
      else if (recordId =? "")%string then
        set_loop p zone recs rest successfullyUpdatedRecords
      else
        let params := edit_params p trimmedZone rr recordId in
        r <- MakeApiRequestWithClient env (getHTTPClient p) "POST"
               "/api/resolution/edit" params (APPKey p) zero_UpdateDomainRecord ;;
        match r with
        | inr err =>
            ret (successfullyUpdatedRecords,
                 Some (ErrUpdateRecord (libdns.Name rr) zone err))
        | inl response =>
            if upd_Code response =? 1 then
              set_loop p zone recs rest
                (successfullyUpdatedRecords
                 ++ [OfRR (libdns.mkRR (libdns.Name rr) (libdns.TTL rr)
                                       (libdns.Type_ rr) (libdns.Data rr))])
            else set_loop p zone recs rest successfullyUpdatedRecords
        end
  end.

(** [SetRecords] sets the records in the zone, either by updating
    existing records or creating new ones, and returns the updated
    records. *)
Definition SetRecords (p : Provider) (zone : string) (records : list Record)
  : M Outcome :=
  l <- GetRecords p zone ;;
  match l with
  | inr err => ret ([], Some (ErrGetExisting err))
  | inl recs => set_loop p zone recs records []
  end.

(** The outer loop of [DeleteRecords], over the listing [recs]. *)
Fixpoint delete_loop (p : Provider) (zone : string) (recs : list Record)
  (records : list Record) (successfullyDeletedRecords : list Record)
  : M Outcome :=
  match records with
  | [] => ret (successfullyDeletedRecords, None)
  | record :: rest =>
      let trimmedZone := libdnsZoneToDnslaDomain zone in
      let rr := RR record in
      let recordId := snd (scan recs rr) in
      if (recordId =? "")%string then
        delete_loop p zone recs rest successfullyDeletedRecords
      else
        let params := delete_params p trimmedZone recordId in
        r <- MakeApiRequestWithClient env (getHTTPClient p) "POST"
               "/api/resolution/delete" params (APPKey p) zero_DeleteDomainRecord ;;
        match r with
        | inr err =>
            ret (successfullyDeletedRecords,
                 Some (ErrDeleteRecord (libdns.Name rr) zone err))
        | inl response =>
            if del_Code response =? 1 then
              delete_loop p zone recs rest (successfullyDeletedRecords ++ [OfRR rr])
            else delete_loop p zone recs rest successfullyDeletedRecords
        end
  end.

(** [DeleteRecords] deletes the records from the zone and returns the
    records that were deleted. *)
Definition DeleteRecords (p : Provider) (zone : string)
  (records : list Record) : M Outcome :=
  l <- GetRecords p zone ;;
  match l with
  | inr err => ret ([], Some (ErrGetExisting err))
  | inl recs => delete_loop p zone recs records []
  end.

End Reconciler.

(* ================================================================= *)
(** ** Concrete environments, for the examples *)

(** A client that answers by the URL of the request alone; a URL it does
    not know is a transport failure. *)
Fixpoint answer (table : list (string * HttpResponse)) (u : string)
  : option HttpResponse :=
  match table with
  | [] => None
  | (k, r) :: rest => if (k =? u)%string then Some r else answer rest u
  end.

Definition table_client (table : list (string * HttpResponse)) : Client :=
  fun _ req => answer table (URL req).

(** An environment in which nothing fails before the request is sent: the
    clock starts at 1700000000 and advances by one second per reading,
    URLs are kept as they are, and durations are whole seconds. *)
Definition plain_env : Env :=
  mkEnv true (fun n => 1700000000 + Z.of_nat n) (fun _ => false)
        (fun s => Some s) (fun _ _ => true)
        (fun d => format_d (d / Second)) (table_client []).

Definition w0 : World := mkWorld 0 [] [].

Definition ok (v : json) : HttpResponse := mkHttpResponse 200 (JSON v) false.

Definition success : json := JObject [("code", JInt 1); ("msg", JString "ok")].

Definition list_url : string := "https://api.gname.com/api/resolution/list".
Definition add_url : string := "https://api.gname.com/api/resolution/add".
Definition edit_url : string := "https://api.gname.com/api/resolution/edit".
Definition delete_url : string := "https://api.gname.com/api/resolution/delete".

(** The listing of the scenario in section 8 of the specification: one
    record [www A 1.1.1.1] with vendor ID 1 and TTL 600. *)
Definition www_listing : json :=
  JObject [("code", JInt 1); ("msg", JString "ok");
           ("data", JArray [JObject [("id", JString "1"); ("ym", JString "example.com");
                                     ("zjt", JString "www"); ("lx", JString "A");
                                     ("jxz", JString "1.1.1.1"); ("ttl", JString "600")]])].

(** A vendor that lists [www A] and accepts every add, edit and delete. *)
Definition www_client : Client :=
  table_client [(list_url, ok www_listing); (add_url, ok success);
                (edit_url, ok success); (delete_url, ok success)].

Definition www_provider : Provider := mkProvider "app" "key" (Some www_client).

Definition www_A (data : string) (seconds : Z) : Record :=
  OfRR (libdns.mkRR "www" (seconds * Second) "A" data).

Definition mail_MX : Record :=
  OfRR (libdns.mkRR "mail" (300 * Second) "MX" "mx.example.com").

(** A vendor record [www A 1.1.1.1] with the given ID and TTL. *)
Definition vendor_www (id ttl : string) : DomainResolutionRecord :=
  mkDomainResolutionRecord id "example.com" "www" "A" "1.1.1.1" "" 0 "" ttl.

(* ================================================================= *)
(** ** Predicates used in the statements *)

(** The byte [c] occurs in [s]. *)
Fixpoint occurs (c : ascii) (s : string) : bool :=
  match s with
  | EmptyString => false
  | String a r => (a =? c)%char || occurs c r
  end.

(** Every byte of [s] satisfies [f]. *)
Fixpoint all_bytes (f : ascii -> bool) (s : string) : bool :=
  match s with
  | EmptyString => true
  | String a r => f a && all_bytes f r
  end.

(** One of [0]..[9], [A]..[F]. *)
Definition is_upper_hex (c : ascii) : bool :=
  let n := byte_of c in
  ((48 <=? n) && (n <=? 57)) || ((65 <=? n) && (n <=? 70)).

(** The order of the signed parameters: keys ascend, byte by byte. *)
Definition key_le (a b : string * string) : Prop := gojoin.key_leb a b = true.

(** The invocation of [MakeApiRequestWithClient] in world [w] gets as far
    as sending its request, and [resp] is the answer of the client. *)
Definition receives (env : Env) (client : Client)
  (method endpoint params appKey : string) (w : World) (resp : HttpResponse)
  : Prop :=
  LoadLocation env = true
  /\ join_fails env (ApiBase ++ endpoint ++ "?" ++ params ++ "&gntime="
                     ++ format_d (Now env (clock w))) = false
  /\ exists u,
       url_Parse env (ApiBase ++ endpoint) = Some u
       /\ NewRequest_ok env method u = true
       /\ client (wire w)
            (mkHttpRequest method u form_urlencoded
               (body_str endpoint params (Now env (clock w)) appKey))
          = Some resp.

(** A vendor that answers every add with status 201 and a success
    envelope. *)
Definition created_client : Client :=
  table_client [(add_url, mkHttpResponse 201 (JSON success) false)].

(** A vendor that rejects the credentials: status 200, envelope code 0. *)
Definition invalid_appid : json :=
  JObject [("code", JInt 0); ("msg", JString "invalid appid")].

Definition rejecting_client : Client :=
  table_client [(list_url, ok invalid_appid); (add_url, ok invalid_appid);
                (edit_url, ok invalid_appid); (delete_url, ok invalid_appid)].

(* ================================================================= *)
(** ** The per-record calls of the reconciler, by name *)

Definition list_endpoint : string := "/api/resolution/list".
Definition add_endpoint : string := "/api/resolution/add".
Definition edit_endpoint : string := "/api/resolution/edit".
Definition delete_endpoint : string := "/api/resolution/delete".

(** The create call that [AppendRecords] issues for [record]. *)
Definition add_call (env : Env) (p : Provider) (zone : string)
  (record : Record) : M (AddDomainRecord + error) :=
  MakeApiRequestWithClient env (getHTTPClient env p) "POST" add_endpoint
    (add_params env p (libdnsZoneToDnslaDomain zone) (RR record))
    (APPKey p) zero_AddDomainRecord.

(** The edit call that [SetRecords] issues for [record] and a vendor ID. *)
Definition edit_call (env : Env) (p : Provider) (zone : string)
  (record : Record) (recordId : string) : M (UpdateDomainRecord + error) :=
  MakeApiRequestWithClient env (getHTTPClient env p) "POST" edit_endpoint
    (edit_params env p (libdnsZoneToDnslaDomain zone) (RR record) recordId)
    (APPKey p) zero_UpdateDomainRecord.

(** The delete call that [DeleteRecords] issues for a vendor ID. *)
Definition delete_call (env : Env) (p : Provider) (zone : string)
  (recordId : string) : M (DeleteDomainRecord + error) :=
  MakeApiRequestWithClient env (getHTTPClient env p) "POST" delete_endpoint
    (delete_params p (libdnsZoneToDnslaDomain zone) recordId)
    (APPKey p) zero_DeleteDomainRecord.

(** The ghost records of these calls. *)
Definition list_record (p : Provider) (zone : string) : ApiCall :=
  mkApiCall "POST" list_endpoint (list_params p (libdnsZoneToDnslaDomain zone)).

Definition add_record (env : Env) (p : Provider) (zone : string)
  (record : Record) : ApiCall :=
  mkApiCall "POST" add_endpoint
    (add_params env p (libdnsZoneToDnslaDomain zone) (RR record)).

Definition edit_record (env : Env) (p : Provider) (zone : string)
  (record : Record) (recordId : string) : ApiCall :=
  mkApiCall "POST" edit_endpoint
    (edit_params env p (libdnsZoneToDnslaDomain zone) (RR record) recordId).

Definition delete_record (p : Provider) (zone recordId : string) : ApiCall :=
  mkApiCall "POST" delete_endpoint
    (delete_params p (libdnsZoneToDnslaDomain zone) recordId).

(** A client that answers the n-th request it sees with the n-th entry of
    a script, whatever the request; past the script it fails. *)
Definition script_client (answers : list HttpResponse) : Client :=
  fun history _ => nth_error answers (List.length history).

(** Every record of a listing has the dynamic type [libdns.RR]. *)
Definition plain_listing (recs : list Record) : Prop :=
  Forall (fun rec => exists rr, rec = OfRR rr) recs.

Definition to_endpoint (endpoint : string) (c : ApiCall) : Prop :=
  call_endpoint c = endpoint.

(** A provider whose vendor answers the first request with the listing of
    [www A], accepts the second request and rejects the third. *)
Definition flaky_provider : Provider :=
  mkProvider "app" "key"
    (Some (script_client [ok www_listing; ok success; ok invalid_appid])).

(** A provider whose vendor accepts the first request and rejects the
    second. *)
Definition once_provider : Provider :=
  mkProvider "app" "key" (Some (script_client [ok success; ok invalid_appid])).

Definition ftp_CNAME : Record :=
  OfRR (libdns.mkRR "ftp" (300 * Second) "CNAME" "www.example.com").

(** What [GetRecords] returns for the listing of [www A], and the world
    after that call. *)
Definition www_recs : list Record :=
  [OfRR (libdns.mkRR "www" (600 * Second) "A" "1.1.1.1")].

Definition listed (p : Provider) : World :=
  snd (GetRecords plain_env p "example.com." w0).

Definition accepted : AddDomainRecord := mkAddDomainRecord 1 "ok" 0.

Definition rejected : error := ErrAPI "invalid appid" 0.

(* ================================================================= *)
(** ** Further notions for the statements about the whole package *)

(** The record is not in the listing: no listed record has its name and
    type. *)
Definition unlisted (recs : list Record) (record : Record) : bool :=
  negb (fst (scan recs (RR record))).

(** The outcome of [AppendRecords] as [SetRecords] passes it on: the same
    records, the error wrapped once more. *)
Definition as_created (r : Outcome * World) : Outcome * World :=
  ((fst (fst r),
    match snd (fst r) with
    | Some err => Some (ErrCreateNew err)
    | None => None
    end),
   snd r).

(** What [AppendRecords] reports for a record it has created. *)
Definition reported (record : Record) : Record := OfRR (RR record).

(** Two runs that report the same records and leave the same world, and
    fail or succeed together. *)
Definition same_effect (a b : Outcome * World) : Prop :=
  fst (fst a) = fst (fst b)
  /\ snd a = snd b
  /\ (snd (fst a) = None <-> snd (fst b) = None).

(** The envelope code of each payload type. *)
Class Envelope (T : Type) : Type := code_of : T -> Z.

#[export] Instance Envelope_ResolutionList : Envelope ResolutionList := list_Code.
#[export] Instance Envelope_AddDomainRecord : Envelope AddDomainRecord := add_Code.
#[export] Instance Envelope_UpdateDomainRecord : Envelope UpdateDomainRecord := upd_Code.
#[export] Instance Envelope_DeleteDomainRecord : Envelope DeleteDomainRecord := del_Code.

(** A client that gives the same answer to every request. *)
Definition constant_client (resp : HttpResponse) : Client :=
  fun _ _ => Some resp.

(** An environment without the time zone database. *)
Definition no_tz_env : Env :=
  mkEnv false (fun n => 1700000000 + Z.of_nat n) (fun _ => false)
        (fun s => Some s) (fun _ _ => true)
        (fun d => format_d (d / Second)) (table_client []).

(** Nothing fails before the request is handed to the client. *)
Definition ready (env : Env) : Prop :=
  LoadLocation env = true
  /\ (forall s, join_fails env s = false)
  /\ (forall s, exists u, url_Parse env s = Some u)
  /\ (forall m u, NewRequest_ok env m u = true).

(** The vendor answers every request with status 200 and an envelope that
    carries the code [code], which is not 1, and the message [msg]. *)
Definition rejects (client : Client) (msg : string) (code : Z) : Prop :=
  code <> 1
  /\ forall history req,
       exists resp,
         client history req = Some resp
         /\ StatusCode resp = 200
         /\ ReadError resp = false
         /\ json_Unmarshal (RespBody resp) zero_CommonResponse
            = Some (mkCommonResponse code msg).

(** The provider and the record of the package's tests. *)
Definition test_provider : Provider :=
  mkProvider "Your_APPID" "Your_APPKEY"
    (Some (constant_client (ok invalid_appid))).

Definition jump_test : Record :=
  OfRR (libdns.mkRR "jump-test" (120 * Second) "A" "8.8.8.8").

(** The world after one more invocation that sent nothing. *)
Definition after_call (w : World) (c : ApiCall) : World :=
  mkWorld (clock w) (calls w ++ [c]) (wire w).

(** From [w] to [w'] at most [n] requests were handed to the client, and
    the requests handed over before are still there, in their order. *)
Definition sends_at_most (n : nat) (w w' : World) : Prop :=
  exists sent,
    wire w' = (wire w ++ sent)%list /\ (List.length sent <= n)%nat.

(* ================================================================= *)
(** * The earlier revision of the package

    The revision built on the struct [libdns.Record], with
    [MakeApiRequest] on [http.DefaultClient].  It shares the signer, the
    envelope and the add, edit and delete payloads with the current
    revision. *)

Module legacy.

Module libdns.

(** [libdns.Record], a struct in the earlier libdns.  [Priority] and
    [Weight] are of type [uint]. *)
Record Record : Type := mkRecord {
  ID : string;
  Type_ : string;
  Name : string;
  Value : string;
  TTL : Duration;
  Priority : Z;
  Weight : Z
}.

End libdns.

(** models.go: the vendor record has no TTL field. *)
Record DomainResolutionRecord : Type := mkDomainResolutionRecord {
  ID : string;
  Ym : string;
  Zjt : string;
  Lx : string;
  Jxz : string;
  Mx : string;
  Xlid : Z;
  Zt : string
}.

Record ResolutionList : Type := mkResolutionList {
  list_Code : Z;
  list_Msg : string;
  list_Data : list DomainResolutionRecord;
  Count : Z;
  Page : Z;
  PageSize : Z
}.

Definition zero_DomainResolutionRecord :=
  mkDomainResolutionRecord "" "" "" "" "" "" 0 "".
Definition zero_ResolutionList := mkResolutionList 0 "" [] 0 0 0.

#[export] Instance Unmarshal_DomainResolutionRecord
  : Unmarshal DomainResolutionRecord :=
  decode_struct (fun k v t =>
    let '(mkDomainResolutionRecord id ym zjt lx jxz mx xlid zt) := t in
    if names "id" k then
      opt_map (fun x => mkDomainResolutionRecord x ym zjt lx jxz mx xlid zt) (set_string v id)
    else if names "ym" k then
      opt_map (fun x => mkDomainResolutionRecord id x zjt lx jxz mx xlid zt) (set_string v ym)
    else if names "zjt" k then
      opt_map (fun x => mkDomainResolutionRecord id ym x lx jxz mx xlid zt) (set_string v zjt)
    else if names "lx" k then
      opt_map (fun x => mkDomainResolutionRecord id ym zjt x jxz mx xlid zt) (set_string v lx)
    else if names "jxz" k then
      opt_map (fun x => mkDomainResolutionRecord id ym zjt lx x mx xlid zt) (set_string v jxz)
    else if names "mx" k then
      opt_map (fun x => mkDomainResolutionRecord id ym zjt lx jxz x xlid zt) (set_string v mx)
    else if names "xlid" k then
      opt_map (fun x => mkDomainResolutionRecord id ym zjt lx jxz mx x zt) (set_int v xlid)
    else if names "zt" k then
      opt_map (fun x => mkDomainResolutionRecord id ym zjt lx jxz mx xlid x) (set_string v zt)
    else Some t).

Definition set_records (v : json) : option (list DomainResolutionRecord) :=
  match v with
  | JNull => Some []
  | JArray l => decode_all unmarshal zero_DomainResolutionRecord l
  | _ => None
  end.

#[export] Instance Unmarshal_ResolutionList : Unmarshal ResolutionList :=
  decode_struct (fun k v t =>
    let '(mkResolutionList code msg data count page pagesize) := t in
    if names "code" k then
      opt_map (fun x => mkResolutionList x msg data count page pagesize) (set_int v code)
    else if names "msg" k then
      opt_map (fun x => mkResolutionList code x data count page pagesize) (set_string v msg)
    else if names "data" k then
      opt_map (fun x => mkResolutionList code msg x count page pagesize) (set_records v)
    else if names "count" k then
      opt_map (fun x => mkResolutionList code msg data x page pagesize) (set_int v count)
    else if names "page" k then
      opt_map (fun x => mkResolutionList code msg data count x pagesize) (set_int v page)
    else if names "pagesize" k then
      opt_map (fun x => mkResolutionList code msg data count page x) (set_int v pagesize)
    else Some t).

(** The conversion [uint(n)] of an [int]. *)
Definition to_uint (n : Z) : Z := n mod 2 ^ 64.

(** [toLibdnsRecord]: the TTL is 120 seconds, the priority is the [Mx]
    field when it is a number and 0 otherwise; the zone is unused. *)
Definition toLibdnsRecord (record : DomainResolutionRecord) (zone : string)
  : libdns.Record :=
  let mx := match Atoi (Mx record) with
            | Some mx => mx
            | None => 0
            end in
  libdns.mkRecord (ID record) (Lx record) (Zjt record) (Jxz record)
                  (dmul Second 120) (to_uint mx) 0.

(** The errors of this revision are passed on as they are: one
    constructor per place an error comes from. *)
Inductive error : Type :=
| ErrJoin                            (* from gojoin.Join *)
| ErrParseURL                        (* from url.Parse *)
| ErrNewRequest                      (* from http.NewRequest *)
| ErrDo                              (* from client.Do *)
| ErrInvalidStatus (b : body)        (* "Invalid http response status, " + body *)
| ErrReadAll                         (* from io.ReadAll *)
| ErrUnmarshalCommon                 (* from the first json.Unmarshal *)
| ErrMessage (msg : string)          (* errors.New(commonResponse.Msg) *)
| ErrUnmarshalResponse               (* from the second json.Unmarshal *)
| ErrAtoi (s : string).              (* from strconv.Atoi *)

(** How a call ends: it returns, it panics ([time.Time.In] on a nil
    location), or it ends the process ([log.Fatal]). *)
Inductive result (A : Type) : Type :=
| Returns (a : A)
| Panics
| Exits.

Arguments Returns {A} a.
Arguments Panics {A}.
Arguments Exits {A}.

Definition L (A : Type) : Type := World -> result A * World.

Definition lret {A : Type} (a : A) : L A := fun w => (Returns a, w).

Definition lbind {A B : Type} (m : L A) (k : A -> L B) : L B :=
  fun w =>
    match m w with
    | (Returns a, w') => k a w'
    | (Panics, w') => (Panics, w')
    | (Exits, w') => (Exits, w')
    end.

Notation "x <~ m ;; k" := (lbind m (fun x => k))
  (at level 61, m at next level, right associativity).

Definition Outcome : Type := list libdns.Record * option error.

Record Provider : Type := mkProvider {
  APPID : string;
  APPKey : string
}.

Section Earlier.

Variable env : Env.

(** [http.DefaultClient]. *)
Variable DefaultClient : Client.

(** [resp.Body.Close()] returns an error. *)
Variable close_fails : HttpResponse -> bool.

(** What [MakeApiRequest] makes of the response. *)
Definition read_response {T : Type} `{Unmarshal T} (resp : HttpResponse)
  (responseType : T) : T + error :=
  if negb (StatusCode resp =? http_StatusOK)
  then inr (ErrInvalidStatus (RespBody resp))
  else if ReadError resp then inr ErrReadAll
  else
    let result := RespBody resp in
    match json_Unmarshal result zero_CommonResponse with
    | None => inr ErrUnmarshalCommon
    | Some commonResponse =>
        if negb (Code commonResponse =? 1)
        then inr (ErrMessage (Msg commonResponse))
        else match json_Unmarshal result responseType with
             | None => inr ErrUnmarshalResponse
             | Some response => inl response
             end
    end.

(** [MakeApiRequest].  The error of [time.LoadLocation] is not looked
    at: without the time zone the location is nil and [In] panics.  The
    deferred function ends the process when the body cannot be closed. *)
Definition MakeApiRequest {T : Type} `{Unmarshal T}
  (method endpoint params appKey : string) (responseType : T)
  : L (T + error) :=
  fun w =>
    let client := DefaultClient in
    let '(_, w) := log_call (mkApiCall method endpoint params) w in
    let '(unix, w) := time_Now env w in
    if negb (LoadLocation env) then (Panics, w)
    else
      let newEndpoint := endpoint ++ "?" ++ params ++ "&gntime=" ++ format_d unix in
      if join_fails env (ApiBase ++ newEndpoint) then (Returns (inr ErrJoin), w)
      else
        let bodyStr := body_str endpoint params unix appKey in
        let fullUrl := ApiBase ++ endpoint in
        match url_Parse env fullUrl with
        | None => (Returns (inr ErrParseURL), w)
        | Some u =>
            if negb (NewRequest_ok env method u)
            then (Returns (inr ErrNewRequest), w)
            else
              let req := mkHttpRequest method u form_urlencoded bodyStr in
              let '(resp, w) := client_Do client req w in
              match resp with
              | None => (Returns (inr ErrDo), w)
              | Some resp =>
                  if close_fails resp then (Exits, w)
                  else (Returns (read_response resp responseType), w)
              end
        end.

Definition list_params (p : Provider) (trimmedZone : string) : string :=
  "appid=" ++ APPID p ++ "&ym=" ++ trimmedZone.

Definition add_params (p : Provider) (trimmedZone : string)
  (record : libdns.Record) : string :=
  "appid=" ++ APPID p ++ "&ym=" ++ trimmedZone
  ++ "&lx=" ++ libdns.Type_ record ++ "&zj=" ++ libdns.Name record
  ++ "&jlz=" ++ libdns.Value record
  ++ "&mx=" ++ format_d (libdns.Weight record)
  ++ "&ttl=" ++ format_seconds env (libdns.TTL record).

Definition edit_params (p : Provider) (trimmedZone : string)
  (record : libdns.Record) (recordId : Z) : string :=
  "appid=" ++ APPID p ++ "&ym=" ++ trimmedZone
  ++ "&lx=" ++ libdns.Type_ record ++ "&zj=" ++ libdns.Name record
  ++ "&jlz=" ++ libdns.Value record
  ++ "&mx=" ++ format_d (libdns.Weight record)
  ++ "&ttl=" ++ format_seconds env (libdns.TTL record)
  ++ "&jxid=" ++ format_d recordId.

Definition delete_params (p : Provider) (trimmedZone recordId : string)
  : string :=
  "appid=" ++ APPID p ++ "&ym=" ++ trimmedZone ++ "&jxid=" ++ recordId.

(** [GetRecords]. *)
Definition GetRecords (p : Provider) (zone : string)
  : L (list libdns.Record + error) :=
  let trimmedZone := libdnsZoneToDnslaDomain zone in
  let params := list_params p trimmedZone in
  r <~ MakeApiRequest "POST" "/api/resolution/list" params (APPKey p)
         zero_ResolutionList ;;
  match r with
  | inr err => lret (inr err)
  | inl response =>
      lret (inl (map (fun rec => toLibdnsRecord rec trimmedZone)
                     (list_Data response)))
  end.

(** The loop of [AppendRecords].  On an error the records appended so
    far are dropped: the empty list is returned. *)
Fixpoint append_loop (p : Provider) (zone : string)
  (records : list libdns.Record)
  (successfullyAppendedRecords : list libdns.Record) : L Outcome :=
  match records with
  | [] => lret (successfullyAppendedRecords, None)
  | record :: rest =>
      let trimmedZone := libdnsZoneToDnslaDomain zone in
      let params := add_params p trimmedZone record in
      r <~ MakeApiRequest "POST" "/api/resolution/add" params (APPKey p)
             zero_AddDomainRecord ;;
      match r with
      | inr err => lret ([], Some err)
      | inl response =>
          let appendedRecord :=
            libdns.mkRecord (format_d (add_Data response))
              (libdns.Type_ record) (libdns.Name record) (libdns.Value record)
              (libdns.TTL record) 0 (libdns.Weight record) in
          append_loop p zone rest
            (successfullyAppendedRecords ++ [appendedRecord])
      end
  end.

Definition AppendRecords (p : Provider) (zone : string)
  (records : list libdns.Record) : L Outcome :=
  append_loop p zone records [].

(** The inner loops of [SetRecords] and [DeleteRecords]: the first listed
    record with the name and the type of [record]. *)
Fixpoint lookup (recs : list libdns.Record) (record : libdns.Record)
  : option libdns.Record :=
  match recs with
  | [] => None
  | rec :: rest =>
      if (libdns.Name rec =? libdns.Name record)%string
         && (libdns.Type_ rec =? libdns.Type_ record)%string
      then Some rec
      else lookup rest record
  end.

(** The outer loop of [SetRecords]. *)
Fixpoint set_loop (p : Provider) (zone : string) (recs : list libdns.Record)
  (records : list libdns.Record)
  (successfullyUpdatedRecords : list libdns.Record) : L Outcome :=
  match records with
  | [] => lret (successfullyUpdatedRecords, None)
  | record :: rest =>
      let trimmedZone := libdnsZoneToDnslaDomain zone in
      match lookup recs record with
      | None =>
          a <~ AppendRecords p zone [record] ;;
          match snd a with
          | Some err => lret (successfullyUpdatedRecords, Some err)
          | None =>
              set_loop p zone recs rest (successfullyUpdatedRecords ++ fst a)
          end
      | Some rec =>
          match Atoi (libdns.ID rec) with
          | None =>
              lret (successfullyUpdatedRecords, Some (ErrAtoi (libdns.ID rec)))
          | Some recordId =>
              let params := edit_params p trimmedZone record recordId in
              r <~ MakeApiRequest "POST" "/api/resolution/edit" params (APPKey p)
                     zero_UpdateDomainRecord ;;
              match r with
              | inr err => lret (successfullyUpdatedRecords, Some err)
              | inl response =>
                  if upd_Code response =? 1 then
                    set_loop p zone recs rest
                      (successfullyUpdatedRecords
                       ++ [libdns.mkRecord (format_d recordId)
                             (libdns.Type_ record) (libdns.Name record)
                             (libdns.Value record) (libdns.TTL record) 0
                             (libdns.Weight record)])
                  else set_loop p zone recs rest successfullyUpdatedRecords
              end
          end
      end
  end.

Definition SetRecords (p : Provider) (zone : string)
  (records : list libdns.Record) : L Outcome :=
  l <~ GetRecords p zone ;;
  match l with
  | inr err => lret ([], Some err)
  | inl recs => set_loop p zone recs records []
  end.

(** The target as the inner loop of [DeleteRecords] leaves it: with the
    ID and the value of the listed record, when there is one. *)
Definition resolved (recs : list libdns.Record) (record : libdns.Record)
  : libdns.Record :=
  match lookup recs record with
  | Some rec =>
      libdns.mkRecord (libdns.ID rec) (libdns.Type_ record)
        (libdns.Name record) (libdns.Value rec) (libdns.TTL record)
        (libdns.Priority record) (libdns.Weight record)
  | None => record
  end.

(** The outer loop of [DeleteRecords]. *)
Fixpoint delete_loop (p : Provider) (zone : string)
  (recs : list libdns.Record) (records : list libdns.Record)
  (successfullyDeletedRecords : list libdns.Record) : L Outcome :=
  match records with
  | [] => lret (successfullyDeletedRecords, None)
  | record :: rest =>
      let trimmedZone := libdnsZoneToDnslaDomain zone in
      let record := resolved recs record in
      let params := delete_params p trimmedZone (libdns.ID record) in
      r <~ MakeApiRequest "POST" "/api/resolution/delete" params (APPKey p)
             zero_DeleteDomainRecord ;;
      match r with
      | inr err => lret (successfullyDeletedRecords, Some err)
      | inl response =>
          if del_Code response =? 1 then
            delete_loop p zone recs rest (successfullyDeletedRecords ++ [record])
          else delete_loop p zone recs rest successfullyDeletedRecords
      end
  end.

Definition DeleteRecords (p : Provider) (zone : string)
  (records : list libdns.Record) : L Outcome :=
  l <~ GetRecords p zone ;;
  match l with
  | inr err => lret ([], Some err)
  | inl recs => delete_loop p zone recs records []
  end.

End Earlier.

End legacy.

(* ================================================================= *)
(** ** The calls of the earlier revision, by name, and examples *)

Definition earlier_add_call (env : Env) (client : Client)
  (close_fails : HttpResponse -> bool) (p : legacy.Provider) (zone : string)
  (record : legacy.libdns.Record)
  : legacy.L (AddDomainRecord + legacy.error) :=
  legacy.MakeApiRequest env client close_fails "POST" "/api/resolution/add"
    (legacy.add_params env p (libdnsZoneToDnslaDomain zone) record)
    (legacy.APPKey p) zero_AddDomainRecord.

Definition earlier_edit_call (env : Env) (client : Client)
  (close_fails : HttpResponse -> bool) (p : legacy.Provider) (zone : string)
  (record : legacy.libdns.Record) (recordId : Z)
  : legacy.L (UpdateDomainRecord + legacy.error) :=
  legacy.MakeApiRequest env client close_fails "POST" "/api/resolution/edit"
    (legacy.edit_params env p (libdnsZoneToDnslaDomain zone) record recordId)
    (legacy.APPKey p) zero_UpdateDomainRecord.

Definition earlier_delete_call (env : Env) (client : Client)
  (close_fails : HttpResponse -> bool) (p : legacy.Provider)
  (zone recordId : string)
  : legacy.L (DeleteDomainRecord + legacy.error) :=
  legacy.MakeApiRequest env client close_fails "POST" "/api/resolution/delete"
    (legacy.delete_params p (libdnsZoneToDnslaDomain zone) recordId)
    (legacy.APPKey p) zero_DeleteDomainRecord.

Definition earlier_list_record (p : legacy.Provider) (zone : string) : ApiCall :=
  mkApiCall "POST" "/api/resolution/list"
    (legacy.list_params p (libdnsZoneToDnslaDomain zone)).

Definition earlier_add_record (env : Env) (p : legacy.Provider)
  (zone : string) (record : legacy.libdns.Record) : ApiCall :=
  mkApiCall "POST" "/api/resolution/add"
    (legacy.add_params env p (libdnsZoneToDnslaDomain zone) record).

Definition earlier_delete_record (p : legacy.Provider) (zone : string)
  (recs : list legacy.libdns.Record) (record : legacy.libdns.Record)
  : ApiCall :=
  mkApiCall "POST" "/api/resolution/delete"
    (legacy.delete_params p (libdnsZoneToDnslaDomain zone)
       (legacy.libdns.ID (legacy.resolved recs record))).

(** What the earlier [AppendRecords] and [SetRecords] keep of a record
    they report: everything but the ID and the priority. *)
Definition kept (out inp : legacy.libdns.Record) : Prop :=
  legacy.libdns.Name out = legacy.libdns.Name inp
  /\ legacy.libdns.Type_ out = legacy.libdns.Type_ inp
  /\ legacy.libdns.Value out = legacy.libdns.Value inp
  /\ legacy.libdns.TTL out = legacy.libdns.TTL inp
  /\ legacy.libdns.Weight out = legacy.libdns.Weight inp
  /\ legacy.libdns.Priority out = 0.


Definition earlier_provider : legacy.Provider := legacy.mkProvider "app" "key".

Definition closes : HttpResponse -> bool := fun _ => false.

Definition earlier_www (id data : string) (seconds : Z) : legacy.libdns.Record :=
  legacy.libdns.mkRecord id "A" "www" data (seconds * Second) 0 0.

Definition earlier_mail : legacy.libdns.Record :=
  legacy.libdns.mkRecord "" "MX" "mail" "mx.example.com" (300 * Second) 10 0.
Example md5_empty :
  format_x (md5.Sum (bytes_of "")) = "d41d8cd98f00b204e9800998ecf8427e".
Proof. vm_compute. reflexivity. Qed.

Example md5_abc :
  format_x (md5.Sum (bytes_of "abc")) = "900150983cd24fb0d6963f7d28e17f72".
Proof. vm_compute. reflexivity. Qed.

Example md5_two_blocks :
  format_x (md5.Sum (bytes_of
    "aaaaaaaaaaaaaaaaaaaaaaaaaaaaaaaaaaaaaaaaaaaaaaaaaaaaaaaaaaaaaaaaaaaaaaaaaaaaaaaa"))
  = "b15af9cdabbaea0516866a33d8fd0f98".
Proof. vm_compute. reflexivity. Qed.

Example format_d_ex : format_d 1700000000 = "1700000000" /\ format_d (-42) = "-42" /\ format_d 0 = "0".
Proof. vm_compute. auto. Qed.

Example list_www :
  fst (GetRecords plain_env www_provider "example.com." w0)
  = inl [OfRR (libdns.mkRR "www" (600 * Second) "A" "1.1.1.1")].
Proof. vm_compute. reflexivity. Qed.

Example list_www_request :
  wire (snd (GetRecords plain_env www_provider "example.com." w0))
  = [mkHttpRequest "POST" list_url "application/x-www-form-urlencoded"
       "appid=app&gntime=1700000000&ym=example.com&gntoken=6E9EF4088BE6CE2999C17E783C90E241"].
Proof. vm_compute. reflexivity. Qed.

(* ================================================================= *)
(** ** Zone normalisation *)

Lemma append_assoc (a b c : string) : (a ++ b) ++ c = a ++ (b ++ c).
Proof. induction a as [|x a IH]; simpl; congruence. Qed.















(* ================================================================= *)
(** ** The record mapper *)

Lemma wrap64_small (z : Z) : int64_min <= z <= int64_max -> wrap64 z = z.
Proof.
  unfold wrap64, int64_min, int64_max. intros H.
  rewrite Z.mod_small by lia. lia.
Qed.


(** Whatever the TTL field holds, the mapper yields one of two things. *)
Lemma toLibdnsRecord_ttl (record : DomainResolutionRecord) (zone : string) :
  libdns.TTL (toLibdnsRecord record zone)
  = match Atoi (TTL record) with
    | Some n => if 0 <? n then wrap64 (n * Second) else 600 * Second
    | None => 600 * Second
    end.
Proof.
  unfold toLibdnsRecord. simpl.
  destruct (String.eqb_spec (TTL record) "") as [E|_].
  - rewrite E. reflexivity.
  - destruct (Atoi (TTL record)) as [n|]; [destruct (0 <? n)|]; reflexivity.
Qed.

(** C8 (as amended). Name, type and value pass through verbatim.  The TTL
    is the vendor's number of seconds when the field parses to a positive
    integer of at most 9223372036, the most a 64-bit count of nanoseconds
    can hold, and 600 seconds when the field is empty, does not parse, or
    parses to zero or less. *)
Theorem C8_mapper_preserves_fields_and_defaults_ttl :
  forall (record : DomainResolutionRecord) (zone : string),
    libdns.Name (toLibdnsRecord record zone) = Zjt record
    /\ libdns.Type_ (toLibdnsRecord record zone) = Lx record
    /\ libdns.Data (toLibdnsRecord record zone) = Jxz record
    /\ (forall n, Atoi (TTL record) = Some n -> 0 < n <= 9223372036 ->
                  libdns.TTL (toLibdnsRecord record zone) = n * Second)
    /\ (TTL record = ""
        \/ Atoi (TTL record) = None
        \/ (exists n, Atoi (TTL record) = Some n /\ n <= 0) ->
        libdns.TTL (toLibdnsRecord record zone) = 600 * Second).
Proof.
  intros record zone. repeat split.
  - intros n E Hn. rewrite toLibdnsRecord_ttl, E.
    destruct (Z.ltb_spec 0 n); [|lia].
    apply wrap64_small. unfold int64_min, int64_max, Second. lia.
  - rewrite toLibdnsRecord_ttl.
    intros [E | [E | (n & E & Hn)]].
    + rewrite E. reflexivity.
    + rewrite E. reflexivity.
    + rewrite E. destruct (Z.ltb_spec 0 n); [lia | reflexivity].
Qed.

Lemma C8_witness :
  libdns.TTL (toLibdnsRecord (vendor_www "1" "300") "example.com") = 300 * Second
  /\ libdns.TTL (toLibdnsRecord (vendor_www "1" "soon") "example.com") = 600 * Second.
Proof.
  split.
  - apply (proj1 (proj2 (proj2 (proj2
             (C8_mapper_preserves_fields_and_defaults_ttl
                (vendor_www "1" "300") "example.com")))) 300);
      [reflexivity | lia].
  - apply (proj2 (proj2 (proj2 (proj2
             (C8_mapper_preserves_fields_and_defaults_ttl
                (vendor_www "1" "soon") "example.com"))))).
    right; left; reflexivity.
Defined.

(** A TTL field that parses to a positive integer and yet is not the TTL
    of the mapped record: the product with [time.Second] overflows. *)
Lemma C8_large_ttl_wraps :
  Atoi (TTL (vendor_www "1" "9223372037")) = Some 9223372037
  /\ 0 < 9223372037
  /\ libdns.TTL (toLibdnsRecord (vendor_www "1" "9223372037") "example.com")
     = -9223372036709551616
  /\ libdns.TTL (toLibdnsRecord (vendor_www "1" "9223372037") "example.com")
     <> 9223372037 * Second.
Proof. vm_compute. repeat split; discriminate. Qed.

Example Atoi_examples :
  Atoi "600" = Some 600 /\ Atoi "+7" = Some 7 /\ Atoi "-3" = Some (-3)
  /\ Atoi "" = None /\ Atoi "-" = None /\ Atoi "1h" = None /\ Atoi " 5" = None
  /\ Atoi "9223372036854775807" = Some 9223372036854775807
  /\ Atoi "9223372036854775808" = None
  /\ Atoi "-9223372036854775808" = Some (-9223372036854775808).
Proof. vm_compute. repeat split. Qed.

(* ================================================================= *)
(** ** The signer *)

Lemma insert_perm (p : string * string) (l : list (string * string)) :
  Permutation (p :: l) (gojoin.insert p l).
Proof.
  induction l as [|q r IH]; simpl; [constructor; constructor|].
  destruct (gojoin.key_leb p q); [apply Permutation_refl|].
  eapply Permutation_trans; [apply perm_swap|]. now constructor.
Qed.

Lemma sort_perm (l : list (string * string)) : Permutation l (gojoin.sort l).
Proof.
  induction l as [|p l IH]; simpl; [constructor|].
  eapply Permutation_trans; [|apply insert_perm]. now constructor.
Qed.

Lemma key_leb_total (a b : string * string) :
  gojoin.key_leb a b = false -> gojoin.key_leb b a = true.
Proof.
  unfold gojoin.key_leb. intros H.
  destruct (String.leb_total (fst a) (fst b)); congruence.
Qed.

Lemma insert_sorted (p : string * string) (l : list (string * string)) :
  Sorted key_le l -> Sorted key_le (gojoin.insert p l).
Proof.
  induction 1 as [|q r Hs IH Hd]; simpl; [repeat constructor|].
  destruct (gojoin.key_leb p q) eqn:E.
  - repeat constructor; assumption.
  - constructor; [exact IH|].
    destruct r as [|q' r']; simpl.
    + constructor. now apply key_leb_total.
    + destruct (gojoin.key_leb p q'); constructor.
      * now apply key_leb_total.
      * now inversion Hd.
Qed.

Lemma sort_sorted (l : list (string * string)) : Sorted key_le (gojoin.sort l).
Proof.
  induction l as [|p l IH]; simpl; [constructor | now apply insert_sorted].
Qed.

Lemma fields_nonempty (sep : ascii) (s : string) : gojoin.fields sep s <> [].
Proof.
  destruct s as [|c r]; simpl; [discriminate|].
  destruct (c =? sep)%char; [discriminate|].
  destruct (gojoin.fields sep r); discriminate.
Qed.

(** Splitting at a separator splits the fields. *)
Lemma fields_app (sep : ascii) (y t : string) :
  gojoin.fields sep (y ++ String sep t)
  = (gojoin.fields sep y ++ gojoin.fields sep t)%list.
Proof.
  induction y as [|c y IH]; simpl.
  - now rewrite Ascii.eqb_refl.
  - destruct (c =? sep)%char; [now rewrite IH|].
    rewrite IH. pose proof (fields_nonempty sep y) as Hne.
    destruct (gojoin.fields sep y); [congruence | reflexivity].
Qed.

Lemma fields_single (sep : ascii) (t : string) :
  occurs sep t = false -> gojoin.fields sep t = [t].
Proof.
  induction t as [|c t IH]; simpl; [reflexivity|].
  intros H. apply orb_false_iff in H as [Hc Ht].
  rewrite Hc, (IH Ht). reflexivity.
Qed.

Lemma cut_app (c : ascii) (s1 s2 : string) :
  exists a b, gojoin.cut c (s1 ++ String c s2) = (a, Some (b ++ s2)).
Proof.
  induction s1 as [|x s1 (a & b & IH)]; simpl.
  - rewrite Ascii.eqb_refl. now exists "", "".
  - destruct (x =? c)%char.
    + exists "", (s1 ++ String c ""). now rewrite append_assoc.
    + rewrite IH. now exists (String x a), b.
Qed.

Lemma digit_char_no_amp (d : Z) :
  0 <= d < 10 -> (digit_char d =? "&")%char = false.
Proof.
  intros H.
  assert (d = 0 \/ d = 1 \/ d = 2 \/ d = 3 \/ d = 4 \/ d = 5 \/ d = 6
          \/ d = 7 \/ d = 8 \/ d = 9) as C by lia.
  repeat (destruct C as [-> | C]; [reflexivity|]). now subst.
Qed.

Lemma decimal_digits_no_amp (fuel : nat) (n : Z) (acc : string) :
  0 <= n -> occurs "&" acc = false ->
  occurs "&" (decimal_digits fuel n acc) = false.
Proof.
  revert n acc. induction fuel as [|fuel IH]; intros n acc Hn Hacc; simpl; auto.
  destruct (Z.ltb_spec n 10).
  - simpl. rewrite digit_char_no_amp by lia. exact Hacc.
  - apply IH; [apply Z.div_pos; lia|].
    simpl. rewrite digit_char_no_amp; [exact Hacc|].
    apply Z.mod_pos_bound. lia.
Qed.

Lemma format_d_no_amp (z : Z) : occurs "&" (format_d z) = false.
Proof.
  unfold format_d. destruct (Z.ltb_spec z 0).
  - cbn [occurs]. rewrite decimal_digits_no_amp; [reflexivity | lia | reflexivity].
  - apply decimal_digits_no_amp; [lia | reflexivity].
Qed.

(** The timestamp is among the parameters that are signed, whatever the
    endpoint and the other parameters are. *)
Lemma gntime_is_signed (base endpoint params : string) (unix : Z) :
  In ("gntime", format_d unix)
     (gojoin.params_of
        (base ++ endpoint ++ "?" ++ params ++ "&gntime=" ++ format_d unix)).
Proof.
  unfold gojoin.params_of.
  replace (base ++ endpoint ++ "?" ++ params ++ "&gntime=" ++ format_d unix)
    with ((base ++ endpoint)
          ++ String "?" (params ++ "&gntime=" ++ format_d unix))
    by (now rewrite append_assoc).
  destruct (cut_app "?" (base ++ endpoint)
              (params ++ "&gntime=" ++ format_d unix)) as (a & b & E).
  rewrite E. cbn [snd]. rewrite <- (append_assoc b params).
  change ("&gntime=" ++ format_d unix)
    with (String "&" ("gntime=" ++ format_d unix)).
  rewrite fields_app, filter_app, map_app. apply in_or_app. right.
  rewrite fields_single by (simpl; apply format_d_no_amp).
  simpl. left. reflexivity.
Qed.

Lemma le_bytes_range (n : nat) (z : Z) :
  Forall (fun b => 0 <= b < 256) (md5.le_bytes n z).
Proof.
  unfold md5.le_bytes. apply Forall_forall. intros b Hb.
  apply in_map_iff in Hb as (i & <- & _). apply Z.mod_pos_bound. lia.
Qed.

Lemma le_bytes_length (n : nat) (z : Z) : List.length (md5.le_bytes n z) = n.
Proof. unfold md5.le_bytes. now rewrite length_map, length_seq. Qed.

(** A digest is sixteen bytes. *)
Lemma Sum_shape (msg : list Z) :
  List.length (md5.Sum msg) = 16%nat
  /\ Forall (fun b => 0 <= b < 256) (md5.Sum msg).
Proof.
  unfold md5.Sum.
  destruct (md5.blocks _ md5.init (md5.pad msg)) as [[[a b] c] d].
  split.
  - rewrite !length_app, !le_bytes_length. reflexivity.
  - repeat (apply Forall_app; split); apply le_bytes_range.
Qed.

Lemma upper_hex_digit (d : Z) :
  0 <= d < 16 -> is_upper_hex (upper_char (hex_char false d)) = true.
Proof.
  intros H.
  assert (d = 0 \/ d = 1 \/ d = 2 \/ d = 3 \/ d = 4 \/ d = 5 \/ d = 6
          \/ d = 7 \/ d = 8 \/ d = 9 \/ d = 10 \/ d = 11 \/ d = 12
          \/ d = 13 \/ d = 14 \/ d = 15) as C by lia.
  repeat (destruct C as [-> | C]; [reflexivity|]). now subst.
Qed.

Lemma upper_hex_string (bs : list Z) :
  Forall (fun b => 0 <= b < 256) bs ->
  all_bytes is_upper_hex (ToUpper (format_x bs)) = true
  /\ String.length (ToUpper (format_x bs)) = (2 * List.length bs)%nat.
Proof.
  induction 1 as [|b bs Hb _ [IH1 IH2]]; [split; reflexivity|].
  unfold format_x in *. cbn [fold_right hex_byte ToUpper all_bytes String.length List.length].
  rewrite IH1, IH2, !upper_hex_digit.
  - split; [reflexivity | lia].
  - apply Z.mod_pos_bound. lia.
  - split; [apply Z.div_pos; lia | apply Z.div_lt_upper_bound; lia].
Qed.

(** The token is thirty-two upper-case hexadecimal digits. *)
Lemma gn_token_shape (sortedParams appKey : string) :
  String.length (gn_token sortedParams appKey) = 32%nat
  /\ all_bytes is_upper_hex (gn_token sortedParams appKey) = true.
Proof.
  unfold gn_token.
  destruct (Sum_shape (bytes_of (sortedParams ++ appKey))) as [L R].
  destruct (upper_hex_string _ R) as [H1 H2].
  rewrite H2, L. split; [reflexivity | exact H1].
Qed.

(* ================================================================= *)
(** ** The transport *)

(** What one invocation of [MakeApiRequestWithClient] does to the world
    and what it returns: the invocation is recorded; then either nothing
    is sent, or exactly one request, whose answer decides the result. *)
Lemma MakeApiRequestWithClient_cases (env : Env) {T : Type} `{Unmarshal T}
  (client : Client) (method endpoint params appKey : string)
  (responseType : T) (w : World) :
  let r := MakeApiRequestWithClient env client method endpoint params appKey
             responseType w in
  calls (snd r) = (calls w ++ [mkApiCall method endpoint params])%list
  /\ ((wire (snd r) = wire w
       /\ (fst r = inr ErrLoadTimezone \/ fst r = inr ErrJoinParameters
           \/ fst r = inr ErrParseURL \/ fst r = inr ErrCreateRequest))
      \/ exists u,
           let req := mkHttpRequest method u form_urlencoded
                        (body_str endpoint params (Now env (clock w)) appKey) in
           LoadLocation env = true
           /\ url_Parse env (ApiBase ++ endpoint) = Some u
           /\ wire (snd r) = (wire w ++ [req])%list
           /\ fst r = match client (wire w) req with
                      | None => inr ErrExecuteRequest
                      | Some resp => read_response resp responseType
                      end).
Proof.
  unfold MakeApiRequestWithClient, bind, log_call, time_Now, client_Do, ret.
  cbn [clock calls wire].
  destruct (LoadLocation env); cbn [negb].
  2:{ cbn. split; [reflexivity | left; auto]. }
  destruct (join_fails env _).
  1:{ cbn. split; [reflexivity | left; auto]. }
  destruct (url_Parse env (ApiBase ++ endpoint)) as [u|].
  2:{ cbn. split; [reflexivity | left; auto 6]. }
  destruct (NewRequest_ok env method u); cbn [negb].
  2:{ cbn. split; [reflexivity | left; auto 6]. }
  cbn [clock calls wire].
  match goal with
  | |- context [client (wire w) ?q] => destruct (client (wire w) q) eqn:E
  end.
  - cbn [fst snd calls wire]. split; [reflexivity|]. right. exists u.
    cbv zeta. rewrite E. auto.
  - cbn [fst snd calls wire]. split; [reflexivity|]. right. exists u.
    cbv zeta. rewrite E. auto.
Qed.

(** C5. Whenever [MakeApiRequestWithClient] hands a request to the client,
    its body is the sorted parameter string, then [&gntoken=], then the
    signature.  The sorted parameter string joins with [&] the pairs
    key [=] URL-encoded value of the request parameters, the timestamp
    [gntime] among them, rearranged so that the keys ascend in byte order.
    The signature is the upper-case hexadecimal MD5 digest (thirty-two
    digits) of the sorted parameter string followed by the secret. *)
Theorem C5_signed_body (env : Env) {T : Type} `{Unmarshal T}
  (client : Client) (method endpoint params appKey : string)
  (responseType : T) (w : World) :
  let unix := Now env (clock w) in
  let parameters :=
    gojoin.params_of
      (ApiBase ++ endpoint ++ "?" ++ params ++ "&gntime=" ++ format_d unix) in
  let sortedParams := sorted_params endpoint params unix in
  let signature := gn_token sortedParams appKey in
  let w' := snd (MakeApiRequestWithClient env client method endpoint params
                   appKey responseType w) in
  (wire w' = wire w
   \/ exists u, wire w' = (wire w ++ [mkHttpRequest method u form_urlencoded
                                       (sortedParams ++ "&gntoken=" ++ signature)])%list)
  /\ In ("gntime", format_d unix) parameters
  /\ Permutation parameters (gojoin.sort parameters)
  /\ Sorted key_le (gojoin.sort parameters)
  /\ sortedParams
     = gojoin.join_with "&"
         (map (fun kv => fst kv ++ "=" ++ url.QueryEscape (snd kv))
              (gojoin.sort parameters))
  /\ signature = ToUpper (format_x (md5.Sum (bytes_of (sortedParams ++ appKey))))
  /\ String.length signature = 32%nat
  /\ all_bytes is_upper_hex signature = true.
Proof.
  intros unix parameters sortedParams signature w'.
  split; [|split; [|split; [|split; [|split; [|split]]]]].
  - destruct (MakeApiRequestWithClient_cases env client method endpoint params
                appKey responseType w) as [_ [[Hw _] | (u & _ & _ & Hw & _)]].
    + left. exact Hw.
    + right. exists u. exact Hw.
  - apply gntime_is_signed.
  - apply sort_perm.
  - apply sort_sorted.
  - reflexivity.
  - reflexivity.
  - apply gn_token_shape.
Qed.

Example sorted_params_example :
  sorted_params "/api/resolution/add"
    "appid=app&ym=example.com&lx=TXT&zj=_acme-challenge&jlz=a b/c&ttl=120"
    1700000000
  = "appid=app&gntime=1700000000&jlz=a+b%2Fc&lx=TXT&ttl=120&ym=example.com&zj=_acme-challenge".
Proof. vm_compute. reflexivity. Qed.

Lemma MakeApiRequestWithClient_receives (env : Env) {T : Type} `{Unmarshal T}
  (client : Client) (method endpoint params appKey : string)
  (responseType : T) (w : World) (resp : HttpResponse) :
  receives env client method endpoint params appKey w resp ->
  fst (MakeApiRequestWithClient env client method endpoint params appKey
         responseType w)
  = read_response resp responseType.
Proof.
  intros (Htz & Hj & u & Hu & Hn & Hc).
  unfold MakeApiRequestWithClient, bind, log_call, time_Now, client_Do, ret.
  rewrite Htz. cbn [negb clock calls wire].
  rewrite Hj, Hu, Hn. cbn [negb clock calls wire fst]. rewrite Hc. reflexivity.
Qed.

(* ================================================================= *)
(** ** The reconciler: one iteration of each loop *)

Lemma RR_eta (rr : libdns.RR) :
  libdns.mkRR (libdns.Name rr) (libdns.TTL rr) (libdns.Type_ rr) (libdns.Data rr)
  = rr.
Proof. now destruct rr. Qed.

Lemma append_loop_step (env : Env) (p : Provider) (zone : string)
  (record : Record) (rest acc : list Record) (w : World) :
  append_loop env p zone (record :: rest) acc w
  = match add_call env p zone record w with
    | (inr err, w1) =>
        ((acc, Some (ErrAppendRecord (libdns.Name (RR record)) zone err)), w1)
    | (inl _, w1) => append_loop env p zone rest (acc ++ [OfRR (RR record)]) w1
    end.
Proof.
  cbn [append_loop]. unfold bind, add_call, add_endpoint. rewrite RR_eta.
  destruct (MakeApiRequestWithClient _ _ _ _ _ _ _ w) as [[r|e] w1]; reflexivity.
Qed.

(** A record whose name and type are not listed is created. *)
Lemma set_loop_create (env : Env) (p : Provider) (zone : string)
  (recs : list Record) (record : Record) (rest acc : list Record) (w : World) :
  fst (scan recs (RR record)) = false ->
  set_loop env p zone recs (record :: rest) acc w
  = match add_call env p zone record w with
    | (inr err, w1) =>
        ((acc, Some (ErrCreateNew
                       (ErrAppendRecord (libdns.Name (RR record)) zone err))), w1)
    | (inl _, w1) =>
        set_loop env p zone recs rest (acc ++ [OfRR (RR record)]) w1
    end.
Proof.
  intros Hs. cbn [set_loop]. destruct (scan recs (RR record)) as [has id].
  cbn [fst] in Hs. subst has. cbn [negb]. unfold bind, AppendRecords.
  rewrite append_loop_step.
  destruct (add_call env p zone record w) as [[r|e] w1]; reflexivity.
Qed.

(** A record that is listed without a vendor ID is passed over. *)
Lemma set_loop_skip (env : Env) (p : Provider) (zone : string)
  (recs : list Record) (record : Record) (rest acc : list Record) (w : World) :
  scan recs (RR record) = (true, "") ->
  set_loop env p zone recs (record :: rest) acc w
  = set_loop env p zone recs rest acc w.
Proof. intros Hs. cbn [set_loop]. rewrite Hs. reflexivity. Qed.

(** A record that is listed with a vendor ID is edited. *)
Lemma set_loop_edit (env : Env) (p : Provider) (zone : string)
  (recs : list Record) (record : Record) (rest acc : list Record) (w : World)
  (recordId : string) :
  scan recs (RR record) = (true, recordId) -> recordId <> "" ->
  set_loop env p zone recs (record :: rest) acc w
  = match edit_call env p zone record recordId w with
    | (inr err, w1) =>
        ((acc, Some (ErrUpdateRecord (libdns.Name (RR record)) zone err)), w1)
    | (inl response, w1) =>
        if upd_Code response =? 1
        then set_loop env p zone recs rest (acc ++ [OfRR (RR record)]) w1
        else set_loop env p zone recs rest acc w1
    end.
Proof.
  intros Hs Hid. cbn [set_loop]. rewrite Hs. cbn [negb].
  destruct (String.eqb_spec recordId ""); [contradiction|].
  unfold bind, edit_call, edit_endpoint. rewrite RR_eta.
  destruct (MakeApiRequestWithClient _ _ _ _ _ _ _ w) as [[r|e] w1];
    [destruct (upd_Code r =? 1)|]; reflexivity.
Qed.

Lemma delete_loop_skip (env : Env) (p : Provider) (zone : string)
  (recs : list Record) (record : Record) (rest acc : list Record) (w : World) :
  snd (scan recs (RR record)) = "" ->
  delete_loop env p zone recs (record :: rest) acc w
  = delete_loop env p zone recs rest acc w.
Proof. intros Hs. cbn [delete_loop]. rewrite Hs. reflexivity. Qed.

Lemma delete_loop_call (env : Env) (p : Provider) (zone : string)
  (recs : list Record) (record : Record) (rest acc : list Record) (w : World) :
  snd (scan recs (RR record)) <> "" ->
  delete_loop env p zone recs (record :: rest) acc w
  = match delete_call env p zone (snd (scan recs (RR record))) w with
    | (inr err, w1) =>
        ((acc, Some (ErrDeleteRecord (libdns.Name (RR record)) zone err)), w1)
    | (inl response, w1) =>
        if del_Code response =? 1
        then delete_loop env p zone recs rest (acc ++ [OfRR (RR record)]) w1
        else delete_loop env p zone recs rest acc w1
    end.
Proof.
  intros Hid. cbn [delete_loop].
  destruct (String.eqb_spec (snd (scan recs (RR record))) ""); [contradiction|].
  unfold bind, delete_call, delete_endpoint.
  destruct (MakeApiRequestWithClient _ _ _ _ _ _ _ w) as [[r|e] w1];
    [destruct (del_Code r =? 1)|]; reflexivity.
Qed.

(** No match, no ID. *)
Lemma scan_unmatched (recs : list Record) (rr : libdns.RR) :
  fst (scan recs rr) = false -> snd (scan recs rr) = "".
Proof.
  induction recs as [|rec recs IH]; cbn [scan]; [reflexivity|].
  destruct (_ && _); [discriminate | exact IH].
Qed.

(* ================================================================= *)
(** ** The reconciler: batches *)

(** Each loop runs through a batch front to back: the second part of a
    batch is processed from where the first part ends, unless the first
    part ends in an error. *)
Lemma append_loop_app (env : Env) (p : Provider) (zone : string)
  (pre post : list Record) :
  forall acc w,
    append_loop env p zone (pre ++ post) acc w
    = match append_loop env p zone pre acc w with
      | ((l, None), w1) => append_loop env p zone post l w1
      | ((l, Some e), w1) => ((l, Some e), w1)
      end.
Proof.
  induction pre as [|r pre IH]; intros acc w; [reflexivity|].
  rewrite <- app_comm_cons, !append_loop_step.
  destruct (add_call env p zone r w) as [[a|e] w1]; [apply IH | reflexivity].
Qed.

Lemma set_loop_app (env : Env) (p : Provider) (zone : string)
  (recs pre post : list Record) :
  forall acc w,
    set_loop env p zone recs (pre ++ post) acc w
    = match set_loop env p zone recs pre acc w with
      | ((l, None), w1) => set_loop env p zone recs post l w1
      | ((l, Some e), w1) => ((l, Some e), w1)
      end.
Proof.
  induction pre as [|r pre IH]; intros acc w; [reflexivity|].
  rewrite <- app_comm_cons.
  destruct (scan recs (RR r)) as [[|] id] eqn:Hs.
  - destruct (String.eqb_spec id "") as [->|Hid].
    + rewrite !set_loop_skip by assumption. apply IH.
    + rewrite !(set_loop_edit _ _ _ _ _ _ _ _ _ Hs Hid).
      destruct (edit_call env p zone r id w) as [[resp|e] w1]; [|reflexivity].
      destruct (upd_Code resp =? 1); apply IH.
  - rewrite !set_loop_create by (rewrite Hs; reflexivity).
    destruct (add_call env p zone r w) as [[a|e] w1]; [apply IH | reflexivity].
Qed.

Lemma delete_loop_app (env : Env) (p : Provider) (zone : string)
  (recs pre post : list Record) :
  forall acc w,
    delete_loop env p zone recs (pre ++ post) acc w
    = match delete_loop env p zone recs pre acc w with
      | ((l, None), w1) => delete_loop env p zone recs post l w1
      | ((l, Some e), w1) => ((l, Some e), w1)
      end.
Proof.
  induction pre as [|r pre IH]; intros acc w; [reflexivity|].
  rewrite <- app_comm_cons.
  destruct (String.eqb_spec (snd (scan recs (RR r))) "") as [Hid|Hid].
  - rewrite !delete_loop_skip by assumption. apply IH.
  - rewrite !(delete_loop_call _ _ _ _ _ _ _ _ Hid).
    destruct (delete_call env p zone _ w) as [[resp|e] w1]; [|reflexivity].
    destruct (del_Code resp =? 1); apply IH.
Qed.

(** A record whose processing ends in an error adds nothing to the list. *)
Lemma append_loop_failure (env : Env) (p : Provider) (zone : string)
  (record : Record) (acc l : list Record) (e : error) (w w' : World) :
  append_loop env p zone [record] acc w = ((l, Some e), w') -> l = acc.
Proof.
  rewrite append_loop_step.
  destruct (add_call env p zone record w) as [[a|err] w1]; cbn; unfold ret; congruence.
Qed.

Lemma set_loop_failure (env : Env) (p : Provider) (zone : string)
  (recs : list Record) (record : Record) (acc l : list Record) (e : error)
  (w w' : World) :
  set_loop env p zone recs [record] acc w = ((l, Some e), w') -> l = acc.
Proof.
  destruct (scan recs (RR record)) as [[|] id] eqn:Hs.
  - destruct (String.eqb_spec id "") as [->|Hid].
    + rewrite set_loop_skip by assumption. cbn. unfold ret. congruence.
    + rewrite (set_loop_edit _ _ _ _ _ _ _ _ _ Hs Hid).
      destruct (edit_call env p zone record id w) as [[resp|err] w1];
        [destruct (upd_Code resp =? 1)|]; cbn; unfold ret; congruence.
  - rewrite set_loop_create by (rewrite Hs; reflexivity).
    destruct (add_call env p zone record w) as [[a|err] w1]; cbn; unfold ret; congruence.
Qed.

Lemma delete_loop_failure (env : Env) (p : Provider) (zone : string)
  (recs : list Record) (record : Record) (acc l : list Record) (e : error)
  (w w' : World) :
  delete_loop env p zone recs [record] acc w = ((l, Some e), w') -> l = acc.
Proof.
  destruct (String.eqb_spec (snd (scan recs (RR record))) "") as [Hid|Hid].
  - rewrite delete_loop_skip by assumption. cbn. unfold ret. congruence.
  - rewrite (delete_loop_call _ _ _ _ _ _ _ _ Hid).
    destruct (delete_call env p zone _ w) as [[resp|err] w1];
      [destruct (del_Code resp =? 1)|]; cbn; unfold ret; congruence.
Qed.

(** [SetRecords] and [DeleteRecords] list once and then run their loop. *)
Lemma SetRecords_unfold (env : Env) (p : Provider) (zone : string)
  (records : list Record) (w : World) :
  SetRecords env p zone records w
  = match GetRecords env p zone w with
    | (inr err, w0) => (([], Some (ErrGetExisting err)), w0)
    | (inl recs, w0) => set_loop env p zone recs records [] w0
    end.
Proof.
  unfold SetRecords, bind.
  destruct (GetRecords env p zone w) as [[recs|e] w0]; reflexivity.
Qed.

Lemma DeleteRecords_unfold (env : Env) (p : Provider) (zone : string)
  (records : list Record) (w : World) :
  DeleteRecords env p zone records w
  = match GetRecords env p zone w with
    | (inr err, w0) => (([], Some (ErrGetExisting err)), w0)
    | (inl recs, w0) => delete_loop env p zone recs records [] w0
    end.
Proof.
  unfold DeleteRecords, bind.
  destruct (GetRecords env p zone w) as [[recs|e] w0]; reflexivity.
Qed.

(* ================================================================= *)
(** ** The reconciler: which calls are issued *)

Lemma call_recorded (env : Env) {T : Type} `{Unmarshal T} (client : Client)
  (method endpoint params appKey : string) (responseType : T) (w : World) :
  calls (snd (MakeApiRequestWithClient env client method endpoint params appKey
                responseType w))
  = (calls w ++ [mkApiCall method endpoint params])%list.
Proof.
  apply (MakeApiRequestWithClient_cases env client method endpoint params
           appKey responseType w).
Qed.

Lemma add_call_recorded (env : Env) (p : Provider) (zone : string)
  (record : Record) (w : World) :
  calls (snd (add_call env p zone record w))
  = (calls w ++ [add_record env p zone record])%list.
Proof. apply call_recorded. Qed.

Lemma edit_call_recorded (env : Env) (p : Provider) (zone : string)
  (record : Record) (recordId : string) (w : World) :
  calls (snd (edit_call env p zone record recordId w))
  = (calls w ++ [edit_record env p zone record recordId])%list.
Proof. apply call_recorded. Qed.

Lemma delete_call_recorded (env : Env) (p : Provider) (zone recordId : string)
  (w : World) :
  calls (snd (delete_call env p zone recordId w))
  = (calls w ++ [delete_record p zone recordId])%list.
Proof. apply call_recorded. Qed.

(** [GetRecords] is one list call, and what it returns holds values of
    dynamic type [libdns.RR] only: the vendor ID is not carried over. *)
Lemma GetRecords_recorded (env : Env) (p : Provider) (zone : string) (w : World) :
  calls (snd (GetRecords env p zone w)) = (calls w ++ [list_record p zone])%list.
Proof.
  unfold GetRecords, bind.
  pose proof (call_recorded env (getHTTPClient env p) "POST"
                "/api/resolution/list"
                (list_params p (libdnsZoneToDnslaDomain zone)) (APPKey p)
                zero_ResolutionList w) as Hc.
  destruct (MakeApiRequestWithClient _ _ _ _ _ _ _ w) as [[r|e] w1];
    exact Hc.
Qed.

Lemma GetRecords_plain (env : Env) (p : Provider) (zone : string)
  (w w0 : World) (recs : list Record) :
  GetRecords env p zone w = (inl recs, w0) -> plain_listing recs.
Proof.
  unfold GetRecords, bind.
  destruct (MakeApiRequestWithClient _ _ _ _ _ _ _ w) as [[r|e] w1];
    unfold ret; intros E; inversion E; subst.
  unfold plain_listing. apply Forall_forall. intros rec Hin.
  apply in_map_iff in Hin as (d & <- & _). now eexists.
Qed.

(** In such a listing no vendor ID is ever found. *)
Lemma scan_plain (recs : list Record) (rr : libdns.RR) :
  plain_listing recs -> snd (scan recs rr) = "".
Proof.
  induction 1 as [|rec recs (rr' & ->) _ IH]; cbn [scan]; [reflexivity|].
  destruct (_ && _); [reflexivity | exact IH].
Qed.

(** The calls of the loops. *)
Lemma append_loop_calls (env : Env) (p : Provider) (zone : string)
  (records : list Record) :
  forall acc w, exists more,
    calls (snd (append_loop env p zone records acc w)) = (calls w ++ more)%list
    /\ Forall (to_endpoint add_endpoint) more.
Proof.
  induction records as [|r records IH]; intros acc w.
  - exists []. cbn. now rewrite app_nil_r.
  - rewrite append_loop_step. pose proof (add_call_recorded env p zone r w) as Hc.
    destruct (add_call env p zone r w) as [[a|e] w1]; cbn [snd] in *.
    + destruct (IH (acc ++ [OfRR (RR r)])%list w1) as (more & Hm & Hf).
      exists (add_record env p zone r :: more). rewrite Hm, Hc, <- app_assoc.
      split; [reflexivity | constructor; [reflexivity | exact Hf]].
    + exists [add_record env p zone r].
      split; [exact Hc | repeat constructor].
Qed.

Lemma set_loop_calls (env : Env) (p : Provider) (zone : string)
  (recs records : list Record) :
  forall acc w, exists more,
    calls (snd (set_loop env p zone recs records acc w)) = (calls w ++ more)%list
    /\ Forall (fun c => to_endpoint add_endpoint c
                        \/ (to_endpoint edit_endpoint c /\ ~ plain_listing recs))
              more.
Proof.
  induction records as [|r records IH]; intros acc w.
  - exists []. cbn. now rewrite app_nil_r.
  - destruct (scan recs (RR r)) as [[|] id] eqn:Hs.
    + destruct (String.eqb_spec id "") as [->|Hid].
      * rewrite set_loop_skip by assumption. apply IH.
      * rewrite (set_loop_edit _ _ _ _ _ _ _ _ _ Hs Hid).
        pose proof (edit_call_recorded env p zone r id w) as Hc.
        assert (~ plain_listing recs) as Hnp.
        { intros Hp. apply Hid. rewrite <- (scan_plain recs (RR r) Hp).
          now rewrite Hs. }
        destruct (edit_call env p zone r id w) as [[resp|e] w1]; cbn [snd] in *.
        -- assert (exists more,
                     calls (snd (if upd_Code resp =? 1
                                 then set_loop env p zone recs records
                                        (acc ++ [OfRR (RR r)])%list w1
                                 else set_loop env p zone recs records acc w1))
                     = (calls w1 ++ more)%list
                     /\ Forall (fun c => to_endpoint add_endpoint c
                                  \/ (to_endpoint edit_endpoint c
                                      /\ ~ plain_listing recs)) more)
             as (more & Hm & Hf)
             by (destruct (upd_Code resp =? 1); apply IH).
           exists (edit_record env p zone r id :: more).
           rewrite Hm, Hc, <- app_assoc.
           split; [reflexivity | constructor; [right; now split | exact Hf]].
        -- exists [edit_record env p zone r id].
           split; [exact Hc | constructor; [right; now split | constructor]].
    + rewrite set_loop_create by (rewrite Hs; reflexivity).
      pose proof (add_call_recorded env p zone r w) as Hc.
      destruct (add_call env p zone r w) as [[a|e] w1]; cbn [snd] in *.
      * destruct (IH (acc ++ [OfRR (RR r)])%list w1) as (more & Hm & Hf).
        exists (add_record env p zone r :: more). rewrite Hm, Hc, <- app_assoc.
        split; [reflexivity | constructor; [now left | exact Hf]].
      * exists [add_record env p zone r].
        split; [exact Hc | constructor; [now left | constructor]].
Qed.

(** Over a listing without vendor IDs, the delete loop does nothing. *)
Lemma delete_loop_plain (env : Env) (p : Provider) (zone : string)
  (recs records : list Record) (acc : list Record) (w : World) :
  plain_listing recs ->
  delete_loop env p zone recs records acc w = ((acc, None), w).
Proof.
  intros Hp. induction records as [|r records IH]; [reflexivity|].
  rewrite delete_loop_skip by (now apply scan_plain). exact IH.
Qed.

(** [SetRecords] never issues an edit call and [DeleteRecords] never
    issues a delete call: the listing they match against comes from
    [GetRecords] and holds no vendor ID. *)
Lemma SetRecords_calls (env : Env) (p : Provider) (zone : string)
  (records : list Record) (w : World) :
  exists more,
    calls (snd (SetRecords env p zone records w))
    = (calls w ++ list_record p zone :: more)%list
    /\ Forall (to_endpoint add_endpoint) more.
Proof.
  rewrite SetRecords_unfold.
  pose proof (GetRecords_recorded env p zone w) as Hc.
  destruct (GetRecords env p zone w) as [[recs|e] w0] eqn:Hg; cbn [snd] in *.
  - destruct (set_loop_calls env p zone recs records [] w0) as (more & Hm & Hf).
    exists more. rewrite Hm, Hc, <- app_assoc. split; [reflexivity|].
    apply GetRecords_plain in Hg.
    eapply Forall_impl; [|exact Hf]. intros c [Ha | [_ Hn]]; [exact Ha | tauto].
  - exists []. split; [exact Hc | constructor].
Qed.

Lemma DeleteRecords_calls (env : Env) (p : Provider) (zone : string)
  (records : list Record) (w : World) :
  calls (snd (DeleteRecords env p zone records w))
  = (calls w ++ [list_record p zone])%list
  /\ fst (fst (DeleteRecords env p zone records w)) = [].
Proof.
  rewrite DeleteRecords_unfold.
  pose proof (GetRecords_recorded env p zone w) as Hc.
  destruct (GetRecords env p zone w) as [[recs|e] w0] eqn:Hg; cbn [snd] in *.
  - rewrite delete_loop_plain by (eapply GetRecords_plain; eassumption).
    split; [exact Hc | reflexivity].
  - split; [exact Hc | reflexivity].
Qed.

(* ================================================================= *)
(** ** The reconciler: which records are reported *)

Lemma set_loop_extends (env : Env) (p : Provider) (zone : string)
  (recs records : list Record) :
  forall acc w, exists more,
    fst (fst (set_loop env p zone recs records acc w)) = (acc ++ more)%list.
Proof.
  induction records as [|r records IH]; intros acc w.
  - exists []. cbn. now rewrite app_nil_r.
  - destruct (scan recs (RR r)) as [[|] id] eqn:Hs.
    + destruct (String.eqb_spec id "") as [->|Hid].
      * rewrite set_loop_skip by assumption. apply IH.
      * rewrite (set_loop_edit _ _ _ _ _ _ _ _ _ Hs Hid).
        destruct (edit_call env p zone r id w) as [[resp|e] w1].
        -- destruct (upd_Code resp =? 1); [|apply IH].
           destruct (IH (acc ++ [OfRR (RR r)])%list w1) as (more & Hm).
           exists (OfRR (RR r) :: more). now rewrite Hm, <- app_assoc.
        -- exists []. cbn. now rewrite app_nil_r.
    + rewrite set_loop_create by (rewrite Hs; reflexivity).
      destruct (add_call env p zone r w) as [[a|e] w1].
      * destruct (IH (acc ++ [OfRR (RR r)])%list w1) as (more & Hm).
        exists (OfRR (RR r) :: more). now rewrite Hm, <- app_assoc.
      * exists []. cbn. now rewrite app_nil_r.
Qed.

(** Whatever a loop reports beyond what it started from is the [RR] of a
    record of the batch that was not passed over. *)
Lemma set_loop_members (env : Env) (p : Provider) (zone : string)
  (recs records : list Record) :
  forall acc w x,
    In x (fst (fst (set_loop env p zone recs records acc w))) ->
    In x acc
    \/ exists r, In r records /\ x = OfRR (RR r)
                 /\ scan recs (RR r) <> (true, "").
Proof.
  induction records as [|r records IH]; intros acc w x; [cbn; auto|].
  assert (forall acc' w',
            In x (fst (fst (set_loop env p zone recs records acc' w'))) ->
            (In x acc' -> In x acc \/ exists r0, In r0 (r :: records)
                            /\ x = OfRR (RR r0) /\ scan recs (RR r0) <> (true, "")) ->
            In x acc \/ exists r0, In r0 (r :: records)
                          /\ x = OfRR (RR r0) /\ scan recs (RR r0) <> (true, ""))
    as Hrest.
  { intros acc' w' Hin Hacc.
    destruct (IH acc' w' x Hin) as [Ha | (r0 & Hr0 & Hx & Hs0)]; [auto|].
    right. exists r0. repeat split; auto. now right. }
  destruct (scan recs (RR r)) as [[|] id] eqn:Hs.
  - destruct (String.eqb_spec id "") as [->|Hid].
    + rewrite set_loop_skip by assumption. intros Hin.
      apply (Hrest _ _ Hin). auto.
    + rewrite (set_loop_edit _ _ _ _ _ _ _ _ _ Hs Hid).
      destruct (edit_call env p zone r id w) as [[resp|e] w1]; [|cbn; auto].
      destruct (upd_Code resp =? 1); intros Hin; apply (Hrest _ _ Hin); auto.
      intros Ha. apply in_app_or in Ha as [Ha | [<- | []]]; [auto|].
      right. exists r. repeat split; [now left | congruence].
  - rewrite set_loop_create by (rewrite Hs; reflexivity).
    destruct (add_call env p zone r w) as [[a|e] w1]; [|cbn; auto].
    intros Hin. apply (Hrest _ _ Hin).
    intros Ha. apply in_app_or in Ha as [Ha | [<- | []]]; [auto|].
    right. exists r. repeat split; [now left | congruence].
Qed.

Lemma delete_loop_members (env : Env) (p : Provider) (zone : string)
  (recs records : list Record) :
  forall acc w x,
    In x (fst (fst (delete_loop env p zone recs records acc w))) ->
    In x acc
    \/ exists r, In r records /\ x = OfRR (RR r)
                 /\ snd (scan recs (RR r)) <> "".
Proof.
  induction records as [|r records IH]; intros acc w x; [cbn; auto|].
  assert (forall acc' w',
            In x (fst (fst (delete_loop env p zone recs records acc' w'))) ->
            (In x acc' -> In x acc \/ exists r0, In r0 (r :: records)
                            /\ x = OfRR (RR r0) /\ snd (scan recs (RR r0)) <> "") ->
            In x acc \/ exists r0, In r0 (r :: records)
                          /\ x = OfRR (RR r0) /\ snd (scan recs (RR r0)) <> "")
    as Hrest.
  { intros acc' w' Hin Hacc.
    destruct (IH acc' w' x Hin) as [Ha | (r0 & Hr0 & Hx & Hs0)]; [auto|].
    right. exists r0. repeat split; auto. now right. }
  destruct (String.eqb_spec (snd (scan recs (RR r))) "") as [Hid|Hid].
  - rewrite delete_loop_skip by assumption. intros Hin.
    apply (Hrest _ _ Hin). auto.
  - rewrite (delete_loop_call _ _ _ _ _ _ _ _ Hid).
    destruct (delete_call env p zone _ w) as [[resp|e] w1]; [|cbn; auto].
    destruct (del_Code resp =? 1); intros Hin; apply (Hrest _ _ Hin); auto.
    intros Ha. apply in_app_or in Ha as [Ha | [<- | []]]; [auto|].
    right. exists r. repeat split; [now left | exact Hid].
Qed.

(** Passing over the record at any place of a batch leaves the run as it
    is without that record. *)
Lemma set_loop_erase (env : Env) (p : Provider) (zone : string)
  (recs pre : list Record) (record : Record) (post acc : list Record)
  (w : World) :
  scan recs (RR record) = (true, "") ->
  set_loop env p zone recs (pre ++ record :: post) acc w
  = set_loop env p zone recs (pre ++ post) acc w.
Proof.
  intros Hs. rewrite !set_loop_app.
  destruct (set_loop env p zone recs pre acc w) as [[l [e|]] w1]; [reflexivity|].
  now apply set_loop_skip.
Qed.

Lemma delete_loop_erase (env : Env) (p : Provider) (zone : string)
  (recs pre : list Record) (record : Record) (post acc : list Record)
  (w : World) :
  snd (scan recs (RR record)) = "" ->
  delete_loop env p zone recs (pre ++ record :: post) acc w
  = delete_loop env p zone recs (pre ++ post) acc w.
Proof.
  intros Hs. rewrite !delete_loop_app.
  destruct (delete_loop env p zone recs pre acc w) as [[l [e|]] w1]; [reflexivity|].
  now apply delete_loop_skip.
Qed.

(* ================================================================= *)
(** ** The claim about the transport *)

(** C7 (as amended). When the client answers a request: a status other
    than 200 fails with the status error, which carries the body as
    received; status 200 with an envelope whose code is not 1 fails with
    the API error, which carries the vendor's message and code; status
    200 with envelope code 1 returns the payload decoded from the same
    body, without error, when that body decodes into the payload type,
    and fails otherwise.  A record whose call fails is not reported: the
    loop returns what it had before the call, with the error. *)
Theorem C7_status_and_envelope (env : Env) {T : Type} `{Unmarshal T}
  (client : Client) (method endpoint params appKey : string)
  (responseType : T) (w : World) :
  (forall resp,
     receives env client method endpoint params appKey w resp ->
     let result := fst (MakeApiRequestWithClient env client method endpoint
                          params appKey responseType w) in
     (StatusCode resp <> 200 ->
      result = inr (ErrStatus (StatusCode resp) (RespBody resp)))
     /\ (forall c,
           StatusCode resp = 200 -> ReadError resp = false ->
           json_Unmarshal (RespBody resp) zero_CommonResponse = Some c ->
           (Code c <> 1 -> result = inr (ErrAPI (Msg c) (Code c)))
           /\ (Code c = 1 ->
               forall t, json_Unmarshal (RespBody resp) responseType = Some t ->
                         result = inl t)
           /\ (Code c = 1 ->
               json_Unmarshal (RespBody resp) responseType = None ->
               result = inr ErrParseResponse)))
  /\ (forall p zone recs record rest acc w1 e w2,
        (add_call env p zone record w1 = (inr e, w2) ->
         append_loop env p zone (record :: rest) acc w1
         = ((acc, Some (ErrAppendRecord (libdns.Name (RR record)) zone e)), w2))
        /\ (forall recordId,
              scan recs (RR record) = (true, recordId) -> recordId <> "" ->
              edit_call env p zone record recordId w1 = (inr e, w2) ->
              set_loop env p zone recs (record :: rest) acc w1
              = ((acc, Some (ErrUpdateRecord (libdns.Name (RR record)) zone e)),
                 w2))
        /\ (snd (scan recs (RR record)) <> "" ->
            delete_call env p zone (snd (scan recs (RR record))) w1
            = (inr e, w2) ->
            delete_loop env p zone recs (record :: rest) acc w1
            = ((acc, Some (ErrDeleteRecord (libdns.Name (RR record)) zone e)),
               w2))).
Proof.
  split.
  - intros resp Hr result. unfold result.
    rewrite (MakeApiRequestWithClient_receives _ _ _ _ _ _ _ _ _ Hr).
    unfold read_response, http_StatusOK. split.
    + intros Hs. destruct (Z.eqb_spec (StatusCode resp) 200); [contradiction|].
      reflexivity.
    + intros c Hs Hre Hc. rewrite Hs, Hre, Hc. cbn [Z.eqb Pos.eqb negb].
      repeat split.
      * intros Hn. destruct (Z.eqb_spec (Code c) 1); [contradiction|].
        reflexivity.
      * intros H1 t Ht. rewrite H1, Ht. reflexivity.
      * intros H1 Ht. rewrite H1, Ht. reflexivity.
  - intros p zone recs record rest acc w1 e w2. split; [|split].
    + intros Ha. now rewrite append_loop_step, Ha.
    + intros recordId Hs Hid He.
      now rewrite (set_loop_edit _ _ _ _ _ _ _ _ _ Hs Hid), He.
    + intros Hid Hd. now rewrite (delete_loop_call _ _ _ _ _ _ _ _ Hid), Hd.
Qed.

Lemma www_receives :
  receives plain_env rejecting_client "POST" "/api/resolution/list"
    "appid=app&ym=example.com" "key" w0 (ok invalid_appid).
Proof.
  split; [reflexivity|]. split; [reflexivity|].
  exists list_url. repeat split.
Qed.

Lemma C7_witness :
  fst (MakeApiRequestWithClient plain_env rejecting_client "POST"
         "/api/resolution/list" "appid=app&ym=example.com" "key"
         zero_ResolutionList w0)
  = inr (ErrAPI "invalid appid" 0).
Proof.
  apply (proj1 (proj2 (proj1 (C7_status_and_envelope plain_env
                                rejecting_client "POST" "/api/resolution/list"
                                "appid=app&ym=example.com" "key"
                                zero_ResolutionList w0)
                         (ok invalid_appid) www_receives)
                 (mkCommonResponse 0 "invalid appid")
                 eq_refl eq_refl eq_refl)).
  discriminate.
Defined.

(** A 2xx status other than 200, with a success envelope in the body, is
    an error all the same. *)
Lemma C7_status_201_fails :
  200 <= 201 < 300
  /\ json_Unmarshal (JSON success) zero_CommonResponse
     = Some (mkCommonResponse 1 "ok")
  /\ json_Unmarshal (JSON success) zero_AddDomainRecord
     = Some (mkAddDomainRecord 1 "ok" 0)
  /\ receives plain_env created_client "POST" "/api/resolution/add"
       "appid=app&ym=example.com" "key" w0
       (mkHttpResponse 201 (JSON success) false)
  /\ fst (MakeApiRequestWithClient plain_env created_client "POST"
            "/api/resolution/add" "appid=app&ym=example.com" "key"
            zero_AddDomainRecord w0)
     = inr (ErrStatus 201 (JSON success)).
Proof.
  split; [lia|]. split; [reflexivity|]. split; [reflexivity|]. split.
  - split; [reflexivity|]. split; [reflexivity|].
    exists add_url. repeat split.
  - vm_compute. reflexivity.
Qed.

(* ================================================================= *)
(** ** The claims about the reconciler *)

(** C1. The scenario of the specification: the vendor lists [www A
    1.1.1.1] with ID 1 and [SetRecords] is asked for [www A 2.2.2.2] with
    a TTL of 300 seconds.  The run consists of the list call alone: no
    edit call is issued, nothing is reported and no error is returned. *)
Theorem C1_listed_record_is_not_edited :
  fst (GetRecords plain_env www_provider "example.com." w0)
  = inl [OfRR (libdns.mkRR "www" (600 * Second) "A" "1.1.1.1")]
  /\ fst (SetRecords plain_env www_provider "example.com."
            [www_A "2.2.2.2" 300] w0)
     = ([], None)
  /\ calls (snd (SetRecords plain_env www_provider "example.com."
                   [www_A "2.2.2.2" 300] w0))
     = [mkApiCall "POST" "/api/resolution/list" "appid=app&ym=example.com"].
Proof. vm_compute. repeat split. Qed.

(** Handed a listing that does hold the vendor record, the loop of
    [SetRecords] issues the edit call with that ID and reports the input
    record. *)
Example set_loop_edits_vendor_records :
  fst (set_loop plain_env www_provider "example.com."
         [OfVendor (vendor_www "1" "600")] [www_A "2.2.2.2" 300] [] w0)
  = ([www_A "2.2.2.2" 300], None)
  /\ calls (snd (set_loop plain_env www_provider "example.com."
                   [OfVendor (vendor_www "1" "600")] [www_A "2.2.2.2" 300] [] w0))
     = [mkApiCall "POST" "/api/resolution/edit"
          "appid=app&ym=example.com&lx=A&zj=www&jlz=2.2.2.2&ttl=300&jxid=1"].
Proof. vm_compute. repeat split. Qed.

(** C2. When [SetRecords] reaches a record whose name and type are not in
    the listing taken at entry, it issues the create call for that record
    and nothing else; if the call fails the operation ends with that
    error, and otherwise the record reported is the input record, with its
    name, type, value and TTL, and the operation goes on. *)
Theorem C2_unlisted_record_is_created (env : Env) (p : Provider)
  (zone : string) (pre : list Record) (record : Record) (rest : list Record)
  (w : World) (recs : list Record) (w0 : World) (done : list Record)
  (w1 : World) :
  GetRecords env p zone w = (inl recs, w0) ->
  set_loop env p zone recs pre [] w0 = ((done, None), w1) ->
  fst (scan recs (RR record)) = false ->
  SetRecords env p zone (pre ++ record :: rest) w
  = match add_call env p zone record w1 with
    | (inr err, w2) =>
        ((done, Some (ErrCreateNew
                        (ErrAppendRecord (libdns.Name (RR record)) zone err))),
         w2)
    | (inl _, w2) =>
        set_loop env p zone recs rest (done ++ [OfRR (RR record)]) w2
    end
  /\ calls (snd (add_call env p zone record w1))
     = (calls w1 ++ [add_record env p zone record])%list
  /\ (forall a w2,
        add_call env p zone record w1 = (inl a, w2) ->
        exists more,
          fst (fst (SetRecords env p zone (pre ++ record :: rest) w))
          = (done ++ OfRR (RR record) :: more)%list).
Proof.
  intros Hg Hpre Hs.
  assert (SetRecords env p zone (pre ++ record :: rest) w
          = match add_call env p zone record w1 with
            | (inr err, w2) =>
                ((done, Some (ErrCreateNew
                                (ErrAppendRecord (libdns.Name (RR record)) zone err))),
                 w2)
            | (inl _, w2) =>
                set_loop env p zone recs rest (done ++ [OfRR (RR record)]) w2
            end) as Heq.
  { rewrite SetRecords_unfold, Hg, set_loop_app, Hpre.
    now apply set_loop_create. }
  split; [exact Heq|]. split; [apply add_call_recorded|].
  intros a w2 Ha. rewrite Heq, Ha.
  destruct (set_loop_extends env p zone recs rest
              (done ++ [OfRR (RR record)])%list w2) as (more & Hm).
  exists more. now rewrite Hm, <- app_assoc.
Qed.

Lemma C2_witness :
  exists more,
    fst (fst (SetRecords plain_env www_provider "example.com."
                ([] ++ mail_MX :: [ftp_CNAME]) w0))
    = ([] ++ OfRR (RR mail_MX) :: more)%list.
Proof.
  assert (GetRecords plain_env www_provider "example.com." w0
          = (inl www_recs, listed www_provider)) as Hg
    by (vm_compute; reflexivity).
  assert (set_loop plain_env www_provider "example.com." www_recs [] []
            (listed www_provider)
          = (([], None), listed www_provider)) as Hpre
    by reflexivity.
  assert (fst (scan www_recs (RR mail_MX)) = false) as Hs
    by reflexivity.
  assert (add_call plain_env www_provider "example.com." mail_MX
            (listed www_provider)
          = (inl accepted,
             snd (add_call plain_env www_provider "example.com." mail_MX
                    (listed www_provider)))) as Ha
    by (vm_compute; reflexivity).
  exact (proj2 (proj2 (C2_unlisted_record_is_created plain_env www_provider
                         "example.com." [] mail_MX [ftp_CNAME] w0 www_recs
                         (listed www_provider) [] (listed www_provider)
                         Hg Hpre Hs))
           accepted _ Ha).
Defined.

(** C3. A target record whose name and type match nothing in the listing
    taken at entry leaves the run of [DeleteRecords] as it is without that
    record (the same calls, the same requests, the same outcome), and it
    is not among the records reported as deleted.  The same holds for the
    loop of [DeleteRecords] over any listing. *)
Theorem C3_unmatched_record_is_not_deleted (env : Env) (p : Provider)
  (zone : string) (pre : list Record) (record : Record) (post : list Record)
  (w : World) (recs : list Record) (w0 : World) :
  GetRecords env p zone w = (inl recs, w0) ->
  fst (scan recs (RR record)) = false ->
  DeleteRecords env p zone (pre ++ record :: post) w
  = DeleteRecords env p zone (pre ++ post) w
  /\ ~ In (OfRR (RR record))
         (fst (fst (DeleteRecords env p zone (pre ++ record :: post) w)))
  /\ (forall recs' acc w',
        fst (scan recs' (RR record)) = false ->
        delete_loop env p zone recs' (pre ++ record :: post) acc w'
        = delete_loop env p zone recs' (pre ++ post) acc w'
        /\ (~ In (OfRR (RR record)) acc ->
            ~ In (OfRR (RR record))
                (fst (fst (delete_loop env p zone recs'
                             (pre ++ record :: post) acc w'))))).
Proof.
  intros Hg Hs.
  assert (forall recs' acc w',
            fst (scan recs' (RR record)) = false ->
            delete_loop env p zone recs' (pre ++ record :: post) acc w'
            = delete_loop env p zone recs' (pre ++ post) acc w'
            /\ (~ In (OfRR (RR record)) acc ->
                ~ In (OfRR (RR record))
                    (fst (fst (delete_loop env p zone recs'
                                 (pre ++ record :: post) acc w'))))) as Hloop.
  { intros recs' acc w' Hs'. split.
    - apply delete_loop_erase. now apply scan_unmatched.
    - intros Hacc Hin.
      apply delete_loop_members in Hin as [Ha | (r & _ & Hx & Hid)]; [auto|].
      inversion Hx as [Hrr]. rewrite <- Hrr in Hid.
      apply Hid. now apply scan_unmatched. }
  split; [|split; [|exact Hloop]].
  - rewrite !DeleteRecords_unfold, Hg. now apply Hloop.
  - rewrite DeleteRecords_unfold, Hg. apply Hloop; auto.
Qed.

Lemma C3_witness :
  DeleteRecords plain_env www_provider "example.com."
    ([www_A "1.1.1.1" 600] ++ mail_MX :: [ftp_CNAME]) w0
  = DeleteRecords plain_env www_provider "example.com."
      ([www_A "1.1.1.1" 600] ++ [ftp_CNAME]) w0.
Proof.
  assert (GetRecords plain_env www_provider "example.com." w0
          = (inl www_recs, listed www_provider)) as Hg
    by (vm_compute; reflexivity).
  assert (fst (scan www_recs (RR mail_MX)) = false) as Hs by reflexivity.
  exact (proj1 (C3_unmatched_record_is_not_deleted plain_env www_provider
                  "example.com." [www_A "1.1.1.1" 600] mail_MX [ftp_CNAME]
                  w0 www_recs (listed www_provider) Hg Hs)).
Defined.

(** C4. A record whose name and type match a listed record without a
    resolvable vendor ID is passed over by [SetRecords] and by
    [DeleteRecords]: the run is what it is without that record (no call
    for it, no error from it, the remaining records processed as before),
    and the record is not among those reported.  This holds for the loops
    over any listing, and hence for the two operations, where a listed
    record never has a resolvable ID. *)
Theorem C4_unresolvable_record_is_skipped (env : Env) (p : Provider)
  (zone : string) (pre : list Record) (record : Record) (post : list Record) :
  (forall recs acc w,
     scan recs (RR record) = (true, "") ->
     set_loop env p zone recs (pre ++ record :: post) acc w
     = set_loop env p zone recs (pre ++ post) acc w
     /\ delete_loop env p zone recs (pre ++ record :: post) acc w
        = delete_loop env p zone recs (pre ++ post) acc w
     /\ (~ In (OfRR (RR record)) acc ->
         ~ In (OfRR (RR record))
             (fst (fst (set_loop env p zone recs (pre ++ record :: post) acc w)))
         /\ ~ In (OfRR (RR record))
                (fst (fst (delete_loop env p zone recs
                             (pre ++ record :: post) acc w)))))
  /\ (forall w recs w0,
        GetRecords env p zone w = (inl recs, w0) ->
        fst (scan recs (RR record)) = true ->
        SetRecords env p zone (pre ++ record :: post) w
        = SetRecords env p zone (pre ++ post) w
        /\ DeleteRecords env p zone (pre ++ record :: post) w
           = DeleteRecords env p zone (pre ++ post) w).
Proof.
  assert (forall recs acc w,
            scan recs (RR record) = (true, "") ->
            set_loop env p zone recs (pre ++ record :: post) acc w
            = set_loop env p zone recs (pre ++ post) acc w
            /\ delete_loop env p zone recs (pre ++ record :: post) acc w
               = delete_loop env p zone recs (pre ++ post) acc w) as Hloop.
  { intros recs acc w Hs. split.
    - now apply set_loop_erase.
    - apply delete_loop_erase. now rewrite Hs. }
  split.
  - intros recs acc w Hs. destruct (Hloop recs acc w Hs) as [H1 H2].
    split; [exact H1|]. split; [exact H2|]. intros Hacc. split; intros Hin.
    + apply set_loop_members in Hin as [Ha | (r & _ & Hx & Hne)]; [auto|].
      inversion Hx as [Hrr]. rewrite <- Hrr in Hne. contradiction.
    + apply delete_loop_members in Hin as [Ha | (r & _ & Hx & Hid)]; [auto|].
      inversion Hx as [Hrr]. rewrite <- Hrr in Hid. apply Hid. now rewrite Hs.
  - intros w recs w0 Hg Hm.
    assert (scan recs (RR record) = (true, "")) as Hs.
    { pose proof (scan_plain recs (RR record) (GetRecords_plain _ _ _ _ _ _ Hg)).
      destruct (scan recs (RR record)) as [has id]. cbn in *. congruence. }
    rewrite !SetRecords_unfold, !DeleteRecords_unfold, Hg.
    now apply Hloop.
Qed.

Lemma C4_witness :
  SetRecords plain_env www_provider "example.com."
    ([mail_MX] ++ www_A "2.2.2.2" 300 :: [ftp_CNAME]) w0
  = SetRecords plain_env www_provider "example.com."
      ([mail_MX] ++ [ftp_CNAME]) w0.
Proof.
  assert (GetRecords plain_env www_provider "example.com." w0
          = (inl www_recs, listed www_provider)) as Hg
    by (vm_compute; reflexivity).
  assert (fst (scan www_recs (RR (www_A "2.2.2.2" 300))) = true) as Hm
    by reflexivity.
  exact (proj1 (proj2 (C4_unresolvable_record_is_skipped plain_env
                         www_provider "example.com." [mail_MX]
                         (www_A "2.2.2.2" 300) [ftp_CNAME])
                  w0 www_recs (listed www_provider) Hg Hm)).
Defined.

(** C6. When the operation for a record fails, the records after it are
    not processed and the outcome is the list of what had succeeded for
    the records before it, together with the error: for [AppendRecords],
    for [SetRecords], and for the loop that [DeleteRecords] runs over its
    listing. *)
Theorem C6_fail_fast_with_partial_results (env : Env) (p : Provider)
  (zone : string) (pre : list Record) (record : Record) (post : list Record) :
  (forall w done w1 l e w2,
     AppendRecords env p zone pre w = ((done, None), w1) ->
     append_loop env p zone [record] done w1 = ((l, Some e), w2) ->
     AppendRecords env p zone (pre ++ record :: post) w
     = ((done, Some e), w2))
  /\ (forall w recs w0 done w1 l e w2,
        GetRecords env p zone w = (inl recs, w0) ->
        set_loop env p zone recs pre [] w0 = ((done, None), w1) ->
        set_loop env p zone recs [record] done w1 = ((l, Some e), w2) ->
        SetRecords env p zone (pre ++ record :: post) w
        = ((done, Some e), w2))
  /\ (forall recs acc w0 done w1 l e w2,
        delete_loop env p zone recs pre acc w0 = ((done, None), w1) ->
        delete_loop env p zone recs [record] done w1 = ((l, Some e), w2) ->
        delete_loop env p zone recs (pre ++ record :: post) acc w0
        = ((done, Some e), w2)).
Proof.
  split; [|split].
  - intros w done w1 l e w2 Hpre Hrec. unfold AppendRecords in *.
    pose proof (append_loop_failure _ _ _ _ _ _ _ _ _ Hrec) as ->.
    change (record :: post) with ([record] ++ post)%list.
    now rewrite append_loop_app, Hpre, append_loop_app, Hrec.
  - intros w recs w0 done w1 l e w2 Hg Hpre Hrec.
    pose proof (set_loop_failure _ _ _ _ _ _ _ _ _ _ Hrec) as ->.
    change (record :: post) with ([record] ++ post)%list.
    now rewrite SetRecords_unfold, Hg, set_loop_app, Hpre, set_loop_app, Hrec.
  - intros recs acc w0 done w1 l e w2 Hpre Hrec.
    pose proof (delete_loop_failure _ _ _ _ _ _ _ _ _ _ Hrec) as ->.
    change (record :: post) with ([record] ++ post)%list.
    now rewrite delete_loop_app, Hpre, delete_loop_app, Hrec.
Qed.

Lemma C6_witness :
  AppendRecords plain_env once_provider "example.com."
    ([mail_MX] ++ ftp_CNAME :: [www_A "2.2.2.2" 300]) w0
  = (([mail_MX], Some (ErrAppendRecord "ftp" "example.com." rejected)),
     snd (append_loop plain_env once_provider "example.com." [ftp_CNAME]
            [mail_MX]
            (snd (AppendRecords plain_env once_provider "example.com."
                    [mail_MX] w0))))
  /\ delete_loop plain_env once_provider "example.com."
       [OfVendor (vendor_www "1" "600")]
       ([www_A "" 0] ++ www_A "" 0 :: [www_A "" 0]) [] w0
     = (([www_A "" 0], Some (ErrDeleteRecord "www" "example.com." rejected)),
        snd (delete_loop plain_env once_provider "example.com."
               [OfVendor (vendor_www "1" "600")] [www_A "" 0] [www_A "" 0]
               (snd (delete_loop plain_env once_provider "example.com."
                       [OfVendor (vendor_www "1" "600")] [www_A "" 0] []
                       w0)))).
Proof.
  split.
  - assert (AppendRecords plain_env once_provider "example.com." [mail_MX] w0
            = (([mail_MX], None),
               snd (AppendRecords plain_env once_provider "example.com."
                      [mail_MX] w0))) as Hpre
      by (vm_compute; reflexivity).
    assert (append_loop plain_env once_provider "example.com." [ftp_CNAME]
              [mail_MX]
              (snd (AppendRecords plain_env once_provider "example.com."
                      [mail_MX] w0))
            = (([mail_MX],
                Some (ErrAppendRecord "ftp" "example.com." rejected)),
               snd (append_loop plain_env once_provider "example.com."
                      [ftp_CNAME] [mail_MX]
                      (snd (AppendRecords plain_env once_provider
                              "example.com." [mail_MX] w0))))) as Hrec
      by (vm_compute; reflexivity).
    exact (proj1 (C6_fail_fast_with_partial_results plain_env once_provider
                    "example.com." [mail_MX] ftp_CNAME [www_A "2.2.2.2" 300])
             w0 _ _ _ _ _ Hpre Hrec).
  - assert (delete_loop plain_env once_provider "example.com."
              [OfVendor (vendor_www "1" "600")] [www_A "" 0] [] w0
            = (([www_A "" 0], None),
               snd (delete_loop plain_env once_provider "example.com."
                      [OfVendor (vendor_www "1" "600")] [www_A "" 0] [] w0)))
      as Hpre by (vm_compute; reflexivity).
    assert (delete_loop plain_env once_provider "example.com."
              [OfVendor (vendor_www "1" "600")] [www_A "" 0] [www_A "" 0]
              (snd (delete_loop plain_env once_provider "example.com."
                      [OfVendor (vendor_www "1" "600")] [www_A "" 0] [] w0))
            = (([www_A "" 0],
                Some (ErrDeleteRecord "www" "example.com." rejected)),
               snd (delete_loop plain_env once_provider "example.com."
                      [OfVendor (vendor_www "1" "600")] [www_A "" 0]
                      [www_A "" 0]
                      (snd (delete_loop plain_env once_provider "example.com."
                              [OfVendor (vendor_www "1" "600")] [www_A "" 0]
                              [] w0))))) as Hrec
      by (vm_compute; reflexivity).
    exact (proj2 (proj2 (C6_fail_fast_with_partial_results plain_env
                           once_provider "example.com." [www_A "" 0]
                           (www_A "" 0) [www_A "" 0]))
             [OfVendor (vendor_www "1" "600")] [] w0 _ _ _ _ _ Hpre Hrec).
Defined.

Example SetRecords_stops_at_the_first_failure :
  fst (SetRecords plain_env flaky_provider "example.com."
         [mail_MX; ftp_CNAME; www_A "2.2.2.2" 300] w0)
  = ([mail_MX],
     Some (ErrCreateNew (ErrAppendRecord "ftp" "example.com." rejected)))
  /\ calls (snd (SetRecords plain_env flaky_provider "example.com."
                   [mail_MX; ftp_CNAME; www_A "2.2.2.2" 300] w0))
     = [list_record flaky_provider "example.com.";
        add_record plain_env flaky_provider "example.com." mail_MX;
        add_record plain_env flaky_provider "example.com." ftp_CNAME].
Proof. vm_compute. split; reflexivity. Qed.

(** The inner loop looks at the name and the type of the record only. *)
Lemma scan_same_key (recs : list Record) (rr1 rr2 : libdns.RR) :
  libdns.Name rr2 = libdns.Name rr1 ->
  libdns.Type_ rr2 = libdns.Type_ rr1 ->
  scan recs rr2 = scan recs rr1.
Proof.
  intros Hn Ht. induction recs as [|rec recs IH]; cbn [scan]; [reflexivity|].
  now rewrite Hn, Ht, IH.
Qed.

Lemma not_list_call (recs : list Record) (c : ApiCall) :
  to_endpoint add_endpoint c
  \/ (to_endpoint edit_endpoint c /\ ~ plain_listing recs) ->
  ~ to_endpoint list_endpoint c.
Proof.
  unfold to_endpoint. intros [H | [H _]] E; rewrite H in E; discriminate.
Qed.

(** C10. [SetRecords] and [DeleteRecords] issue one list call, the first
    call of the run, and run their loop over the listing it returns; no
    later call is a list call.  So when two records of one [SetRecords]
    batch have the same name and type, absent from that listing, and the
    create call for the first succeeds, the create call for the second
    follows. *)
Theorem C10_single_snapshot (env : Env) (p : Provider) (zone : string) :
  (forall records w,
     SetRecords env p zone records w
     = match GetRecords env p zone w with
       | (inr err, w0) => (([], Some (ErrGetExisting err)), w0)
       | (inl recs, w0) => set_loop env p zone recs records [] w0
       end
     /\ exists more,
          calls (snd (SetRecords env p zone records w))
          = (calls w ++ list_record p zone :: more)%list
          /\ Forall (fun c => ~ to_endpoint list_endpoint c) more)
  /\ (forall records w,
        DeleteRecords env p zone records w
        = match GetRecords env p zone w with
          | (inr err, w0) => (([], Some (ErrGetExisting err)), w0)
          | (inl recs, w0) => delete_loop env p zone recs records [] w0
          end
        /\ exists more,
             calls (snd (DeleteRecords env p zone records w))
             = (calls w ++ list_record p zone :: more)%list
             /\ Forall (fun c => ~ to_endpoint list_endpoint c) more)
  /\ (forall r1 r2 rest w recs w0 a w1,
        GetRecords env p zone w = (inl recs, w0) ->
        fst (scan recs (RR r1)) = false ->
        libdns.Name (RR r2) = libdns.Name (RR r1) ->
        libdns.Type_ (RR r2) = libdns.Type_ (RR r1) ->
        add_call env p zone r1 w0 = (inl a, w1) ->
        exists more,
          calls (snd (SetRecords env p zone (r1 :: r2 :: rest) w))
          = (calls w ++ list_record p zone :: add_record env p zone r1
               :: add_record env p zone r2 :: more)%list).
Proof.
  split; [|split].
  - intros records w. split; [apply SetRecords_unfold|].
    destruct (SetRecords_calls env p zone records w) as (more & Hm & Hf).
    exists more. split; [exact Hm|].
    eapply Forall_impl; [|exact Hf].
    intros c Hc. apply (not_list_call []). now left.
  - intros records w. split; [apply DeleteRecords_unfold|].
    exists []. split; [apply DeleteRecords_calls | constructor].
  - intros r1 r2 rest w recs w0 a w1 Hg Hs Hn Ht Ha.
    pose proof (GetRecords_recorded env p zone w) as Hc0.
    rewrite Hg in Hc0. cbn [snd] in Hc0.
    pose proof (add_call_recorded env p zone r1 w0) as Hc1.
    rewrite Ha in Hc1. cbn [snd] in Hc1.
    rewrite SetRecords_unfold, Hg, (set_loop_create _ _ _ _ _ _ _ _ Hs), Ha.
    rewrite set_loop_create
      by (now rewrite (scan_same_key recs (RR r1) (RR r2) Hn Ht)).
    pose proof (add_call_recorded env p zone r2 w1) as Hc2.
    destruct (add_call env p zone r2 w1) as [[a2|e2] w2]; cbn [snd] in *.
    + destruct (set_loop_calls env p zone recs rest
                  (([] ++ [OfRR (RR r1)]) ++ [OfRR (RR r2)])%list w2)
        as (more & Hm & _).
      exists more. rewrite Hm, Hc2, Hc1, Hc0, <- !app_assoc. reflexivity.
    + exists []. rewrite Hc2, Hc1, Hc0, <- !app_assoc. reflexivity.
Qed.

Lemma C10_witness :
  exists more,
    calls (snd (SetRecords plain_env www_provider "example.com."
                  [mail_MX; mail_MX; ftp_CNAME] w0))
    = (calls w0 ++ list_record www_provider "example.com."
         :: add_record plain_env www_provider "example.com." mail_MX
         :: add_record plain_env www_provider "example.com." mail_MX
         :: more)%list.
Proof.
  assert (GetRecords plain_env www_provider "example.com." w0
          = (inl www_recs, listed www_provider)) as Hg
    by (vm_compute; reflexivity).
  assert (fst (scan www_recs (RR mail_MX)) = false) as Hs by reflexivity.
  assert (add_call plain_env www_provider "example.com." mail_MX
            (listed www_provider)
          = (inl accepted,
             snd (add_call plain_env www_provider "example.com." mail_MX
                    (listed www_provider)))) as Ha
    by (vm_compute; reflexivity).
  exact (proj2 (proj2 (C10_single_snapshot plain_env www_provider
                         "example.com."))
           mail_MX mail_MX [ftp_CNAME] w0 www_recs (listed www_provider)
           accepted _ Hg Hs eq_refl eq_refl Ha).
Defined.

(* ================================================================= *)
(** * Further properties of the package *)

(* ================================================================= *)
(** ** The transport: what a returned payload tells *)

(** What [read_response] has seen when it returns a payload. *)
Lemma read_response_payload {T : Type} `{Unmarshal T} (resp : HttpResponse)
  (responseType t : T) :
  read_response resp responseType = inl t ->
  StatusCode resp = 200
  /\ ReadError resp = false
  /\ exists c,
       json_Unmarshal (RespBody resp) zero_CommonResponse = Some c
       /\ Code c = 1
       /\ json_Unmarshal (RespBody resp) responseType = Some t.
Proof.
  unfold read_response, http_StatusOK. intros Hr.
  destruct (Z.eqb_spec (StatusCode resp) 200) as [Hs|]; [|discriminate].
  cbn [negb] in Hr.
  destruct (ReadError resp) eqn:Hre; [discriminate|].
  destruct (json_Unmarshal (RespBody resp) zero_CommonResponse) as [c|] eqn:Hcr;
    [|discriminate].
  destruct (Z.eqb_spec (Code c) 1) as [H1|]; [|discriminate].
  cbn [negb] in Hr.
  destruct (json_Unmarshal (RespBody resp) responseType) as [t'|] eqn:Ht;
    [|discriminate].
  inversion Hr; subst t'. repeat split; auto. exists c. auto.
Qed.

(** A call that returns a payload has got an answer from which
    [read_response] makes that payload. *)
Lemma returned_payload_was_read (env : Env) {T : Type} `{Unmarshal T}
  (client : Client) (method endpoint params appKey : string)
  (responseType t : T) (w w' : World) :
  MakeApiRequestWithClient env client method endpoint params appKey
    responseType w = (inl t, w') ->
  exists resp, read_response resp responseType = inl t.
Proof.
  intros E.
  destruct (MakeApiRequestWithClient_cases env client method endpoint params
              appKey responseType w) as [_ [[_ Hpre] | (u & _ & _ & _ & Hr)]];
    rewrite E in *; cbn [fst snd] in *.
  - destruct Hpre as [Hp | [Hp | [Hp | Hp]]]; discriminate.
  - cbv zeta in Hr. destruct (client (wire w) _) as [resp|]; [|discriminate].
    exists resp. now symmetry.
Qed.

(** X1. [MakeApiRequestWithClient] returns a payload only after it has
    read the clock once, handed exactly one request to the client, and
    got an answer with status 200 whose body was read in full, holds an
    envelope with code 1, and decodes to that payload. *)
Theorem X1_payload_only_from_success (env : Env) {T : Type} `{Unmarshal T}
  (client : Client) (method endpoint params appKey : string)
  (responseType t : T) (w w' : World) :
  MakeApiRequestWithClient env client method endpoint params appKey
    responseType w = (inl t, w') ->
  exists u resp c,
    let req := mkHttpRequest method u form_urlencoded
                 (body_str endpoint params (Now env (clock w)) appKey) in
    wire w' = (wire w ++ [req])%list
    /\ calls w' = (calls w ++ [mkApiCall method endpoint params])%list
    /\ client (wire w) req = Some resp
    /\ StatusCode resp = 200
    /\ ReadError resp = false
    /\ json_Unmarshal (RespBody resp) zero_CommonResponse = Some c
    /\ Code c = 1
    /\ json_Unmarshal (RespBody resp) responseType = Some t.
Proof.
  intros E.
  destruct (MakeApiRequestWithClient_cases env client method endpoint params
              appKey responseType w) as [Hc [[_ Hpre] | (u & _ & _ & Hw & Hr)]];
    rewrite E in *; cbn [fst snd] in *.
  - destruct Hpre as [Hp | [Hp | [Hp | Hp]]]; discriminate.
  - cbv zeta in Hr.
    destruct (client (wire w) _) as [resp|] eqn:Ec; [|discriminate].
    destruct (read_response_payload _ _ _ (eq_sym Hr))
      as (Hs & Hre & c & Hcr & H1 & Ht).
    exists u, resp, c. cbv zeta. repeat split; auto.
Qed.

Lemma X1_witness :
  exists u resp c,
    let req := mkHttpRequest "POST" u form_urlencoded
                 (body_str list_endpoint "appid=app&ym=example.com"
                    (Now plain_env (clock w0)) "key") in
    wire (listed www_provider) = (wire w0 ++ [req])%list
    /\ calls (listed www_provider)
       = (calls w0 ++ [mkApiCall "POST" list_endpoint
                         "appid=app&ym=example.com"])%list
    /\ www_client (wire w0) req = Some resp
    /\ StatusCode resp = 200
    /\ ReadError resp = false
    /\ json_Unmarshal (RespBody resp) zero_CommonResponse = Some c
    /\ Code c = 1
    /\ json_Unmarshal (RespBody resp) zero_ResolutionList
       = Some (mkResolutionList 1 "ok" [vendor_www "1" "600"] 0 0 0).
Proof.
  assert (MakeApiRequestWithClient plain_env www_client "POST" list_endpoint
            "appid=app&ym=example.com" "key" zero_ResolutionList w0
          = (inl (mkResolutionList 1 "ok" [vendor_www "1" "600"] 0 0 0),
             listed www_provider)) as E
    by (vm_compute; reflexivity).
  exact (X1_payload_only_from_success plain_env www_client "POST"
           list_endpoint "appid=app&ym=example.com" "key" zero_ResolutionList
           _ w0 _ E).
Defined.

(* ================================================================= *)
(** ** The decoders: the envelope code of a payload *)

(** Two decoders that treat the member [code] alike keep their codes
    equal along the members of an object, as long as neither reports an
    error. *)
Lemma decode_codes_agree {T1 T2 : Type}
  (m1 : string -> json -> T1 -> option T1)
  (m2 : string -> json -> T2 -> option T2)
  (c1 : T1 -> Z) (c2 : T2 -> Z) :
  (forall k v t1 t2 t1' t2',
     c1 t1 = c2 t2 -> m1 k v t1 = Some t1' -> m2 k v t2 = Some t2' ->
     c1 t1' = c2 t2') ->
  forall v t1 t2 t1' t2',
    c1 t1 = c2 t2 ->
    decode_struct m1 v t1 = Some t1' ->
    decode_struct m2 v t2 = Some t2' ->
    c1 t1' = c2 t2'.
Proof.
  intros Hm v t1 t2 t1' t2' H0.
  destruct v as [| | | | | |members]; cbn [decode_struct];
    try discriminate; [congruence|].
  assert (forall ok1 ok2 a b,
            (ok1 = true -> ok2 = true -> c1 a = c2 b) ->
            forall a' b',
              fold_left
                (fun (acc : T1 * bool) (kv : string * json) =>
                   match m1 (fst kv) (snd kv) (fst acc) with
                   | Some t' => (t', snd acc)
                   | None => (fst acc, false)
                   end) members (a, ok1) = (a', true) ->
              fold_left
                (fun (acc : T2 * bool) (kv : string * json) =>
                   match m2 (fst kv) (snd kv) (fst acc) with
                   | Some t' => (t', snd acc)
                   | None => (fst acc, false)
                   end) members (b, ok2) = (b', true) ->
              c1 a' = c2 b') as Hfold.
  { induction members as [|[k x] members IH]; intros ok1 ok2 a b Hinv a' b';
      cbn [fold_left fst snd].
    - intros E1 E2. inversion E1; inversion E2; subst. auto.
    - destruct (m1 k x a) as [a1|] eqn:E1, (m2 k x b) as [b1|] eqn:E2;
        apply IH; intros; subst; try congruence.
      apply (Hm k x a b a1 b1); auto. }
  intros E1 E2.
  destruct (fold_left _ members (t1, true)) as [a' [|]] eqn:F1; [|discriminate].
  destruct (fold_left _ members (t2, true)) as [b' [|]] eqn:F2; [|discriminate].
  inversion E1; inversion E2; subst.
  eapply (Hfold true true t1 t2); eauto.
Qed.

Ltac member_cases :=
  cbn [Code Msg];
  repeat match goal with
         | |- context [if ?b then _ else _] => destruct b
         | |- context [set_int ?v ?z] => destruct (set_int v z)
         | |- context [set_string ?v ?z] => destruct (set_string v z)
         | |- context [set_records ?v] => destruct (set_records v)
         end;
  cbn [opt_map]; intros; try discriminate;
  repeat match goal with
         | H : Some _ = Some _ |- _ => inversion H; clear H; subst
         end;
  cbn; auto.

Lemma update_code_is_envelope_code (v : json) (c : CommonResponse)
  (t : UpdateDomainRecord) :
  unmarshal v zero_CommonResponse = Some c ->
  unmarshal v zero_UpdateDomainRecord = Some t ->
  upd_Code t = Code c.
Proof.
  intros Hc Ht. symmetry.
  eapply (decode_codes_agree _ _ Code upd_Code)
    with (t1 := zero_CommonResponse) (t2 := zero_UpdateDomainRecord);
    [ | reflexivity | exact Hc | exact Ht ].
  intros k x [code msg] [code' msg' data'] t1' t2' Heq.
  cbn in Heq. subst code'. member_cases.
Qed.

Lemma delete_code_is_envelope_code (v : json) (c : CommonResponse)
  (t : DeleteDomainRecord) :
  unmarshal v zero_CommonResponse = Some c ->
  unmarshal v zero_DeleteDomainRecord = Some t ->
  del_Code t = Code c.
Proof.
  intros Hc Ht. symmetry.
  eapply (decode_codes_agree _ _ Code del_Code)
    with (t1 := zero_CommonResponse) (t2 := zero_DeleteDomainRecord);
    [ | reflexivity | exact Hc | exact Ht ].
  intros k x [code msg] [code' msg'] t1' t2' Heq.
  cbn in Heq. subst code'. member_cases.
Qed.

Lemma add_code_is_envelope_code (v : json) (c : CommonResponse)
  (t : AddDomainRecord) :
  unmarshal v zero_CommonResponse = Some c ->
  unmarshal v zero_AddDomainRecord = Some t ->
  add_Code t = Code c.
Proof.
  intros Hc Ht. symmetry.
  eapply (decode_codes_agree _ _ Code add_Code)
    with (t1 := zero_CommonResponse) (t2 := zero_AddDomainRecord);
    [ | reflexivity | exact Hc | exact Ht ].
  intros k x [code msg] [code' msg' data'] t1' t2' Heq.
  cbn in Heq. subst code'. member_cases.
Qed.

Lemma list_code_is_envelope_code (v : json) (c : CommonResponse)
  (t : ResolutionList) :
  unmarshal v zero_CommonResponse = Some c ->
  unmarshal v zero_ResolutionList = Some t ->
  list_Code t = Code c.
Proof.
  intros Hc Ht. symmetry.
  eapply (decode_codes_agree _ _ Code list_Code)
    with (t1 := zero_CommonResponse) (t2 := zero_ResolutionList);
    [ | reflexivity | exact Hc | exact Ht ].
  intros k x [code msg] [code' msg' data' count' page' size'] t1' t2' Heq.
  cbn in Heq. subst code'. member_cases.
Qed.

(** X2. The payload of a call that returns carries the envelope code 1:
    for the add, edit and delete calls.  So the tests [response.Code == 1]
    in [SetRecords] and [DeleteRecords] never fail: a record whose edit
    or delete call returns is always reported. *)
Theorem X2_returned_payload_has_code_one (env : Env) (p : Provider)
  (zone : string) :
  (forall record w response w1,
     add_call env p zone record w = (inl response, w1) ->
     add_Code response = 1)
  /\ (forall record recordId w response w1,
        edit_call env p zone record recordId w = (inl response, w1) ->
        upd_Code response = 1)
  /\ (forall recordId w response w1,
        delete_call env p zone recordId w = (inl response, w1) ->
        del_Code response = 1)
  /\ (forall recs record rest acc w recordId response w1,
        scan recs (RR record) = (true, recordId) -> recordId <> "" ->
        edit_call env p zone record recordId w = (inl response, w1) ->
        set_loop env p zone recs (record :: rest) acc w
        = set_loop env p zone recs rest (acc ++ [reported record]) w1)
  /\ (forall recs record rest acc w response w1,
        snd (scan recs (RR record)) <> "" ->
        delete_call env p zone (snd (scan recs (RR record))) w
        = (inl response, w1) ->
        delete_loop env p zone recs (record :: rest) acc w
        = delete_loop env p zone recs rest (acc ++ [reported record]) w1).
Proof.
  assert (forall record recordId w response w1,
            edit_call env p zone record recordId w = (inl response, w1) ->
            upd_Code response = 1) as Hedit.
  { intros record recordId w response w1 E.
    destruct (returned_payload_was_read _ _ _ _ _ _ _ _ _ _ E) as (resp & Hr).
    destruct (read_response_payload _ _ _ Hr) as (_ & _ & c & Hc & H1 & Ht).
    destruct (RespBody resp) as [raw|v]; [discriminate|].
    rewrite (update_code_is_envelope_code v c response Hc Ht). exact H1. }
  assert (forall recordId w response w1,
            delete_call env p zone recordId w = (inl response, w1) ->
            del_Code response = 1) as Hdel.
  { intros recordId w response w1 E.
    destruct (returned_payload_was_read _ _ _ _ _ _ _ _ _ _ E) as (resp & Hr).
    destruct (read_response_payload _ _ _ Hr) as (_ & _ & c & Hc & H1 & Ht).
    destruct (RespBody resp) as [raw|v]; [discriminate|].
    rewrite (delete_code_is_envelope_code v c response Hc Ht). exact H1. }
  split; [|split; [exact Hedit | split; [exact Hdel | split]]].
  - intros record w response w1 E.
    destruct (returned_payload_was_read _ _ _ _ _ _ _ _ _ _ E) as (resp & Hr).
    destruct (read_response_payload _ _ _ Hr) as (_ & _ & c & Hc & H1 & Ht).
    destruct (RespBody resp) as [raw|v]; [discriminate|].
    rewrite (add_code_is_envelope_code v c response Hc Ht). exact H1.
  - intros recs record rest acc w recordId response w1 Hs Hid E.
    rewrite (set_loop_edit _ _ _ _ _ _ _ _ _ Hs Hid), E.
    now rewrite (Hedit _ _ _ _ _ E).
  - intros recs record rest acc w response w1 Hid E.
    rewrite (delete_loop_call _ _ _ _ _ _ _ _ Hid), E.
    now rewrite (Hdel _ _ _ _ E).
Qed.

Lemma X2_witness :
  add_Code accepted = 1.
Proof.
  assert (add_call plain_env www_provider "example.com." mail_MX
            (listed www_provider)
          = (inl accepted,
             snd (add_call plain_env www_provider "example.com." mail_MX
                    (listed www_provider)))) as Ha
    by (vm_compute; reflexivity).
  exact (proj1 (X2_returned_payload_has_code_one plain_env www_provider
                  "example.com.") mail_MX _ accepted _ Ha).
Defined.

(* ================================================================= *)
(** ** The listing and what the reconciler can find in it *)




(* ================================================================= *)
(** ** [SetRecords] and [DeleteRecords] as they run *)

(** Over a listing without vendor IDs the loop of [SetRecords] is the loop
    of [AppendRecords] over the records that are not listed. *)
Lemma set_loop_plain (env : Env) (p : Provider) (zone : string)
  (recs : list Record) :
  plain_listing recs ->
  forall records acc w,
    set_loop env p zone recs records acc w
    = as_created (append_loop env p zone (filter (unlisted recs) records) acc w).
Proof.
  intros Hp. induction records as [|r records IH]; intros acc w; [reflexivity|].
  cbn [filter]. unfold unlisted at 1.
  pose proof (scan_plain recs (RR r) Hp) as Hid.
  destruct (scan recs (RR r)) as [[|] id] eqn:Hs; cbn [fst snd negb] in *.
  - subst id. rewrite set_loop_skip by assumption. apply IH.
  - rewrite set_loop_create by (now rewrite Hs). rewrite append_loop_step.
    destruct (add_call env p zone r w) as [[a|e] w1]; [apply IH | reflexivity].
Qed.

(** X4. [SetRecords] is the list call followed by [AppendRecords] on the
    records of the batch whose name and type are not listed, its error
    wrapped once more: listed records are left as they are, whatever
    value or TTL is asked for them. *)
Theorem X4_SetRecords_appends_the_unlisted (env : Env) (p : Provider)
  (zone : string) (records : list Record) (w w0 : World)
  (recs : list Record) :
  GetRecords env p zone w = (inl recs, w0) ->
  SetRecords env p zone records w
  = as_created (AppendRecords env p zone (filter (unlisted recs) records) w0).
Proof.
  intros Hg. rewrite SetRecords_unfold, Hg.
  apply set_loop_plain. eapply GetRecords_plain; eassumption.
Qed.

Lemma X4_witness :
  SetRecords plain_env www_provider "example.com."
    [mail_MX; www_A "2.2.2.2" 300; ftp_CNAME] w0
  = as_created
      (AppendRecords plain_env www_provider "example.com."
         (filter (unlisted www_recs) [mail_MX; www_A "2.2.2.2" 300; ftp_CNAME])
         (listed www_provider)).
Proof.
  assert (GetRecords plain_env www_provider "example.com." w0
          = (inl www_recs, listed www_provider)) as Hg
    by (vm_compute; reflexivity).
  exact (X4_SetRecords_appends_the_unlisted plain_env www_provider
           "example.com." [mail_MX; www_A "2.2.2.2" 300; ftp_CNAME] w0
           (listed www_provider) www_recs Hg).
Defined.

(** X5. [DeleteRecords] does not depend on the batch it is given: it
    issues the list call and nothing else, reports no record, and fails
    exactly when the list call fails. *)
Theorem X5_DeleteRecords_only_lists (env : Env) (p : Provider)
  (zone : string) (records : list Record) (w : World) :
  DeleteRecords env p zone records w = DeleteRecords env p zone [] w
  /\ fst (fst (DeleteRecords env p zone records w)) = []
  /\ calls (snd (DeleteRecords env p zone records w))
     = (calls w ++ [list_record p zone])%list
  /\ (snd (fst (DeleteRecords env p zone records w)) = None
      <-> exists recs, fst (GetRecords env p zone w) = inl recs).
Proof.
  pose proof (DeleteRecords_calls env p zone records w) as [Hc Hl].
  split; [|split; [exact Hl | split; [exact Hc|]]].
  - rewrite !DeleteRecords_unfold.
    destruct (GetRecords env p zone w) as [[recs|e] w0] eqn:Hg; [|reflexivity].
    rewrite !delete_loop_plain by (eapply GetRecords_plain; eassumption).
    reflexivity.
  - rewrite DeleteRecords_unfold.
    destruct (GetRecords env p zone w) as [[recs|e] w0] eqn:Hg; cbn [fst snd].
    + rewrite delete_loop_plain by (eapply GetRecords_plain; eassumption).
      cbn. split; [now exists recs | reflexivity].
    + split; [discriminate | intros (recs & Hr); discriminate].
Qed.

(* ================================================================= *)
(** ** [AppendRecords] as it runs *)

(** The records appended so far are handed through the loop untouched. *)
Lemma append_loop_acc (env : Env) (p : Provider) (zone : string)
  (records : list Record) :
  forall acc w,
    append_loop env p zone records acc w
    = ((acc ++ fst (fst (append_loop env p zone records [] w)),
        snd (fst (append_loop env p zone records [] w))),
       snd (append_loop env p zone records [] w))%list.
Proof.
  induction records as [|r records IH]; intros acc w.
  - cbn. now rewrite app_nil_r.
  - rewrite !append_loop_step.
    destruct (add_call env p zone r w) as [[a|e] w1].
    + rewrite (IH (acc ++ [OfRR (RR r)])%list), (IH ([] ++ [OfRR (RR r)])%list).
      cbn [fst snd app]. now rewrite <- app_assoc.
    + cbn. now rewrite app_nil_r.
Qed.

Lemma append_loop_trace (env : Env) (p : Provider) (zone : string)
  (records : list Record) :
  forall acc w, exists n,
    (n <= List.length records)%nat
    /\ fst (fst (append_loop env p zone records acc w))
       = (acc ++ map reported (firstn n records))%list
    /\ match snd (fst (append_loop env p zone records acc w)) with
       | None =>
           n = List.length records
           /\ calls (snd (append_loop env p zone records acc w))
              = (calls w ++ map (add_record env p zone) records)%list
       | Some err =>
           exists r cause,
             nth_error records n = Some r
             /\ err = ErrAppendRecord (libdns.Name (RR r)) zone cause
             /\ calls (snd (append_loop env p zone records acc w))
                = (calls w ++ map (add_record env p zone)
                                  (firstn (S n) records))%list
       end.
Proof.
  induction records as [|r records IH]; intros acc w.
  - exists 0%nat. cbn. rewrite !app_nil_r. auto.
  - rewrite append_loop_step.
    pose proof (add_call_recorded env p zone r w) as Hc.
    destruct (add_call env p zone r w) as [[a|e] w1]; cbn [snd] in Hc.
    + destruct (IH (acc ++ [OfRR (RR r)])%list w1) as (n & Hn & Hl & Hrest).
      exists (S n). split; [cbn; lia|]. split.
      * rewrite Hl. cbn [firstn map]. now rewrite <- app_assoc.
      * destruct (snd (fst (append_loop env p zone records _ w1))) as [err|].
        -- destruct Hrest as (r' & cause & Hnth & He & Hcalls).
           exists r', cause. repeat split; auto.
           rewrite Hcalls, Hc, <- app_assoc. reflexivity.
        -- destruct Hrest as [Hlen Hcalls]. split; [cbn; lia|].
           rewrite Hcalls, Hc, <- app_assoc. reflexivity.
    + exists 0%nat. cbn [fst snd firstn map nth_error List.length].
      split; [lia|]. split; [now rewrite app_nil_r|].
      exists r, e. repeat split. exact Hc.
Qed.

(** X6. [AppendRecords] works through the batch in order, one create call
    per record, and stops at the first call that fails.  It reports the
    first [n] records of the batch, as given.  Without error [n] is the
    whole batch and the calls are its create calls; with an error, the
    error names the record at position [n] and the calls are the create
    calls of the first [n + 1] records. *)
Theorem X6_AppendRecords_reports_a_prefix (env : Env) (p : Provider)
  (zone : string) (records : list Record) (w : World) :
  exists n,
    (n <= List.length records)%nat
    /\ fst (fst (AppendRecords env p zone records w))
       = map reported (firstn n records)
    /\ match snd (fst (AppendRecords env p zone records w)) with
       | None =>
           n = List.length records
           /\ calls (snd (AppendRecords env p zone records w))
              = (calls w ++ map (add_record env p zone) records)%list
       | Some err =>
           exists r cause,
             nth_error records n = Some r
             /\ err = ErrAppendRecord (libdns.Name (RR r)) zone cause
             /\ calls (snd (AppendRecords env p zone records w))
                = (calls w ++ map (add_record env p zone)
                                  (firstn (S n) records))%list
       end.
Proof. exact (append_loop_trace env p zone records [] w). Qed.

(** X7. Appending two batches one after the other, when the first
    succeeds, is appending their concatenation: the same world, the
    reports concatenated, the error of the second. *)
Theorem X7_AppendRecords_composes (env : Env) (p : Provider) (zone : string)
  (a b : list Record) (w w1 w2 : World) (la lb : list Record)
  (e : option error) :
  AppendRecords env p zone a w = ((la, None), w1) ->
  AppendRecords env p zone b w1 = ((lb, e), w2) ->
  AppendRecords env p zone (a ++ b) w = ((la ++ lb)%list, e, w2).
Proof.
  unfold AppendRecords. intros Ha Hb.
  rewrite append_loop_app, Ha, append_loop_acc, Hb. reflexivity.
Qed.

Lemma X7_witness :
  AppendRecords plain_env www_provider "example.com."
    ([mail_MX] ++ [ftp_CNAME]) w0
  = (([mail_MX] ++ [ftp_CNAME])%list, None,
     snd (AppendRecords plain_env www_provider "example.com." [ftp_CNAME]
            (snd (AppendRecords plain_env www_provider "example.com."
                    [mail_MX] w0)))).
Proof.
  assert (AppendRecords plain_env www_provider "example.com." [mail_MX] w0
          = (([mail_MX], None),
             snd (AppendRecords plain_env www_provider "example.com."
                    [mail_MX] w0))) as Ha
    by (vm_compute; reflexivity).
  assert (AppendRecords plain_env www_provider "example.com." [ftp_CNAME]
            (snd (AppendRecords plain_env www_provider "example.com."
                    [mail_MX] w0))
          = (([ftp_CNAME], None),
             snd (AppendRecords plain_env www_provider "example.com."
                    [ftp_CNAME]
                    (snd (AppendRecords plain_env www_provider "example.com."
                            [mail_MX] w0))))) as Hb
    by (vm_compute; reflexivity).
  exact (X7_AppendRecords_composes plain_env www_provider "example.com."
           [mail_MX] [ftp_CNAME] w0 _ _ [mail_MX] [ftp_CNAME] None Ha Hb).
Defined.

(* ================================================================= *)
(** ** The zone and its trailing dot *)

Section SameDomain.

Variable env : Env.
Variable p : Provider.
Variables z1 z2 : string.
Hypothesis same_domain :
  libdnsZoneToDnslaDomain z1 = libdnsZoneToDnslaDomain z2.

Lemma add_call_domain (record : Record) :
  add_call env p z1 record = add_call env p z2 record.
Proof. unfold add_call. now rewrite same_domain. Qed.

Lemma edit_call_domain (record : Record) (recordId : string) :
  edit_call env p z1 record recordId = edit_call env p z2 record recordId.
Proof. unfold edit_call. now rewrite same_domain. Qed.

Lemma delete_call_domain (recordId : string) :
  delete_call env p z1 recordId = delete_call env p z2 recordId.
Proof. unfold delete_call. now rewrite same_domain. Qed.

Lemma same_effect_refl (r : Outcome * World) : same_effect r r.
Proof. unfold same_effect. tauto. Qed.

Lemma same_effect_failed (l : list Record) (e1 e2 : error) (w : World) :
  same_effect ((l, Some e1), w) ((l, Some e2), w).
Proof. unfold same_effect. cbn. repeat split; discriminate. Qed.

Lemma append_loop_domain (records : list Record) :
  forall acc w,
    same_effect (append_loop env p z1 records acc w)
                (append_loop env p z2 records acc w).
Proof.
  induction records as [|r records IH]; intros acc w;
    [apply same_effect_refl|].
  rewrite !append_loop_step, add_call_domain.
  destruct (add_call env p z2 r w) as [[a|e] w1];
    [apply IH | apply same_effect_failed].
Qed.

Lemma set_loop_domain (recs records : list Record) :
  forall acc w,
    same_effect (set_loop env p z1 recs records acc w)
                (set_loop env p z2 recs records acc w).
Proof.
  induction records as [|r records IH]; intros acc w;
    [apply same_effect_refl|].
  destruct (scan recs (RR r)) as [[|] id] eqn:Hs.
  - destruct (String.eqb_spec id "") as [->|Hid].
    + rewrite !set_loop_skip by assumption. apply IH.
    + rewrite !(set_loop_edit _ _ _ _ _ _ _ _ _ Hs Hid), edit_call_domain.
      destruct (edit_call env p z2 r id w) as [[resp|e] w1];
        [destruct (upd_Code resp =? 1); apply IH | apply same_effect_failed].
  - rewrite !set_loop_create by (now rewrite Hs). rewrite add_call_domain.
    destruct (add_call env p z2 r w) as [[a|e] w1];
      [apply IH | apply same_effect_failed].
Qed.

Lemma delete_loop_domain (recs records : list Record) :
  forall acc w,
    same_effect (delete_loop env p z1 recs records acc w)
                (delete_loop env p z2 recs records acc w).
Proof.
  induction records as [|r records IH]; intros acc w;
    [apply same_effect_refl|].
  destruct (String.eqb_spec (snd (scan recs (RR r))) "") as [Hid|Hid].
  - rewrite !delete_loop_skip by assumption. apply IH.
  - rewrite !(delete_loop_call _ _ _ _ _ _ _ _ Hid), delete_call_domain.
    destruct (delete_call env p z2 _ w) as [[resp|e] w1];
      [destruct (del_Code resp =? 1); apply IH | apply same_effect_failed].
Qed.

(** The two listings are the same listing, or fail in the same world. *)
Lemma GetRecords_domain (w : World) :
  snd (GetRecords env p z1 w) = snd (GetRecords env p z2 w)
  /\ match fst (GetRecords env p z1 w), fst (GetRecords env p z2 w) with
     | inl a, inl b => a = b
     | inr _, inr _ => True
     | _, _ => False
     end.
Proof.
  unfold GetRecords, bind. rewrite same_domain.
  destruct (MakeApiRequestWithClient _ _ _ _ _ _ _ w) as [[r|e] w1];
    cbn; auto.
Qed.

End SameDomain.

(** X8. Two zones that differ in the trailing dot only are the same zone
    to every operation: the same calls and requests, the same records
    reported, failure in the same cases.  (Only the text of an error, which
    quotes the zone as given, tells them apart.) *)
Theorem X8_trailing_dot_is_immaterial (env : Env) (p : Provider)
  (z1 z2 : string) :
  libdnsZoneToDnslaDomain z1 = libdnsZoneToDnslaDomain z2 ->
  (forall w,
     snd (GetRecords env p z1 w) = snd (GetRecords env p z2 w)
     /\ match fst (GetRecords env p z1 w), fst (GetRecords env p z2 w) with
        | inl a, inl b => a = b
        | inr _, inr _ => True
        | _, _ => False
        end)
  /\ (forall records w,
        same_effect (AppendRecords env p z1 records w)
                    (AppendRecords env p z2 records w))
  /\ (forall records w,
        same_effect (SetRecords env p z1 records w)
                    (SetRecords env p z2 records w))
  /\ (forall records w,
        same_effect (DeleteRecords env p z1 records w)
                    (DeleteRecords env p z2 records w)).
Proof.
  intros H. split; [|split; [|split]].
  - intros w. exact (GetRecords_domain env p z1 z2 H w).
  - intros records w. exact (append_loop_domain env p z1 z2 H records [] w).
  - intros records w. rewrite !SetRecords_unfold.
    destruct (GetRecords_domain env p z1 z2 H w) as [Hw Hr].
    destruct (GetRecords env p z1 w) as [[a|e1] wa],
             (GetRecords env p z2 w) as [[b|e2] wb];
      cbn [fst snd] in *; subst; try contradiction.
    + exact (set_loop_domain env p z1 z2 H b records [] wb).
    + apply same_effect_failed.
  - intros records w. rewrite !DeleteRecords_unfold.
    destruct (GetRecords_domain env p z1 z2 H w) as [Hw Hr].
    destruct (GetRecords env p z1 w) as [[a|e1] wa],
             (GetRecords env p z2 w) as [[b|e2] wb];
      cbn [fst snd] in *; subst; try contradiction.
    + exact (delete_loop_domain env p z1 z2 H b records [] wb).
    + apply same_effect_failed.
Qed.

Lemma X8_witness :
  same_effect
    (SetRecords plain_env www_provider "example.com." [mail_MX; ftp_CNAME] w0)
    (SetRecords plain_env www_provider "example.com" [mail_MX; ftp_CNAME] w0).
Proof.
  exact (proj1 (proj2 (proj2 (X8_trailing_dot_is_immaterial plain_env
                                www_provider "example.com." "example.com"
                                eq_refl)))
           [mail_MX; ftp_CNAME] w0).
Defined.

(* ================================================================= *)
(** ** Failures that every operation passes on *)

Lemma MakeApiRequestWithClient_no_tz (env : Env) {T : Type} `{Unmarshal T}
  (client : Client) (method endpoint params appKey : string)
  (responseType : T) (w : World) :
  LoadLocation env = false ->
  MakeApiRequestWithClient env client method endpoint params appKey
    responseType w
  = (inr ErrLoadTimezone, after_call w (mkApiCall method endpoint params)).
Proof.
  intros Htz. unfold MakeApiRequestWithClient, bind, log_call, ret.
  rewrite Htz. reflexivity.
Qed.

Lemma GetRecords_no_tz (env : Env) (p : Provider) (zone : string) (w : World) :
  LoadLocation env = false ->
  GetRecords env p zone w
  = (inr (ErrGetRecords zone ErrLoadTimezone),
     after_call w (list_record p zone)).
Proof.
  intros Htz. unfold GetRecords, bind.
  rewrite MakeApiRequestWithClient_no_tz by assumption. reflexivity.
Qed.

(** X9. Without the time zone database nothing is ever sent: the list
    call fails with the time zone error, and so do [SetRecords] and
    [DeleteRecords], whatever the batch, and [AppendRecords] on its first
    record; the clock is not read and no request reaches the client. *)
Theorem X9_no_time_zone_no_request (env : Env) (p : Provider) (zone : string) :
  LoadLocation env = false ->
  (forall w,
     GetRecords env p zone w
     = (inr (ErrGetRecords zone ErrLoadTimezone),
        after_call w (list_record p zone)))
  /\ (forall record rest w,
        AppendRecords env p zone (record :: rest) w
        = (([], Some (ErrAppendRecord (libdns.Name (RR record)) zone
                        ErrLoadTimezone)),
           after_call w (add_record env p zone record)))
  /\ (forall records w,
        SetRecords env p zone records w
        = (([], Some (ErrGetExisting (ErrGetRecords zone ErrLoadTimezone))),
           after_call w (list_record p zone)))
  /\ (forall records w,
        DeleteRecords env p zone records w
        = (([], Some (ErrGetExisting (ErrGetRecords zone ErrLoadTimezone))),
           after_call w (list_record p zone))).
Proof.
  intros Htz. split; [|split; [|split]].
  - intros w. exact (GetRecords_no_tz env p zone w Htz).
  - intros record rest w. unfold AppendRecords.
    rewrite append_loop_step. unfold add_call.
    rewrite MakeApiRequestWithClient_no_tz by assumption. reflexivity.
  - intros records w.
    rewrite SetRecords_unfold, GetRecords_no_tz by assumption. reflexivity.
  - intros records w.
    rewrite DeleteRecords_unfold, GetRecords_no_tz by assumption. reflexivity.
Qed.

Lemma X9_witness :
  SetRecords no_tz_env www_provider "example.com." [mail_MX] w0
  = (([], Some (ErrGetExisting
                  (ErrGetRecords "example.com." ErrLoadTimezone))),
     after_call w0 (list_record www_provider "example.com.")).
Proof.
  exact (proj1 (proj2 (proj2 (X9_no_time_zone_no_request no_tz_env
                                www_provider "example.com." eq_refl)))
           [mail_MX] w0).
Defined.

Lemma MakeApiRequestWithClient_rejected (env : Env) {T : Type} `{Unmarshal T}
  (client : Client) (method endpoint params appKey : string)
  (responseType : T) (w : World) (msg : string) (code : Z) :
  ready env -> rejects client msg code ->
  fst (MakeApiRequestWithClient env client method endpoint params appKey
         responseType w)
  = inr (ErrAPI msg code).
Proof.
  intros (Htz & Hj & Hu & Hn) (Hcode & Hc).
  destruct (Hu (ApiBase ++ endpoint)) as (u & Eu).
  destruct (Hc (wire w)
              (mkHttpRequest method u form_urlencoded
                 (body_str endpoint params (Now env (clock w)) appKey)))
    as (resp & Er & Hs & Hre & Hcr).
  rewrite (MakeApiRequestWithClient_receives env client method endpoint params
             appKey responseType w resp).
  - unfold read_response, http_StatusOK. rewrite Hs, Hre, Hcr.
    cbn [Z.eqb Pos.eqb negb Code Msg].
    destruct (Z.eqb_spec code 1); [contradiction | reflexivity].
  - split; [exact Htz|]. split; [apply Hj|]. exists u. auto.
Qed.

(** X10. When the vendor rejects every request (status 200, an envelope
    whose code is not 1), as it does for the credentials of the package's
    tests, every operation returns no record and an error that carries the
    vendor's code and message. *)
Theorem X10_rejected_credentials (env : Env) (p : Provider) (zone : string)
  (msg : string) (code : Z) :
  ready env -> rejects (getHTTPClient env p) msg code ->
  (forall w,
     fst (GetRecords env p zone w) = inr (ErrGetRecords zone (ErrAPI msg code)))
  /\ (forall record rest w,
        fst (AppendRecords env p zone (record :: rest) w)
        = ([], Some (ErrAppendRecord (libdns.Name (RR record)) zone
                       (ErrAPI msg code))))
  /\ (forall records w,
        fst (SetRecords env p zone records w)
        = ([], Some (ErrGetExisting (ErrGetRecords zone (ErrAPI msg code)))))
  /\ (forall records w,
        fst (DeleteRecords env p zone records w)
        = ([], Some (ErrGetExisting (ErrGetRecords zone (ErrAPI msg code))))).
Proof.
  intros Hready Hrej.
  assert (forall w,
            fst (GetRecords env p zone w)
            = inr (ErrGetRecords zone (ErrAPI msg code))) as Hg.
  { intros w. unfold GetRecords, bind.
    pose proof (MakeApiRequestWithClient_rejected env (getHTTPClient env p)
                  "POST" "/api/resolution/list"
                  (list_params p (libdnsZoneToDnslaDomain zone)) (APPKey p)
                  zero_ResolutionList w msg code Hready Hrej) as E.
    destruct (MakeApiRequestWithClient _ _ _ _ _ _ _ w) as [r w1].
    cbn [fst] in E. subst r. reflexivity. }
  split; [exact Hg | split; [|split]].
  - intros record rest w. unfold AppendRecords. rewrite append_loop_step.
    pose proof (MakeApiRequestWithClient_rejected env (getHTTPClient env p)
                  "POST" add_endpoint
                  (add_params env p (libdnsZoneToDnslaDomain zone) (RR record))
                  (APPKey p) zero_AddDomainRecord w msg code Hready Hrej) as E.
    unfold add_call.
    destruct (MakeApiRequestWithClient _ _ _ _ _ _ _ w) as [r w1].
    cbn [fst] in E. subst r. reflexivity.
  - intros records w. rewrite SetRecords_unfold. specialize (Hg w).
    destruct (GetRecords env p zone w) as [r w1]. cbn [fst] in Hg. subst r.
    reflexivity.
  - intros records w. rewrite DeleteRecords_unfold. specialize (Hg w).
    destruct (GetRecords env p zone w) as [r w1]. cbn [fst] in Hg. subst r.
    reflexivity.
Qed.

Lemma plain_env_ready : ready plain_env.
Proof.
  split; [reflexivity|]. split; [reflexivity|]. split.
  - intros s. now exists s.
  - reflexivity.
Qed.

Lemma test_vendor_rejects :
  rejects (getHTTPClient plain_env test_provider) "invalid appid" 0.
Proof.
  split; [discriminate|]. intros history req.
  exists (ok invalid_appid). repeat split.
Qed.

Lemma X10_witness :
  fst (AppendRecords plain_env test_provider "388vip.com" [jump_test] w0)
  = ([], Some (ErrAppendRecord "jump-test" "388vip.com"
                 (ErrAPI "invalid appid" 0)))
  /\ fst (SetRecords plain_env test_provider "388vip.com" [jump_test] w0)
     = ([], Some (ErrGetExisting
                    (ErrGetRecords "388vip.com" (ErrAPI "invalid appid" 0)))).
Proof.
  split.
  - exact (proj1 (proj2 (X10_rejected_credentials plain_env test_provider
                           "388vip.com" "invalid appid" 0 plain_env_ready
                           test_vendor_rejects))
             jump_test [] w0).
  - exact (proj1 (proj2 (proj2 (X10_rejected_credentials plain_env
                                  test_provider "388vip.com" "invalid appid" 0
                                  plain_env_ready test_vendor_rejects)))
             [jump_test] w0).
Defined.

(* ================================================================= *)
(** ** No request is repeated *)

Lemma sends_none (w : World) : sends_at_most 0 w w.
Proof. exists []. split; [now rewrite app_nil_r | reflexivity]. Qed.

Lemma sends_more (a b : nat) (w w' : World) :
  (a <= b)%nat -> sends_at_most a w w' -> sends_at_most b w w'.
Proof. intros Hab (sent & Hw & Hl). exists sent. split; [exact Hw | lia]. Qed.

Lemma sends_then (a b : nat) (w w1 w2 : World) :
  sends_at_most a w w1 -> sends_at_most b w1 w2 ->
  sends_at_most (a + b) w w2.
Proof.
  intros (s1 & H1 & L1) (s2 & H2 & L2). exists (s1 ++ s2)%list.
  rewrite H2, H1, <- app_assoc, length_app. split; [reflexivity | lia].
Qed.

Lemma call_sends_one (env : Env) {T : Type} `{Unmarshal T} (client : Client)
  (method endpoint params appKey : string) (responseType : T) (w : World) :
  sends_at_most 1 w
    (snd (MakeApiRequestWithClient env client method endpoint params appKey
            responseType w)).
Proof.
  destruct (MakeApiRequestWithClient_cases env client method endpoint params
              appKey responseType w) as [_ [[Hw _] | (u & _ & _ & Hw & _)]].
  - exists []. rewrite Hw, app_nil_r. split; [reflexivity | cbn; lia].
  - cbv zeta in Hw. eexists. split; [exact Hw | reflexivity].
Qed.

Lemma append_loop_sends (env : Env) (p : Provider) (zone : string)
  (records : list Record) :
  forall acc w,
    sends_at_most (List.length records) w
      (snd (append_loop env p zone records acc w)).
Proof.
  induction records as [|r records IH]; intros acc w; [apply sends_none|].
  rewrite append_loop_step.
  pose proof (call_sends_one env (getHTTPClient env p) "POST" add_endpoint
                (add_params env p (libdnsZoneToDnslaDomain zone) (RR r))
                (APPKey p) zero_AddDomainRecord w) as Hc.
  fold (add_call env p zone r) in Hc.
  destruct (add_call env p zone r w) as [[a|e] w1]; cbn [snd] in *.
  - exact (sends_then 1 _ _ _ _ Hc (IH _ w1)).
  - apply (sends_more 1); [cbn; lia | exact Hc].
Qed.

Lemma set_loop_sends (env : Env) (p : Provider) (zone : string)
  (recs records : list Record) :
  forall acc w,
    sends_at_most (List.length records) w
      (snd (set_loop env p zone recs records acc w)).
Proof.
  induction records as [|r records IH]; intros acc w; [apply sends_none|].
  destruct (scan recs (RR r)) as [[|] id] eqn:Hs.
  - destruct (String.eqb_spec id "") as [->|Hid].
    + rewrite set_loop_skip by assumption.
      apply (sends_more (List.length records)); [cbn; lia | apply IH].
    + rewrite (set_loop_edit _ _ _ _ _ _ _ _ _ Hs Hid).
      pose proof (call_sends_one env (getHTTPClient env p) "POST"
                    edit_endpoint
                    (edit_params env p (libdnsZoneToDnslaDomain zone) (RR r) id)
                    (APPKey p) zero_UpdateDomainRecord w) as Hc.
      fold (edit_call env p zone r id) in Hc.
      destruct (edit_call env p zone r id w) as [[resp|e] w1]; cbn [snd] in *.
      * destruct (upd_Code resp =? 1);
          exact (sends_then 1 _ _ _ _ Hc (IH _ w1)).
      * apply (sends_more 1); [cbn; lia | exact Hc].
  - rewrite set_loop_create by (rewrite Hs; reflexivity).
    pose proof (call_sends_one env (getHTTPClient env p) "POST" add_endpoint
                  (add_params env p (libdnsZoneToDnslaDomain zone) (RR r))
                  (APPKey p) zero_AddDomainRecord w) as Hc.
    fold (add_call env p zone r) in Hc.
    destruct (add_call env p zone r w) as [[a|e] w1]; cbn [snd] in *.
    + exact (sends_then 1 _ _ _ _ Hc (IH _ w1)).
    + apply (sends_more 1); [cbn; lia | exact Hc].
Qed.

Lemma GetRecords_sends (env : Env) (p : Provider) (zone : string) (w : World) :
  sends_at_most 1 w (snd (GetRecords env p zone w)).
Proof.
  unfold GetRecords, bind.
  pose proof (call_sends_one env (getHTTPClient env p) "POST"
                "/api/resolution/list"
                (list_params p (libdnsZoneToDnslaDomain zone)) (APPKey p)
                zero_ResolutionList w) as Hc.
  destruct (MakeApiRequestWithClient _ _ _ _ _ _ _ w) as [[r|e] w1]; exact Hc.
Qed.

(** X11. No operation repeats a request: [GetRecords] hands at most one
    request to the client, [AppendRecords] at most one per record,
    [SetRecords] at most one more than that, [DeleteRecords] at most one;
    and what was sent before stays as it was. *)
Theorem X11_no_request_is_repeated (env : Env) (p : Provider) (zone : string)
  (records : list Record) (w : World) :
  sends_at_most 1 w (snd (GetRecords env p zone w))
  /\ sends_at_most (List.length records) w
       (snd (AppendRecords env p zone records w))
  /\ sends_at_most (1 + List.length records) w
       (snd (SetRecords env p zone records w))
  /\ sends_at_most 1 w (snd (DeleteRecords env p zone records w)).
Proof.
  pose proof (GetRecords_sends env p zone w) as Hg.
  split; [exact Hg
         | split; [exact (append_loop_sends env p zone records [] w) | split]].
  - rewrite SetRecords_unfold.
    destruct (GetRecords env p zone w) as [[recs|e] w1]; cbn [snd] in *.
    + exact (sends_then 1 _ _ _ _ Hg (set_loop_sends env p zone recs records [] w1)).
    + apply (sends_more 1); [lia | exact Hg].
  - rewrite DeleteRecords_unfold.
    destruct (GetRecords env p zone w) as [[recs|e] w1] eqn:E; cbn [snd] in *.
    + rewrite delete_loop_plain by (eapply GetRecords_plain; eassumption).
      exact Hg.
    + exact Hg.
Qed.

(* ================================================================= *)
(** * The earlier revision *)

Section EarlierFacts.

Variable env : Env.
Variable client : Client.
Variable close_fails : HttpResponse -> bool.

(** An invocation of the earlier [MakeApiRequest] records itself, and a
    payload it returns was made by [read_response] from some answer. *)
Lemma earlier_call_recorded {T : Type} `{Unmarshal T}
  (method endpoint params appKey : string) (responseType : T) (w : World) :
  calls (snd (legacy.MakeApiRequest env client close_fails method endpoint
                params appKey responseType w))
  = (calls w ++ [mkApiCall method endpoint params])%list.
Proof.
  unfold legacy.MakeApiRequest, log_call, time_Now, client_Do.
  cbn [clock calls wire].
  destruct (LoadLocation env); cbn [negb]; [|reflexivity].
  destruct (join_fails env _); [reflexivity|].
  destruct (url_Parse env _) as [u|]; [|reflexivity].
  destruct (NewRequest_ok env method u); cbn [negb]; [|reflexivity].
  destruct (client _ _) as [resp|]; [|reflexivity].
  destruct (close_fails resp); reflexivity.
Qed.

Lemma earlier_payload_was_read {T : Type} `{Unmarshal T}
  (method endpoint params appKey : string) (responseType t : T)
  (w w' : World) :
  legacy.MakeApiRequest env client close_fails method endpoint params appKey
    responseType w = (legacy.Returns (inl t), w') ->
  exists resp, legacy.read_response resp responseType = inl t.
Proof.
  unfold legacy.MakeApiRequest, log_call, time_Now, client_Do.
  cbn [clock calls wire].
  destruct (LoadLocation env); cbn [negb]; [|discriminate].
  destruct (join_fails env _); [discriminate|].
  destruct (url_Parse env _) as [u|]; [|discriminate].
  destruct (NewRequest_ok env method u); cbn [negb]; [|discriminate].
  destruct (client _ _) as [resp|]; [|discriminate].
  destruct (close_fails resp); [discriminate|].
  intros E. inversion E. now exists resp.
Qed.

Lemma earlier_read_response_payload {T : Type} `{Unmarshal T}
  (resp : HttpResponse) (responseType t : T) :
  legacy.read_response resp responseType = inl t ->
  exists c,
    json_Unmarshal (RespBody resp) zero_CommonResponse = Some c
    /\ Code c = 1
    /\ json_Unmarshal (RespBody resp) responseType = Some t.
Proof.
  unfold legacy.read_response, http_StatusOK. intros Hr.
  destruct (StatusCode resp =? 200); [|discriminate]. cbn [negb] in Hr.
  destruct (ReadError resp); [discriminate|].
  destruct (json_Unmarshal (RespBody resp) zero_CommonResponse) as [c|] eqn:Hcr;
    [|discriminate].
  destruct (Z.eqb_spec (Code c) 1) as [H1|]; [|discriminate].
  cbn [negb] in Hr.
  destruct (json_Unmarshal (RespBody resp) responseType) as [t'|] eqn:Ht;
    [|discriminate].
  inversion Hr; subst t'. exists c. auto.
Qed.

Lemma earlier_edit_code (p : legacy.Provider) (zone : string)
  (record : legacy.libdns.Record) (recordId : Z) (w w1 : World)
  (response : UpdateDomainRecord) :
  earlier_edit_call env client close_fails p zone record recordId w
  = (legacy.Returns (inl response), w1) ->
  upd_Code response = 1.
Proof.
  intros E.
  destruct (earlier_payload_was_read _ _ _ _ _ _ _ _ E) as (resp & Hr).
  destruct (earlier_read_response_payload _ _ _ Hr) as (c & Hc & H1 & Ht).
  destruct (RespBody resp) as [raw|v]; [discriminate|].
  rewrite (update_code_is_envelope_code v c response Hc Ht). exact H1.
Qed.

Lemma earlier_delete_code (p : legacy.Provider) (zone recordId : string)
  (w w1 : World) (response : DeleteDomainRecord) :
  earlier_delete_call env client close_fails p zone recordId w
  = (legacy.Returns (inl response), w1) ->
  del_Code response = 1.
Proof.
  intros E.
  destruct (earlier_payload_was_read _ _ _ _ _ _ _ _ E) as (resp & Hr).
  destruct (earlier_read_response_payload _ _ _ Hr) as (c & Hc & H1 & Ht).
  destruct (RespBody resp) as [raw|v]; [discriminate|].
  rewrite (delete_code_is_envelope_code v c response Hc Ht). exact H1.
Qed.

(** One iteration of each loop. *)
Lemma earlier_append_step (p : legacy.Provider) (zone : string)
  (record : legacy.libdns.Record) (rest acc : list legacy.libdns.Record)
  (w : World) :
  legacy.append_loop env client close_fails p zone (record :: rest) acc w
  = match earlier_add_call env client close_fails p zone record w with
    | (legacy.Returns (inr err), w1) => (legacy.Returns ([], Some err), w1)
    | (legacy.Returns (inl response), w1) =>
        legacy.append_loop env client close_fails p zone rest
          (acc ++ [legacy.libdns.mkRecord (format_d (add_Data response))
                     (legacy.libdns.Type_ record) (legacy.libdns.Name record)
                     (legacy.libdns.Value record) (legacy.libdns.TTL record) 0
                     (legacy.libdns.Weight record)]) w1
    | (legacy.Panics, w1) => (legacy.Panics, w1)
    | (legacy.Exits, w1) => (legacy.Exits, w1)
    end.
Proof.
  cbn [legacy.append_loop]. unfold legacy.lbind, earlier_add_call.
  destruct (legacy.MakeApiRequest _ _ _ _ _ _ _ _ w) as [[[r|e]| |] w1];
    reflexivity.
Qed.

Lemma earlier_delete_step (p : legacy.Provider) (zone : string)
  (recs : list legacy.libdns.Record) (record : legacy.libdns.Record)
  (rest acc : list legacy.libdns.Record) (w : World) :
  legacy.delete_loop env client close_fails p zone recs (record :: rest) acc w
  = match earlier_delete_call env client close_fails p zone
            (legacy.libdns.ID (legacy.resolved recs record)) w with
    | (legacy.Returns (inr err), w1) => (legacy.Returns (acc, Some err), w1)
    | (legacy.Returns (inl _), w1) =>
        legacy.delete_loop env client close_fails p zone recs rest
          (acc ++ [legacy.resolved recs record]) w1
    | (legacy.Panics, w1) => (legacy.Panics, w1)
    | (legacy.Exits, w1) => (legacy.Exits, w1)
    end.
Proof.
  cbn [legacy.delete_loop]. unfold legacy.lbind.
  pose proof (earlier_delete_code p zone
                (legacy.libdns.ID (legacy.resolved recs record)) w) as Hcode.
  unfold earlier_delete_call in *.
  destruct (legacy.MakeApiRequest _ _ _ _ _ _ _ _ w) as [[[r|e]| |] w1];
    try reflexivity.
  now rewrite (Hcode w1 r eq_refl).
Qed.

End EarlierFacts.




Lemma earlier_append_trace (env : Env) (client : Client)
  (close_fails : HttpResponse -> bool) (p : legacy.Provider) (zone : string)
  (records : list legacy.libdns.Record) :
  forall acc w l e w',
    legacy.append_loop env client close_fails p zone records acc w
    = (legacy.Returns (l, e), w') ->
    match e with
    | Some err =>
        l = []
        /\ exists n,
             (n < List.length records)%nat
             /\ calls w' = (calls w ++ map (earlier_add_record env p zone)
                                           (firstn (S n) records))%list
    | None =>
        exists out,
          l = (acc ++ out)%list
          /\ Forall2 kept out records
          /\ calls w' = (calls w ++ map (earlier_add_record env p zone)
                                        records)%list
    end.
Proof.
  induction records as [|r records IH]; intros acc w l e w'.
  - cbn. unfold legacy.lret. intros E. inversion E; subst.
    exists []. rewrite !app_nil_r. repeat split. constructor.
  - rewrite earlier_append_step.
    pose proof (earlier_call_recorded env client close_fails "POST"
                  "/api/resolution/add"
                  (legacy.add_params env p (libdnsZoneToDnslaDomain zone) r)
                  (legacy.APPKey p) zero_AddDomainRecord w) as Hc.
    fold (earlier_add_call env client close_fails p zone r) in Hc.
    fold (earlier_add_record env p zone r) in Hc.
    destruct (earlier_add_call env client close_fails p zone r w)
      as [[[resp|err]| |] w1]; cbn [snd] in Hc; try discriminate.
    + intros E. specialize (IH _ _ _ _ _ E).
      destruct e as [err|].
      * destruct IH as [Hl (n & Hn & Hcalls)]. split; [exact Hl|].
        exists (S n). split; [cbn; lia|].
        rewrite Hcalls, Hc, <- app_assoc. reflexivity.
      * destruct IH as (out & Hl & Hk & Hcalls).
        eexists (_ :: out). split; [|split].
        -- rewrite Hl, <- app_assoc. reflexivity.
        -- constructor; [|exact Hk]. unfold kept. cbn. repeat split.
        -- rewrite Hcalls, Hc, <- app_assoc. reflexivity.
    + intros E. inversion E; subst. split; [reflexivity|].
      exists 0%nat. split; [cbn; lia | exact Hc].
Qed.

(** X13. The earlier [AppendRecords] reports all or nothing.  When it
    returns without error it reports one record per input record, with
    the input's name, type, value, TTL and weight (and priority 0), after
    one create call each.  When it returns an error it reports no record
    at all, although the create calls of the records before the failing
    one were issued and had succeeded. *)
Theorem X13_earlier_AppendRecords_is_all_or_nothing (env : Env)
  (client : Client) (close_fails : HttpResponse -> bool)
  (p : legacy.Provider) (zone : string) (records : list legacy.libdns.Record)
  (w w' : World) (l : list legacy.libdns.Record) (e : option legacy.error) :
  legacy.AppendRecords env client close_fails p zone records w
  = (legacy.Returns (l, e), w') ->
  match e with
  | Some err =>
      l = []
      /\ exists n,
           (n < List.length records)%nat
           /\ calls w' = (calls w ++ map (earlier_add_record env p zone)
                                         (firstn (S n) records))%list
  | None =>
      Forall2 kept l records
      /\ calls w' = (calls w ++ map (earlier_add_record env p zone)
                                    records)%list
  end.
Proof.
  intros E. pose proof (earlier_append_trace _ _ _ _ _ _ _ _ _ _ _ E) as H.
  destruct e as [err|]; [exact H|].
  destruct H as (out & Hl & Hk & Hc). cbn in Hl. subst l. auto.
Qed.

Lemma X13_witness :
  @nil legacy.libdns.Record = []
  /\ exists n,
       (n < List.length [earlier_mail; earlier_www "" "2.2.2.2" 300])%nat
       /\ calls (snd (legacy.AppendRecords plain_env
                        (script_client [ok success; ok invalid_appid]) closes
                        earlier_provider "example.com."
                        [earlier_mail; earlier_www "" "2.2.2.2" 300] w0))
          = (calls w0
             ++ map (earlier_add_record plain_env earlier_provider
                       "example.com.")
                    (firstn (S n)
                       [earlier_mail; earlier_www "" "2.2.2.2" 300]))%list.
Proof.
  assert (legacy.AppendRecords plain_env
            (script_client [ok success; ok invalid_appid]) closes
            earlier_provider "example.com."
            [earlier_mail; earlier_www "" "2.2.2.2" 300] w0
          = (legacy.Returns ([], Some (legacy.ErrMessage "invalid appid")),
             snd (legacy.AppendRecords plain_env
                    (script_client [ok success; ok invalid_appid]) closes
                    earlier_provider "example.com."
                    [earlier_mail; earlier_www "" "2.2.2.2" 300] w0))) as E
    by (vm_compute; reflexivity).
  exact (X13_earlier_AppendRecords_is_all_or_nothing plain_env
           (script_client [ok success; ok invalid_appid]) closes
           earlier_provider "example.com."
           [earlier_mail; earlier_www "" "2.2.2.2" 300] w0 _ []
           (Some (legacy.ErrMessage "invalid appid")) E).
Defined.

Lemma earlier_delete_trace (env : Env) (client : Client)
  (close_fails : HttpResponse -> bool) (p : legacy.Provider) (zone : string)
  (recs records : list legacy.libdns.Record) :
  forall acc w l e w',
    legacy.delete_loop env client close_fails p zone recs records acc w
    = (legacy.Returns (l, e), w') ->
    exists n,
      l = (acc ++ map (legacy.resolved recs) (firstn n records))%list
      /\ match e with
         | None =>
             n = List.length records
             /\ calls w' = (calls w ++ map (earlier_delete_record p zone recs)
                                           records)%list
         | Some _ =>
             (n < List.length records)%nat
             /\ calls w' = (calls w ++ map (earlier_delete_record p zone recs)
                                           (firstn (S n) records))%list
         end.
Proof.
  induction records as [|r records IH]; intros acc w l e w'.
  - cbn. unfold legacy.lret. intros E. inversion E; subst.
    exists 0%nat. rewrite !app_nil_r. auto.
  - rewrite earlier_delete_step.
    pose proof (earlier_call_recorded env client close_fails "POST"
                  "/api/resolution/delete"
                  (legacy.delete_params p (libdnsZoneToDnslaDomain zone)
                     (legacy.libdns.ID (legacy.resolved recs r)))
                  (legacy.APPKey p) zero_DeleteDomainRecord w) as Hc.
    fold (earlier_delete_call env client close_fails p zone
            (legacy.libdns.ID (legacy.resolved recs r))) in Hc.
    fold (earlier_delete_record p zone recs r) in Hc.
    destruct (earlier_delete_call env client close_fails p zone _ w)
      as [[[resp|err]| |] w1]; cbn [snd] in Hc; try discriminate.
    + intros E. destruct (IH _ _ _ _ _ E) as (n & Hl & Hrest).
      exists (S n). split.
      * rewrite Hl, <- app_assoc. reflexivity.
      * destruct e as [err|]; destruct Hrest as [Hn Hcalls];
          (split; [cbn; lia|]); rewrite Hcalls, Hc, <- app_assoc; reflexivity.
    + intros E. inversion E; subst. exists 0%nat.
      cbn [firstn map]. rewrite app_nil_r. split; [reflexivity|].
      split; [cbn; lia | exact Hc].
Qed.

(** X14. The earlier [DeleteRecords] issues a delete call for every
    target it reaches, listed or not: with the ID of the listed record
    when the target's name and type are listed, with the target's own ID
    otherwise.  It reports every target whose call returned, with the ID
    and the value of the listed record put in for the listed ones, and
    stops at the first call that returns an error. *)
Theorem X14_earlier_DeleteRecords_calls_for_every_target (env : Env)
  (client : Client) (close_fails : HttpResponse -> bool)
  (p : legacy.Provider) (zone : string)
  (records recs : list legacy.libdns.Record) (w w0 w' : World)
  (l : list legacy.libdns.Record) (e : option legacy.error) :
  legacy.GetRecords env client close_fails p zone w
  = (legacy.Returns (inl recs), w0) ->
  legacy.DeleteRecords env client close_fails p zone records w
  = (legacy.Returns (l, e), w') ->
  exists n,
    l = map (legacy.resolved recs) (firstn n records)
    /\ match e with
       | None =>
           n = List.length records
           /\ calls w' = (calls w0 ++ map (earlier_delete_record p zone recs)
                                          records)%list
       | Some _ =>
           (n < List.length records)%nat
           /\ calls w' = (calls w0 ++ map (earlier_delete_record p zone recs)
                                          (firstn (S n) records))%list
       end.
Proof.
  intros Hg. unfold legacy.DeleteRecords, legacy.lbind. rewrite Hg.
  intros E. exact (earlier_delete_trace _ _ _ _ _ _ _ _ _ _ _ _ E).
Qed.

Lemma X14_witness :
  exists n,
    [earlier_mail; earlier_www "1" "1.1.1.1" 300]
    = map (legacy.resolved
             [legacy.libdns.mkRecord "1" "A" "www" "1.1.1.1" (120 * Second) 0 0])
          (firstn n [earlier_mail; earlier_www "" "9.9.9.9" 300])
    /\ n = List.length [earlier_mail; earlier_www "" "9.9.9.9" 300]
    /\ calls (snd (legacy.DeleteRecords plain_env www_client closes
                     earlier_provider "example.com."
                     [earlier_mail; earlier_www "" "9.9.9.9" 300] w0))
       = (calls (snd (legacy.GetRecords plain_env www_client closes
                        earlier_provider "example.com." w0))
          ++ map (earlier_delete_record earlier_provider "example.com."
                    [legacy.libdns.mkRecord "1" "A" "www" "1.1.1.1"
                       (120 * Second) 0 0])
                 [earlier_mail; earlier_www "" "9.9.9.9" 300])%list.
Proof.
  assert (legacy.GetRecords plain_env www_client closes earlier_provider
            "example.com." w0
          = (legacy.Returns
               (inl [legacy.libdns.mkRecord "1" "A" "www" "1.1.1.1"
                       (120 * Second) 0 0]),
             snd (legacy.GetRecords plain_env www_client closes
                    earlier_provider "example.com." w0))) as Hg
    by (vm_compute; reflexivity).
  assert (legacy.DeleteRecords plain_env www_client closes earlier_provider
            "example.com." [earlier_mail; earlier_www "" "9.9.9.9" 300] w0
          = (legacy.Returns
               ([earlier_mail; earlier_www "1" "1.1.1.1" 300], None),
             snd (legacy.DeleteRecords plain_env www_client closes
                    earlier_provider "example.com."
                    [earlier_mail; earlier_www "" "9.9.9.9" 300] w0))) as Hd
    by (vm_compute; reflexivity).
  exact (X14_earlier_DeleteRecords_calls_for_every_target plain_env
           www_client closes earlier_provider "example.com."
           [earlier_mail; earlier_www "" "9.9.9.9" 300] _ w0 _ _ _ None Hg Hd).
Defined.

(** X15. One record of the earlier [SetRecords].  A target whose name and
    type are listed with a numeric ID gets the edit call with that number
    and, when the call returns a payload, is reported with the number as
    its ID and the input's name, type, value, TTL and weight.  A listed
    ID that is not a number ends the operation with the error of
    [strconv.Atoi], without a call.  A target that is not listed gets the
    create call and is reported with the ID the vendor assigned. *)
Theorem X15_earlier_SetRecords_edits_by_listed_id (env : Env)
  (client : Client) (close_fails : HttpResponse -> bool)
  (p : legacy.Provider) (zone : string) (recs : list legacy.libdns.Record)
  (record : legacy.libdns.Record) (rest acc : list legacy.libdns.Record)
  (w : World) :
  (forall rec recordId,
     legacy.lookup recs record = Some rec ->
     Atoi (legacy.libdns.ID rec) = Some recordId ->
     legacy.set_loop env client close_fails p zone recs (record :: rest) acc w
     = match earlier_edit_call env client close_fails p zone record recordId w
       with
       | (legacy.Returns (inr err), w1) => (legacy.Returns (acc, Some err), w1)
       | (legacy.Returns (inl _), w1) =>
           legacy.set_loop env client close_fails p zone recs rest
             (acc ++ [legacy.libdns.mkRecord (format_d recordId)
                        (legacy.libdns.Type_ record) (legacy.libdns.Name record)
                        (legacy.libdns.Value record) (legacy.libdns.TTL record)
                        0 (legacy.libdns.Weight record)]) w1
       | (legacy.Panics, w1) => (legacy.Panics, w1)
       | (legacy.Exits, w1) => (legacy.Exits, w1)
       end)
  /\ (forall rec,
        legacy.lookup recs record = Some rec ->
        Atoi (legacy.libdns.ID rec) = None ->
        legacy.set_loop env client close_fails p zone recs (record :: rest)
          acc w
        = (legacy.Returns (acc, Some (legacy.ErrAtoi (legacy.libdns.ID rec))),
           w))
  /\ (legacy.lookup recs record = None ->
      legacy.set_loop env client close_fails p zone recs (record :: rest) acc w
      = match earlier_add_call env client close_fails p zone record w with
        | (legacy.Returns (inr err), w1) => (legacy.Returns (acc, Some err), w1)
        | (legacy.Returns (inl response), w1) =>
            legacy.set_loop env client close_fails p zone recs rest
              (acc ++ [legacy.libdns.mkRecord (format_d (add_Data response))
                         (legacy.libdns.Type_ record)
                         (legacy.libdns.Name record)
                         (legacy.libdns.Value record)
                         (legacy.libdns.TTL record) 0
                         (legacy.libdns.Weight record)]) w1
        | (legacy.Panics, w1) => (legacy.Panics, w1)
        | (legacy.Exits, w1) => (legacy.Exits, w1)
        end).
Proof.
  split; [|split].
  - intros rec recordId Hl Ha. cbn [legacy.set_loop]. rewrite Hl, Ha.
    unfold legacy.lbind.
    pose proof (earlier_edit_code env client close_fails p zone record
                  recordId w) as Hcode.
    unfold earlier_edit_call in *.
    destruct (legacy.MakeApiRequest _ _ _ _ _ _ _ _ w) as [[[r|e]| |] w1];
      try reflexivity.
    rewrite (Hcode w1 r eq_refl). reflexivity.
  - intros rec Hl Ha. cbn [legacy.set_loop]. rewrite Hl, Ha. reflexivity.
  - intros Hl. cbn [legacy.set_loop]. rewrite Hl.
    unfold legacy.lbind, legacy.AppendRecords.
    rewrite earlier_append_step.
    destruct (earlier_add_call env client close_fails p zone record w)
      as [[[r|e]| |] w1]; reflexivity.
Qed.

Lemma X15_witness :
  legacy.set_loop plain_env www_client closes earlier_provider "example.com."
    [legacy.libdns.mkRecord "007" "A" "www" "1.1.1.1" (120 * Second) 0 0]
    (earlier_www "" "2.2.2.2" 300 :: []) [] w0
  = match earlier_edit_call plain_env www_client closes earlier_provider
            "example.com." (earlier_www "" "2.2.2.2" 300) 7 w0 with
    | (legacy.Returns (inr err), w1) => (legacy.Returns ([], Some err), w1)
    | (legacy.Returns (inl _), w1) =>
        legacy.set_loop plain_env www_client closes earlier_provider
          "example.com."
          [legacy.libdns.mkRecord "007" "A" "www" "1.1.1.1" (120 * Second) 0 0]
          []
          ([] ++ [legacy.libdns.mkRecord (format_d 7)
                    (legacy.libdns.Type_ (earlier_www "" "2.2.2.2" 300))
                    (legacy.libdns.Name (earlier_www "" "2.2.2.2" 300))
                    (legacy.libdns.Value (earlier_www "" "2.2.2.2" 300))
                    (legacy.libdns.TTL (earlier_www "" "2.2.2.2" 300)) 0
                    (legacy.libdns.Weight (earlier_www "" "2.2.2.2" 300))]) w1
    | (legacy.Panics, w1) => (legacy.Panics, w1)
    | (legacy.Exits, w1) => (legacy.Exits, w1)
    end.
Proof.
  exact (proj1 (X15_earlier_SetRecords_edits_by_listed_id plain_env www_client
                  closes earlier_provider "example.com."
                  [legacy.libdns.mkRecord "007" "A" "www" "1.1.1.1"
                     (120 * Second) 0 0]
                  (earlier_www "" "2.2.2.2" 300) [] [] w0)
           _ 7 eq_refl eq_refl).
Defined.

(** The scenario of the specification on the earlier revision: one edit
    call with the listed ID, and the input record reported. *)
Example earlier_SetRecords_edits_www :
  legacy.SetRecords plain_env www_client closes earlier_provider "example.com."
    [earlier_www "" "2.2.2.2" 300] w0
  = (legacy.Returns ([earlier_www "1" "2.2.2.2" 300], None),
     snd (legacy.SetRecords plain_env www_client closes earlier_provider
            "example.com." [earlier_www "" "2.2.2.2" 300] w0))
  /\ calls (snd (legacy.SetRecords plain_env www_client closes
                   earlier_provider "example.com."
                   [earlier_www "" "2.2.2.2" 300] w0))
     = [mkApiCall "POST" "/api/resolution/list" "appid=app&ym=example.com";
        mkApiCall "POST" "/api/resolution/edit"
          "appid=app&ym=example.com&lx=A&zj=www&jlz=2.2.2.2&mx=0&ttl=300&jxid=1"].
Proof. vm_compute. split; reflexivity. Qed.

Lemma earlier_MakeApiRequest_no_tz {T : Type} `{Unmarshal T} (env : Env)
  (client : Client) (close_fails : HttpResponse -> bool)
  (method endpoint params appKey : string) (responseType : T) (w : World) :
  LoadLocation env = false ->
  fst (legacy.MakeApiRequest env client close_fails method endpoint params
         appKey responseType w) = legacy.Panics
  /\ wire (snd (legacy.MakeApiRequest env client close_fails method endpoint
                  params appKey responseType w)) = wire w.
Proof.
  intros Htz. unfold legacy.MakeApiRequest. rewrite Htz. cbn. auto.
Qed.

Lemma earlier_lbind_panics {A B : Type} (m : legacy.L A) (k : A -> legacy.L B)
  (w : World) :
  fst (m w) = legacy.Panics ->
  fst (legacy.lbind m k w) = legacy.Panics
  /\ snd (legacy.lbind m k w) = snd (m w).
Proof.
  unfold legacy.lbind. destruct (m w) as [[a| |] w1]; cbn; intros E;
    try discriminate; auto.
Qed.

(** X16. Without the time zone database the earlier revision does not
    fail with an error: the result of [time.LoadLocation] is used
    unchecked, and the list call of [GetRecords], [SetRecords] and
    [DeleteRecords] and the first call of [AppendRecords] panic.  No
    request has reached the client by then. *)
Theorem X16_earlier_revision_panics_without_time_zone (env : Env)
  (client : Client) (close_fails : HttpResponse -> bool)
  (p : legacy.Provider) (zone : string) :
  LoadLocation env = false ->
  (forall w,
     fst (legacy.GetRecords env client close_fails p zone w) = legacy.Panics
     /\ wire (snd (legacy.GetRecords env client close_fails p zone w))
        = wire w)
  /\ (forall record rest w,
        fst (legacy.AppendRecords env client close_fails p zone
               (record :: rest) w) = legacy.Panics
        /\ wire (snd (legacy.AppendRecords env client close_fails p zone
                        (record :: rest) w)) = wire w)
  /\ (forall records w,
        fst (legacy.SetRecords env client close_fails p zone records w)
        = legacy.Panics
        /\ wire (snd (legacy.SetRecords env client close_fails p zone
                        records w)) = wire w)
  /\ (forall records w,
        fst (legacy.DeleteRecords env client close_fails p zone records w)
        = legacy.Panics
        /\ wire (snd (legacy.DeleteRecords env client close_fails p zone
                        records w)) = wire w).
Proof.
  intros Htz.
  assert (forall w,
            fst (legacy.GetRecords env client close_fails p zone w)
            = legacy.Panics
            /\ wire (snd (legacy.GetRecords env client close_fails p zone w))
               = wire w) as Hget.
  { intros w. unfold legacy.GetRecords.
    match goal with
    | |- fst (legacy.lbind ?m ?k w) = _ /\ _ =>
        match m with
        | @legacy.MakeApiRequest _ _ _ ?T ?I ?me ?en ?pa ?ke ?rt =>
            destruct (@earlier_MakeApiRequest_no_tz T I env client close_fails
                        me en pa ke rt w Htz) as [Hp Hw]
        end;
        destruct (earlier_lbind_panics m k w Hp) as [Hf Hs]
    end.
    split; [exact Hf | rewrite Hs; exact Hw]. }
  split; [exact Hget|split; [|split]].
  - intros record rest w. unfold legacy.AppendRecords.
    cbn [legacy.append_loop].
    destruct (earlier_MakeApiRequest_no_tz env client close_fails "POST"
                "/api/resolution/add"
                (legacy.add_params env p (libdnsZoneToDnslaDomain zone) record)
                (legacy.APPKey p) zero_AddDomainRecord w Htz) as [Hp Hw].
    match goal with
    | |- fst (legacy.lbind ?m ?k w) = _ /\ _ =>
        destruct (earlier_lbind_panics m k w Hp) as [Hf Hs]
    end.
    split; [exact Hf | rewrite Hs; exact Hw].
  - intros records w. destruct (Hget w) as [Hp Hw].
    unfold legacy.SetRecords.
    match goal with
    | |- fst (legacy.lbind ?m ?k w) = _ /\ _ =>
        destruct (earlier_lbind_panics m k w Hp) as [Hf Hs]
    end.
    split; [exact Hf | rewrite Hs; exact Hw].
  - intros records w. destruct (Hget w) as [Hp Hw].
    unfold legacy.DeleteRecords.
    match goal with
    | |- fst (legacy.lbind ?m ?k w) = _ /\ _ =>
        destruct (earlier_lbind_panics m k w Hp) as [Hf Hs]
    end.
    split; [exact Hf | rewrite Hs; exact Hw].
Qed.

Lemma X16_witness :
  LoadLocation no_tz_env = false
  /\ fst (legacy.SetRecords no_tz_env www_client closes earlier_provider
            "example.com." [earlier_www "" "2.2.2.2" 300] w0) = legacy.Panics.
Proof.
  split; [reflexivity|].
  exact (proj1 (proj1 (proj2 (proj2
           (X16_earlier_revision_panics_without_time_zone no_tz_env www_client
              closes earlier_provider "example.com." eq_refl)))
           [earlier_www "" "2.2.2.2" 300] w0)).
Defined.

(* ================================================================= *)
(** ** The client of a provider *)

Section SameClient.

Variable env : Env.
Variables p1 p2 : Provider.
Hypothesis same_id : APPID p1 = APPID p2.
Hypothesis same_key : APPKey p1 = APPKey p2.
Hypothesis same_client : getHTTPClient env p1 = getHTTPClient env p2.








End SameClient.


(* ================================================================= *)
(** ** The earlier revision: a body that cannot be closed *)

Lemma earlier_lbind_exits {A B : Type} (m : legacy.L A) (k : A -> legacy.L B)
  (w : World) :
  fst (m w) = legacy.Exits -> fst (legacy.lbind m k w) = legacy.Exits.
Proof.
  unfold legacy.lbind. destruct (m w) as [[a| |] w1]; cbn; intros E;
    try discriminate; auto.
Qed.

Lemma earlier_MakeApiRequest_exits {T : Type} `{Unmarshal T} (env : Env)
  (client : Client) (close_fails : HttpResponse -> bool)
  (method endpoint params appKey : string) (responseType : T) (w : World) :
  ready env ->
  (forall history req,
     exists resp, client history req = Some resp /\ close_fails resp = true) ->
  fst (legacy.MakeApiRequest env client close_fails method endpoint params
         appKey responseType w) = legacy.Exits.
Proof.
  intros (Htz & Hj & Hu & Hn) Hc.
  unfold legacy.MakeApiRequest, log_call, time_Now, client_Do.
  cbn [clock calls wire]. rewrite Htz, Hj. cbn [negb].
  destruct (Hu (ApiBase ++ endpoint)) as [u ->]. rewrite Hn. cbn [negb].
  match goal with
  | |- context [client ?h ?r] => destruct (Hc h r) as (resp & -> & ->)
  end.
  reflexivity.
Qed.

(** X18. The earlier revision ends the process when the body of a
    response cannot be closed, whatever the status and the content of the
    response: against a vendor all of whose responses fail to close,
    [GetRecords], [SetRecords] and [DeleteRecords], and [AppendRecords]
    on a batch that is not empty, return neither records nor an error. *)
Theorem X18_earlier_revision_exits_on_close_failure (env : Env)
  (client : Client) (close_fails : HttpResponse -> bool)
  (p : legacy.Provider) (zone : string) :
  ready env ->
  (forall history req,
     exists resp, client history req = Some resp /\ close_fails resp = true) ->
  (forall w,
     fst (legacy.GetRecords env client close_fails p zone w) = legacy.Exits)
  /\ (forall record rest w,
        fst (legacy.AppendRecords env client close_fails p zone
               (record :: rest) w) = legacy.Exits)
  /\ (forall records w,
        fst (legacy.SetRecords env client close_fails p zone records w)
        = legacy.Exits)
  /\ (forall records w,
        fst (legacy.DeleteRecords env client close_fails p zone records w)
        = legacy.Exits).
Proof.
  intros Hr Hc.
  assert (forall w,
            fst (legacy.GetRecords env client close_fails p zone w)
            = legacy.Exits) as Hget.
  { intros w. unfold legacy.GetRecords. apply earlier_lbind_exits.
    now apply earlier_MakeApiRequest_exits. }
  split; [exact Hget|split; [|split]].
  - intros record rest w. unfold legacy.AppendRecords.
    cbn [legacy.append_loop]. apply earlier_lbind_exits.
    now apply earlier_MakeApiRequest_exits.
  - intros records w. unfold legacy.SetRecords. apply earlier_lbind_exits.
    apply Hget.
  - intros records w. unfold legacy.DeleteRecords. apply earlier_lbind_exits.
    apply Hget.
Qed.

Lemma X18_witness :
  fst (legacy.GetRecords plain_env (constant_client (ok www_listing))
         (fun _ => true) earlier_provider "example.com." w0) = legacy.Exits.
Proof.
  refine (proj1 (X18_earlier_revision_exits_on_close_failure plain_env
                   (constant_client (ok www_listing)) (fun _ => true)
                   earlier_provider "example.com." plain_env_ready _) w0).
  intros history req. exists (ok www_listing). split; reflexivity.
Defined.
